(** * The quiz-session engine of the quiz bot

    A shallow embedding of [quiz_system.py] (class [QuizSystem]), of the
    parts of [database.py] (class [DatabaseManager]) it calls, of the point
    table and thresholds of [config.py] and of the [start_quiz] command of
    [bot.py], followed by the properties of the engine.

    Modelling decisions.
    - Python [float]s (response times, accuracies, averages) are exact
      rationals [Q]; [int(x)] on a float is truncation towards zero. For
      the accuracy test of the difficulty adapter this is exact: the
      quotient of two tallies is correctly rounded, the literals 0.8 and
      0.4 are the roundings of 4/5 and 2/5, and a quotient [c / n] other
      than 4/5 (or 2/5) is at least [1 / (5 n)] away from it.
    - Python [str]s are [string]s of 8-bit characters; [str.lower] maps the
      ASCII letters [A-Z] to [a-z] and leaves every other character alone;
      [int(s)] accepts surrounding white space, a sign, and decimal digits
      with single underscores between them.
    - Python [dict]s are [gmap]s; a subscript on a missing key raises
      [KeyError].
    - Time is an integer number of microseconds, read from [clock].
    - The engine is a state-and-exception monad over a [World]: the live
      session table, the SQLite database, the chat, and the environment
      (clock, uuid source, [RANDOM()], storage faults, message ids). A
      raised exception keeps every mutation made before it, as in Python.
      The session dict fetched by [self.active_sessions[session_id]] is
      mutated in place: [with_session] runs a block of statements on the
      entry of the table.
    - Every storage operation is appended to [db_log]; the environment
      decides through [db_fails] whether the n-th operation fails, in which
      case nothing is committed and [StorageError] is raised.
    - Coroutines run to completion one at a time; embeds are reduced to
      their data and reactions are not modelled.

    The development then covers, each with its own small state: the
    ranking ([RankingSystem] of [analytics.py] over [config.RANKING_ROLES])
    and the all-time leaderboard of [database.py], over the [users] table
    with its column [current_rank]; the suggestions of [analytics.py]; and
    the CSV import and the bulk deletion of [admin_system.py] with
    [add_question], over the database with the AUTOINCREMENT sequence of
    [questions]. There the rows of a CSV file are taken as
    [csv.DictReader] yields them, the text of an error message is reduced
    to its cause, and of the two database branches of
    [bulk_manage_questions] the SQLite one is modelled. *)

From stdpp Require Import gmap strings list.
From Stdlib Require Import QArith Qround Lqa.
From Stdlib Require Import Ascii Sorted.
From Stdlib Require String.

Local Open Scope Z_scope.

(** ** Exceptions, outcomes and the engine monad *)

Inductive exn : Type :=
  | KeyError (k : Z)                (* dict subscript on a missing int key *)
  | KeyErrorStr (k : string)        (* dict subscript on a missing str key *)
  | ValueError (s : string)         (* int() on a non-numeric string *)
  | IntegrityError (k : string)     (* PRIMARY KEY violation on INSERT *)
  | StorageError.                   (* the storage backend failed *)

Inductive outcome (A : Type) : Type :=
  | Ok (a : A)
  | Raise (e : exn).
Arguments Ok {A} a.
Arguments Raise {A} e.

Definition M (St A : Type) : Type := St -> outcome A * St.

Definition ret {St A} (a : A) : M St A := fun s => (Ok a, s).

Definition bind {St A B} (m : M St A) (k : A -> M St B) : M St B :=
  fun s => match m s with
           | (Ok a, s') => k a s'
           | (Raise e, s') => (Raise e, s')
           end.

Definition raise {St A} (e : exn) : M St A := fun s => (Raise e, s).
Definition get {St} : M St St := fun s => (Ok s, s).
Definition modify {St} (f : St -> St) : M St unit := fun s => (Ok tt, f s).

Notation "'do' x <- m ; k" := (bind m (fun x => k))
  (at level 10, x name, m at level 100, k at level 200).
Notation "'do_' m ; k" := (bind m (fun _ => k))
  (at level 10, m at level 100, k at level 200).

(** [d[k]] on a dict with integer keys. *)
Definition subscript {St} (d : gmap Z Z) (k : Z) : M St Z :=
  match d !! k with
  | Some v => ret v
  | None => raise (KeyError k)
  end.

(** ** Strings: [str.lower] and [int(str)] *)

Definition is_upper (c : ascii) : bool :=
  let n := N_of_ascii c in ((65 <=? n) && (n <=? 90))%N.

Definition lower_ascii (c : ascii) : ascii :=
  if is_upper c then ascii_of_N (N_of_ascii c + 32) else c.

Fixpoint lower (s : string) : string :=
  match s with
  | EmptyString => EmptyString
  | String c s' => String (lower_ascii c) (lower s')
  end.

Definition is_space (c : ascii) : bool :=
  let n := N_of_ascii c in ((n =? 32) || ((9 <=? n) && (n <=? 13)))%N.

Definition digit_of (c : ascii) : option Z :=
  let n := N_of_ascii c in
  if ((48 <=? n) && (n <=? 57))%N then Some (Z.of_N n - 48) else None.

Fixpoint lstrip (s : string) : string :=
  match s with
  | String c s' => if is_space c then lstrip s' else s
  | EmptyString => EmptyString
  end.

Fixpoint rstrip (s : string) : string :=
  match s with
  | EmptyString => EmptyString
  | String c s' =>
      match rstrip s' with
      | EmptyString => if is_space c then EmptyString else String c EmptyString
      | r => String c r
      end
  end.

(** Digits with single underscores between them; [after_digit] tells
    whether the previous character was a digit. *)
Fixpoint parse_digits (s : string) (acc : Z) (after_digit : bool) : option Z :=
  match s with
  | EmptyString => if after_digit then Some acc else None
  | String c s' =>
      match digit_of c with
      | Some k => parse_digits s' (10 * acc + k) true
      | None =>
          if (N_of_ascii c =? 95)%N && after_digit
          then match s' with
               | EmptyString => None
               | String c' _ =>
                   match digit_of c' with
                   | Some _ => parse_digits s' acc false
                   | None => None
                   end
               end
          else None
      end
  end.

(** [int(s)] for a [str]: surrounding whitespace, an optional sign,
    decimal digits. [None] stands for [ValueError]. *)
Definition int_of_str (s : string) : option Z :=
  match rstrip (lstrip s) with
  | String "-"%char s' => Z.opp <$> parse_digits s' 0 false
  | String "+"%char s' => parse_digits s' 0 false
  | s' => parse_digits s' 0 false
  end.

(** ** config.py *)

Definition POINTS_EASY : Z := 1.
Definition POINTS_MEDIUM : Z := 2.
Definition POINTS_HARD : Z := 3.
Definition DIFFICULTY_THRESHOLD_UP : Q := 8 # 10.
Definition DIFFICULTY_THRESHOLD_DOWN : Q := 4 # 10.

(** ** Data model *)

(** A row of the [questions] table. *)
Record Question : Type := mkQuestion {
  question_id : Z;
  q_chapter_id : Z;
  question_text : string;
  option_a : string;
  option_b : string;
  option_c : string;
  option_d : string;
  correct_option : string;
  difficulty : Z;
  explanation : option string;
}.

(** A row of the [chapters] table. *)
Record Chapter : Type := mkChapter {
  c_chapter_id : Z;
  c_name : string;
}.

(** A row of the [quiz_attempts] table. *)
Record Attempt : Type := mkAttempt {
  a_user_id : Z;
  a_chapter_id : Z;
  a_question_id : Z;
  a_user_answer : string;
  a_is_correct : bool;
  a_response_time : Q;
  a_difficulty : Z;
  a_points_earned : Z;
  a_attempted_at : Z;
}.

(** A row of the [users] table. [u_average_response_time] is [None] for
    SQL NULL. *)
Record UserRow : Type := mkUserRow {
  u_username : string;
  u_total_points : Z;
  u_total_questions : Z;
  u_correct_answers : Z;
  u_average_response_time : option Q;
}.

(** A row of the [active_quizzes] table, keyed by [session_id]: the durable
    marker of a live session. *)
Record ActiveQuiz : Type := mkActiveQuiz {
  aq_user_id : Z;
  aq_chapter_id : Z;
  aq_current_difficulty : Z;
  aq_total_questions : Z;
  aq_started_at : Z;
}.

(** The value stored in [QuizSystem.active_sessions] under a session id. *)
Record Session : Type := mkSession {
  user_id : Z;
  chapter_id : Z;
  current_question : Z;
  total_questions : Z;
  score : Z;
  correct_streak : Z;
  wrong_streak : Z;
  difficulty_mode : string;
  current_difficulty : Z;
  questions_by_difficulty : gmap Z Z;
  correct_by_difficulty : gmap Z Z;
  response_times : list Q;
  started_at : Z;
}.

Definition set_current_question (v : Z) (s : Session) : Session :=
  mkSession (user_id s) (chapter_id s) v (total_questions s) (score s)
    (correct_streak s) (wrong_streak s) (difficulty_mode s)
    (current_difficulty s) (questions_by_difficulty s)
    (correct_by_difficulty s) (response_times s) (started_at s).
Definition set_score (v : Z) (s : Session) : Session :=
  mkSession (user_id s) (chapter_id s) (current_question s)
    (total_questions s) v (correct_streak s) (wrong_streak s)
    (difficulty_mode s) (current_difficulty s) (questions_by_difficulty s)
    (correct_by_difficulty s) (response_times s) (started_at s).
Definition set_correct_streak (v : Z) (s : Session) : Session :=
  mkSession (user_id s) (chapter_id s) (current_question s)
    (total_questions s) (score s) v (wrong_streak s) (difficulty_mode s)
    (current_difficulty s) (questions_by_difficulty s)
    (correct_by_difficulty s) (response_times s) (started_at s).
Definition set_wrong_streak (v : Z) (s : Session) : Session :=
  mkSession (user_id s) (chapter_id s) (current_question s)
    (total_questions s) (score s) (correct_streak s) v (difficulty_mode s)
    (current_difficulty s) (questions_by_difficulty s)
    (correct_by_difficulty s) (response_times s) (started_at s).
Definition set_current_difficulty (v : Z) (s : Session) : Session :=
  mkSession (user_id s) (chapter_id s) (current_question s)
    (total_questions s) (score s) (correct_streak s) (wrong_streak s)
    (difficulty_mode s) v (questions_by_difficulty s)
    (correct_by_difficulty s) (response_times s) (started_at s).
Definition set_questions_by_difficulty (v : gmap Z Z) (s : Session) : Session :=
  mkSession (user_id s) (chapter_id s) (current_question s)
    (total_questions s) (score s) (correct_streak s) (wrong_streak s)
    (difficulty_mode s) (current_difficulty s) v
    (correct_by_difficulty s) (response_times s) (started_at s).
Definition set_correct_by_difficulty (v : gmap Z Z) (s : Session) : Session :=
  mkSession (user_id s) (chapter_id s) (current_question s)
    (total_questions s) (score s) (correct_streak s) (wrong_streak s)
    (difficulty_mode s) (current_difficulty s) (questions_by_difficulty s)
    v (response_times s) (started_at s).
Definition set_response_times (v : list Q) (s : Session) : Session :=
  mkSession (user_id s) (chapter_id s) (current_question s)
    (total_questions s) (score s) (correct_streak s) (wrong_streak s)
    (difficulty_mode s) (current_difficulty s) (questions_by_difficulty s)
    (correct_by_difficulty s) v (started_at s).

(** The SQLite database behind [DatabaseManager]. *)
Record Database : Type := mkDatabase {
  users : gmap Z UserRow;
  chapters : list Chapter;
  questions : list Question;
  quiz_attempts : list Attempt;
  user_question_history : gmap (Z * Z) Z;   (* (user, question) -> last_attempted *)
  active_quizzes : gmap string ActiveQuiz;
}.

(** Storage operations, as they reach the backend. *)
Inductive DbOp : Type :=
  | OpAddUser (uid : Z)
  | OpGetChapters
  | OpInsertActiveQuiz (sid : string)
  | OpNextQuestion (uid chapter : Z) (diff : option Z)
  | OpSelectQuestion (qid : Z)
  | OpRecordAttempt (uid chapter qid : Z) (answer : string) (correct : bool)
                    (points : Z)
  | OpDeleteActiveQuiz (sid : string)
  | OpCleanupOldSessions.

(** What the bot has sent to the chat. *)
Inductive BotMessage : Type :=
  | MsgText (s : string)
  | MsgChapterList (names : list string)
  | MsgQuestion (chapter : string) (qid number total diff : Z).

(** An entry of [bot.active_quiz_messages]. *)
Record QuizInfo : Type := mkQuizInfo {
  qi_session_id : string;
  qi_question_id : Z;
  qi_user_id : Z;
  qi_start_time : Z;
}.

Record World : Type := mkWorld {
  active_sessions : gmap string Session;   (* QuizSystem.active_sessions *)
  db : Database;
  db_log : list DbOp;
  active_quiz_messages : gmap Z QuizInfo;  (* QuizBot.active_quiz_messages *)
  outbox : list BotMessage;
  (* environment *)
  clock : Z;                               (* datetime.now(), microseconds *)
  db_fails : nat -> bool;                  (* does storage operation n fail *)
  uuids : nat -> string;                   (* uuid4() of the n-th call *)
  uuid_calls : nat;
  random : nat -> Z -> Z;                  (* RANDOM() in operation n, per question row *)
  message_ids : nat -> Z;                  (* id of the n-th sent message *)
}.

Definition set_active_sessions (v : gmap string Session) (w : World) : World :=
  mkWorld v (db w) (db_log w) (active_quiz_messages w) (outbox w) (clock w)
    (db_fails w) (uuids w) (uuid_calls w) (random w) (message_ids w).
Definition set_db (v : Database) (w : World) : World :=
  mkWorld (active_sessions w) v (db_log w) (active_quiz_messages w) (outbox w)
    (clock w) (db_fails w) (uuids w) (uuid_calls w) (random w) (message_ids w).
Definition set_db_log (v : list DbOp) (w : World) : World :=
  mkWorld (active_sessions w) (db w) v (active_quiz_messages w) (outbox w)
    (clock w) (db_fails w) (uuids w) (uuid_calls w) (random w) (message_ids w).
Definition set_active_quiz_messages (v : gmap Z QuizInfo) (w : World) : World :=
  mkWorld (active_sessions w) (db w) (db_log w) v (outbox w) (clock w)
    (db_fails w) (uuids w) (uuid_calls w) (random w) (message_ids w).
Definition set_outbox (v : list BotMessage) (w : World) : World :=
  mkWorld (active_sessions w) (db w) (db_log w) (active_quiz_messages w) v
    (clock w) (db_fails w) (uuids w) (uuid_calls w) (random w) (message_ids w).
Definition set_uuid_calls (v : nat) (w : World) : World :=
  mkWorld (active_sessions w) (db w) (db_log w) (active_quiz_messages w)
    (outbox w) (clock w) (db_fails w) (uuids w) v (random w) (message_ids w).

Definition Eng (A : Type) : Type := M World A.

(** Run one storage operation: it is logged, the environment decides
    whether it fails, and a failed operation commits nothing. *)
Definition storage {A} (op : DbOp)
    (run : World -> Database -> outcome A * Database) : Eng A :=
  fun w =>
    let w1 := set_db_log (db_log w ++ [op]) w in
    if db_fails w (length (db_log w)) then (Raise StorageError, w1)
    else let '(r, d) := run w (db w) in (r, set_db d w1).

(** [session = self.active_sessions[session_id]] followed by statements
    that read and mutate [session]: the dict in the table is the one that
    is mutated. *)
Definition with_session {A} (session_id : string) (m : M Session A) : Eng A :=
  fun w =>
    match active_sessions w !! session_id with
    | None => (Raise (KeyErrorStr session_id), w)
    | Some s =>
        let '(r, s') := m s in
        (r, set_active_sessions (<[session_id := s']> (active_sessions w)) w)
    end.

(** [self.active_sessions[session_id]], read only. *)
Definition the_session (session_id : string) : Eng Session :=
  fun w =>
    match active_sessions w !! session_id with
    | None => (Raise (KeyErrorStr session_id), w)
    | Some s => (Ok s, w)
    end.

(** ** database.py: the operations of [DatabaseManager] the engine uses *)

Module DatabaseManager.

(** INSERT OR IGNORE INTO users (user_id, username). *)
Definition add_user (uid : Z) (username : string) : Eng unit :=
  storage (OpAddUser uid) (fun _ d =>
    match users d !! uid with
    | Some _ => (Ok tt, d)
    | None =>
        (Ok tt,
         mkDatabase (<[uid := mkUserRow username 0 0 0 (Some 0%Q)]> (users d))
           (chapters d) (questions d) (quiz_attempts d)
           (user_question_history d) (active_quizzes d))
    end).

Fixpoint insert_by_name (c : Chapter) (l : list Chapter) : list Chapter :=
  match l with
  | [] => [c]
  | c' :: l' =>
      if String.leb (c_name c) (c_name c') then c :: l
      else c' :: insert_by_name c l'
  end.

(** SELECT * FROM chapters ORDER BY name. *)
Definition get_chapters : Eng (list Chapter) :=
  storage OpGetChapters (fun _ d =>
    (Ok (foldr insert_by_name [] (chapters d)), d)).

(** [if difficulty:] on an [Optional[int]]. *)
Definition difficulty_given (diff : option Z) : option Z :=
  match diff with
  | Some k => if k =? 0 then None else Some k
  | None => None
  end.

(** WHERE q.chapter_id = ? [AND q.difficulty = ?]. *)
Definition is_candidate (chapter : Z) (diff : option Z) (q : Question) : bool :=
  (q_chapter_id q =? chapter) &&
  match difficulty_given diff with
  | Some k => difficulty q =? k
  | None => true
  end.

(** The ORDER BY key of a row: never attempted first, then the least
    recently attempted, then [RANDOM()]. *)
Definition order_key (d : Database) (rnd : Z -> Z) (uid : Z) (q : Question)
    : Z * Z * Z :=
  match user_question_history d !! (uid, question_id q) with
  | None => (0, 0, rnd (question_id q))
  | Some t => (1, t, rnd (question_id q))
  end.

Definition key_ltb (a b : Z * Z * Z) : bool :=
  let '(a1, a2, a3) := a in
  let '(b1, b2, b3) := b in
  (a1 <? b1) || ((a1 =? b1) && ((a2 <? b2) || ((a2 =? b2) && (a3 <? b3)))).

(** ORDER BY ... LIMIT 1: the row with the least key, the earliest row
    of the table among equal keys. *)
Definition first_by_key (key : Question -> Z * Z * Z) (l : list Question)
    : option Question :=
  match l with
  | [] => None
  | q :: l' =>
      Some (fold_left (fun best q' =>
              if key_ltb (key q') (key best) then q' else best) l' q)
  end.

Definition get_next_question (uid chapter : Z) (diff : option Z)
    : Eng (option Question) :=
  storage (OpNextQuestion uid chapter diff) (fun w d =>
    let rows := List.filter (is_candidate chapter diff) (questions d) in
    (Ok (first_by_key (order_key d (random w (length (db_log w))) uid) rows), d)).

(** UPDATE users SET ...: every right-hand side reads the row as it was
    before the update; a division by zero gives NULL. *)
Definition update_user_stats (points : Z) (correct : bool) (rt : Q)
    (u : UserRow) : UserRow :=
  mkUserRow (u_username u)
    (u_total_points u + points)
    (u_total_questions u + 1)
    (u_correct_answers u + (if correct then 1 else 0))
    (match u_average_response_time u with
     | Some avg =>
         if u_total_questions u =? 0 then None
         else Some ((avg * inject_Z (u_total_questions u - 1) + rt)
                    / inject_Z (u_total_questions u))%Q
     | None => None
     end).

Definition record_quiz_attempt (uid chapter qid : Z) (user_answer : string)
    (is_correct : bool) (response_time : Q) (diff points_earned : Z)
    : Eng unit :=
  storage (OpRecordAttempt uid chapter qid user_answer is_correct points_earned)
    (fun w d =>
      (Ok tt,
       mkDatabase
         (alter (update_user_stats points_earned is_correct response_time)
                uid (users d))
         (chapters d) (questions d)
         (quiz_attempts d ++
            [mkAttempt uid chapter qid user_answer is_correct response_time
               diff points_earned (clock w)])
         (<[(uid, qid) := clock w]> (user_question_history d))
         (active_quizzes d))).


End DatabaseManager.

(** ** quiz_system.py: class [QuizSystem] *)

(** [stats] of [_calculate_final_stats]. *)
Record FinalStats : Type := mkFinalStats {
  fs_total_questions : Z;
  fs_correct_answers : Z;
  fs_accuracy : Q;
  fs_final_score : Z;
  fs_time_bonus : Z;
  fs_avg_response_time : Q;
  fs_difficulty_breakdown : gmap Z Z;
  fs_quiz_duration : Q;
}.

(** [response] of [submit_answer]; a key that is absent from the dict is
    [false] ([quiz_complete]) or [None] ([final_stats]). *)
Record AnswerResponse : Type := mkAnswerResponse {
  r_is_correct : bool;
  r_correct_answer : string;
  r_explanation : option string;
  r_points_earned : Z;
  r_current_score : Z;
  r_question_number : Z;
  r_total_questions : Z;
  r_streak : Z;
  r_quiz_complete : bool;
  r_final_stats : option FinalStats;
}.

(** What [submit_answer] returns: [{'error': msg}] or a response. *)
Inductive SubmitResult : Type :=
  | SubmitError (msg : string)
  | Answered (r : AnswerResponse).

(** What [end_quiz] returns: [{'error': msg}] or
    [{'quiz_ended': True, 'final_stats': stats}]. *)
Inductive EndResult : Type :=
  | EndError (msg : string)
  | QuizEnded (stats : FinalStats).

(** The dict [get_next_question] returns: the question row and the four
    keys added to it. *)
Record NextQuestion : Type := mkNextQuestion {
  nq_question : Question;
  nq_session_id : string;
  nq_question_number : Z;
  nq_total_questions : Z;
  nq_current_difficulty : Z;
}.

(** [int(x)] on a float: truncation towards zero. *)
Definition int_of_float (x : Q) : Z := Z.quot (Qnum x) (Zpos (Qden x)).

(** [x < y] on floats. *)
Definition Qltb (x y : Q) : bool := negb (Qle_bool y x).

(** [round(x)] to an integer, ties to even. *)
Definition round_half_even (x : Q) : Z :=
  let f := Qfloor x in
  match ((x - inject_Z f) ?= (1 # 2))%Q with
  | Lt => f
  | Gt => f + 1
  | Eq => if Z.even f then f else f + 1
  end.

(** [round(x, 2)]. *)
Definition round2 (x : Q) : Q := (inject_Z (round_half_even (x * 100)) / 100)%Q.

(** [sum(l)] over floats. *)
Definition sum_floats (l : list Q) : Q := fold_left Qplus l 0%Q.

(** [sum(d.values())] over ints. *)
Definition sum_values (d : gmap Z Z) : Z := map_fold (fun _ v acc => acc + v) 0 d.

Module QuizSystem.

Definition start_quiz (uid chapter : Z) (difficulty_arg : string)
    (total : Z) : Eng string :=
  do w <- get;
  let session_id := uuids w (uuid_calls w) in
  do_ modify (set_uuid_calls (S (uuid_calls w)));
  (* Initialize difficulty *)
  do cur <- (if String.eqb difficulty_arg "mix" then ret 1
             else match int_of_str difficulty_arg with
                  | Some k => ret k
                  | None => raise (ValueError difficulty_arg)
                  end);
  (* Store session in database *)
  do_ storage (OpInsertActiveQuiz session_id) (fun w d =>
        match active_quizzes d !! session_id with
        | Some _ => (Raise (IntegrityError session_id), d)
        | None =>
            (Ok tt,
             mkDatabase (users d) (chapters d) (questions d)
               (quiz_attempts d) (user_question_history d)
               (<[session_id := mkActiveQuiz uid chapter cur total (clock w)]>
                  (active_quizzes d)))
        end);
  (* Initialize session data *)
  do w <- get;
  do_ modify (set_active_sessions
        (<[session_id :=
             mkSession uid chapter 0 total 0 0 0 difficulty_arg cur
               {[1 := 0; 2 := 0; 3 := 0]} {[1 := 0; 2 := 0; 3 := 0]}
               [] (clock w)]> (active_sessions w)));
  ret session_id.

Definition get_next_question (session_id : string)
    : Eng (option NextQuestion) :=
  do w <- get;
  match active_sessions w !! session_id with
  | None => ret None
  | Some session =>
      (* Check if quiz is complete *)
      if total_questions session <=? current_question session then ret None
      else
        (* Get question based on current difficulty *)
        do question <- DatabaseManager.get_next_question
                         (user_id session) (chapter_id session)
                         (Some (current_difficulty session));
        do question <- (match question with
                        | Some q => ret (Some q)
                        | None =>
                            (* try any difficulty *)
                            DatabaseManager.get_next_question
                              (user_id session) (chapter_id session) None
                        end);
        match question with
        | Some q =>
            ret (Some (mkNextQuestion q session_id
                         (current_question session + 1)
                         (total_questions session)
                         (current_difficulty session)))
        | None => ret None
        end
  end.

(** Remove from active sessions, then from the database. *)
Definition _cleanup_session (session_id : string) : Eng unit :=
  do_ modify (fun w => set_active_sessions (delete session_id (active_sessions w)) w);
  storage (OpDeleteActiveQuiz session_id) (fun _ d =>
    (Ok tt,
     mkDatabase (users d) (chapters d) (questions d) (quiz_attempts d)
       (user_question_history d) (delete session_id (active_quizzes d)))).

(** The time bonus of [_calculate_final_stats]. *)
Definition time_bonus_of (avg_response_time : Q) : Z :=
  if Qltb avg_response_time 10
  then Z.min 50 (int_of_float ((10 - avg_response_time) * 5)%Q)
  else 0.

Definition avg_response_time_of (session : Session) : Q :=
  match response_times session with
  | [] => 0%Q
  | l => (sum_floats l / inject_Z (Z.of_nat (length l)))%Q
  end.

Definition _calculate_final_stats (session_id : string) : Eng FinalStats :=
  do session <- the_session session_id;
  do w <- get;
  let total := current_question session in
  let total_correct := sum_values (correct_by_difficulty session) in
  let accuracy :=
    if 0 <? total then (inject_Z total_correct / inject_Z total * 100)%Q
    else 0%Q in
  let avg_response_time := avg_response_time_of session in
  (* Calculate time bonus (faster responses get bonus points) *)
  let time_bonus := time_bonus_of avg_response_time in
  let final_score := score session + time_bonus in
  let stats :=
    mkFinalStats total total_correct (round2 accuracy) final_score time_bonus
      (round2 avg_response_time) (questions_by_difficulty session)
      ((clock w - started_at session) # 1000000) in
  (* Clean up session *)
  do_ _cleanup_session session_id;
  ret stats.

(** Adjust difficulty based on recent performance (mix mode): the body
    of [_adjust_difficulty], on [session = self.active_sessions[session_id]]. *)
Definition adjust_session : M Session unit :=
  do session <- get;
  let current_diff := current_difficulty session in
  (* Calculate recent accuracy (last 3-5 questions) *)
  let recent_window := Z.min 5 (current_question session) in
  if recent_window <? 3 then ret tt   (* Need at least 3 questions to adjust *)
  else
    (* Calculate accuracy for current difficulty level *)
    do n <- subscript (questions_by_difficulty session) current_diff;
    if 3 <=? n then
      do c <- subscript (correct_by_difficulty session) current_diff;
      do n <- subscript (questions_by_difficulty session) current_diff;
      let accuracy := (inject_Z c / inject_Z n)%Q in
      (* Adjust based on performance *)
      if Qle_bool DIFFICULTY_THRESHOLD_UP accuracy && (current_diff <? 3)
      then modify (set_current_difficulty (Z.min 3 (current_diff + 1)))
      else if Qle_bool accuracy DIFFICULTY_THRESHOLD_DOWN && (1 <? current_diff)
      then modify (set_current_difficulty (Z.max 1 (current_diff - 1)))
      else ret tt
    else ret tt.

Definition _adjust_difficulty (session_id : string) : Eng unit :=
  with_session session_id adjust_session.

Definition points_map : gmap Z Z :=
  {[1 := POINTS_EASY; 2 := POINTS_MEDIUM; 3 := POINTS_HARD]}.

(** The block "Update session statistics" of [submit_answer]. *)
Definition update_session_statistics (question : Question)
    (is_correct : bool) (points_earned : Z) (response_time : Q)
    : M Session unit :=
  do_ modify (fun s => set_current_question (current_question s + 1) s);
  do s <- get;
  do n <- subscript (questions_by_difficulty s) (difficulty question);
  do_ modify (set_questions_by_difficulty
               (<[difficulty question := n + 1]> (questions_by_difficulty s)));
  do_ modify (fun s => set_response_times (response_times s ++ [response_time]) s);
  if is_correct then
    do_ modify (fun s => set_score (score s + points_earned) s);
    do_ modify (fun s => set_correct_streak (correct_streak s + 1) s);
    do_ modify (set_wrong_streak 0);
    do s <- get;
    do c <- subscript (correct_by_difficulty s) (difficulty question);
    modify (set_correct_by_difficulty
              (<[difficulty question := c + 1]> (correct_by_difficulty s)))
  else
    do_ modify (set_correct_streak 0);
    modify (fun s => set_wrong_streak (wrong_streak s + 1) s).

Definition submit_answer (session_id : string) (qid : Z)
    (user_answer : string) (response_time : Q) : Eng SubmitResult :=
  do w <- get;
  match active_sessions w !! session_id with
  | None => ret (SubmitError "Invalid session")
  | Some _ =>
      (* Get question details *)
      do question <- storage (OpSelectQuestion qid) (fun _ d =>
            (Ok (List.find (fun q => question_id q =? qid) (questions d)), d));
      match question with
      | None => ret (SubmitError "Question not found")
      | Some question =>
          let is_correct :=
            String.eqb (lower user_answer) (lower (correct_option question)) in
          (* Calculate points based on difficulty *)
          do points_earned <-
            (if is_correct then subscript points_map (difficulty question)
             else ret 0);
          (* Update session statistics *)
          do_ with_session session_id
                (update_session_statistics question is_correct points_earned
                   response_time);
          (* Record in database *)
          do session <- the_session session_id;
          do_ DatabaseManager.record_quiz_attempt
                (user_id session) (chapter_id session) qid user_answer
                is_correct response_time (difficulty question) points_earned;
          (* Adjust difficulty for mix mode *)
          do_ (if String.eqb (difficulty_mode session) "mix"
               then _adjust_difficulty session_id else ret tt);
          (* Prepare response *)
          do session <- the_session session_id;
          let response final :=
            mkAnswerResponse is_correct (correct_option question)
              (explanation question) points_earned (score session)
              (current_question session) (total_questions session)
              (correct_streak session)
              (match final with Some _ => true | None => false end) final in
          (* Check if quiz is complete *)
          if total_questions session <=? current_question session then
            do stats <- _calculate_final_stats session_id;
            ret (Answered (response (Some stats)))
          else ret (Answered (response None))
      end
  end.

Definition get_session_info (session_id : string) : Eng (option Session) :=
  do w <- get;
  ret (active_sessions w !! session_id).

(** Force end a quiz session. *)
Definition end_quiz (session_id : string) : Eng EndResult :=
  do w <- get;
  match active_sessions w !! session_id with
  | None => ret (EndError "Invalid session")
  | Some _ =>
      do stats <- _calculate_final_stats session_id;
      ret (QuizEnded stats)
  end.

End QuizSystem.

(** ** bot.py: the [start_quiz] command *)

Module Bot.

(** [await ctx.send(...)]: the message joins the outbox and gets its id
    from the chat platform. *)
Definition send (m : BotMessage) : Eng Z :=
  do w <- get;
  do_ modify (set_outbox (outbox w ++ [m]));
  ret (message_ids w (length (outbox w))).

Definition valid_difficulties : list string := ["1"; "2"; "3"; "mix"].

Definition start_quiz (author : Z) (author_name : string)
    (chapter_name : option string) (difficulty_arg : string)
    (questions_arg : Z) : Eng unit :=
  match chapter_name with
  | None | Some EmptyString =>
      do chapters <- DatabaseManager.get_chapters;
      do_ send (MsgChapterList (c_name <$> chapters));
      ret tt
  | Some chapter_name =>
      (* Add user to database if not exists *)
      do_ DatabaseManager.add_user author author_name;
      (* Find chapter *)
      do chapters <- DatabaseManager.get_chapters;
      match List.find (fun ch => String.eqb (lower (c_name ch)) (lower chapter_name))
              chapters with
      | None =>
          do_ send (MsgText (String.append "Chapter '"
                     (String.append chapter_name
                        "' not found. Use `!start_quiz` to see available chapters.")));
          ret tt
      | Some chapter =>
          (* Validate difficulty *)
          if negb (bool_decide (difficulty_arg ∈ valid_difficulties)) then
            do_ send (MsgText "Difficulty must be 1 (easy), 2 (medium), 3 (hard), or 'mix'");
            ret tt
          (* Validate question count *)
          else if (questions_arg <? 1) || (50 <? questions_arg) then
            do_ send (MsgText "Number of questions must be between 1 and 50");
            ret tt
          else
            (* Start quiz session *)
            do session_id <- QuizSystem.start_quiz author (c_chapter_id chapter)
                               difficulty_arg questions_arg;
            (* Get first question *)
            do question <- QuizSystem.get_next_question session_id;
            match question with
            | None =>
                do_ send (MsgText "No questions available for this chapter!");
                ret tt
            | Some nq =>
                do w <- get;
                do mid <- send (MsgQuestion (c_name chapter)
                                  (question_id (nq_question nq))
                                  (nq_question_number nq)
                                  (nq_total_questions nq)
                                  (nq_current_difficulty nq));
                (* Store message info for reaction handling *)
                modify (fun w' =>
                  set_active_quiz_messages
                    (<[mid := mkQuizInfo session_id
                                (question_id (nq_question nq)) author (clock w)]>
                       (active_quiz_messages w')) w')
            end
      end
  end.

End Bot.

(** ** A sample world *)

Definition q1 : Question := mkQuestion 1 7 "2+2?" "3" "4" "5" "6" "B" 1 None.
Definition q2 : Question := mkQuestion 2 7 "3*3?" "9" "6" "3" "1" "a" 2 (Some "nine").
Definition q3 : Question := mkQuestion 3 7 "2^5?" "16" "64" "32" "8" "C" 3 None.
Definition q4 : Question := mkQuestion 4 8 "1-1?" "0" "1" "2" "3" "A" 1 None.

Definition db0 : Database :=
  mkDatabase ∅ [mkChapter 7 "Algebra"; mkChapter 8 "Sets"; mkChapter 9 "Empty"]
    [q1; q2; q3; q4] [] ∅ ∅.

Definition uuid_of (n : nat) : string :=
  String.append "session-" (String (ascii_of_nat (48 + n)) EmptyString).

Definition w0 : World :=
  mkWorld ∅ db0 [] ∅ [] 1000000 (fun _ => false) uuid_of 0
    (fun _ qid => qid) (fun n => Z.of_nat n + 100).

(** The same world with a storage backend that fails at every operation
    from the [n]-th on. *)
Definition failing_from (n : nat) (w : World) : World :=
  mkWorld (active_sessions w) (db w) (db_log w) (active_quiz_messages w)
    (outbox w) (clock w) (fun k => bool_decide (n ≤ k)%nat) (uuids w)
    (uuid_calls w) (random w) (message_ids w).

(** * Specification-level definitions and sample worlds *)

(** Two characters are the same letter up to case: equal, or an upper-case
    ASCII letter and its lower-case form (32 code points above). *)
Definition same_letter (a b : ascii) : Prop :=
  let x := N_of_ascii a in
  let y := N_of_ascii b in
  (x = y \/ (65 <= x <= 90 /\ y = x + 32) \/ (65 <= y <= 90 /\ x = y + 32))%N.

(** Case-insensitive equality of two strings, character by character. *)
Inductive same_ignoring_case : string -> string -> Prop :=
  | sic_nil : same_ignoring_case EmptyString EmptyString
  | sic_cons a b s t :
      same_letter a b -> same_ignoring_case s t ->
      same_ignoring_case (String a s) (String b t).

(** [d[k] += 1] on a tally that has the key. *)
Definition bump (k : Z) (d : gmap Z Z) : gmap Z Z :=
  match d !! k with
  | Some n => <[k := n + 1]> d
  | None => d
  end.

(** The session after one answer, as the specification lists the side
    effects: one more question answered, one more at the question's
    difficulty, the response time appended; on a correct answer the points
    added, [correctStreak] incremented, [wrongStreak] reset and one more
    correct at that difficulty; on an incorrect answer [correctStreak]
    reset and [wrongStreak] incremented. *)
Definition answered (q : Question) (correct : bool) (points : Z) (rt : Q)
    (s : Session) : Session :=
  mkSession (user_id s) (chapter_id s)
    (current_question s + 1)
    (total_questions s)
    (if correct then score s + points else score s)
    (if correct then correct_streak s + 1 else 0)
    (if correct then 0 else wrong_streak s + 1)
    (difficulty_mode s) (current_difficulty s)
    (bump (difficulty q) (questions_by_difficulty s))
    (if correct then bump (difficulty q) (correct_by_difficulty s)
     else correct_by_difficulty s)
    (response_times s ++ [rt])
    (started_at s).

Record session_ok (s : Session) : Prop := mk_session_ok {
  ok_counts_keys :
    forall k, 1 <= k <= 3 -> is_Some (questions_by_difficulty s !! k);
  ok_correct_keys :
    forall k, 1 <= k <= 3 -> is_Some (correct_by_difficulty s !! k);
  ok_counts_le :
    forall k n, questions_by_difficulty s !! k = Some n -> n <= current_question s;
  ok_mix : difficulty_mode s = "mix" -> 1 <= current_difficulty s <= 3;
  ok_streak : correct_streak s = 0 \/ wrong_streak s = 0;
}.

Definition session_op_ok {A} (m : M Session A) : Prop :=
  forall s r s', session_ok s -> m s = (r, s') -> session_ok s'.

(** Every live session satisfies the invariants. *)
Definition Inv (w : World) : Prop :=
  forall sid s, active_sessions w !! sid = Some s -> session_ok s.

Definition preserves {A} (m : Eng A) : Prop :=
  forall w r w', Inv w -> m w = (r, w') -> Inv w'.

(** The operations the engine exposes. *)
Inductive Call : Type :=
  | CallStart (uid chapter : Z) (mode : string) (total : Z)
  | CallNext (sid : string)
  | CallSubmit (sid : string) (qid : Z) (answer : string) (rt : Q)
  | CallEnd (sid : string)
  | CallInfo (sid : string).

Definition exec (c : Call) (w : World) : World :=
  match c with
  | CallStart uid chapter mode total =>
      snd (QuizSystem.start_quiz uid chapter mode total w)
  | CallNext sid => snd (QuizSystem.get_next_question sid w)
  | CallSubmit sid qid answer rt => snd (QuizSystem.submit_answer sid qid answer rt w)
  | CallEnd sid => snd (QuizSystem.end_quiz sid w)
  | CallInfo sid => snd (QuizSystem.get_session_info sid w)
  end.

(** The worlds the engine can be in: it starts with an empty session
    table; any exposed operation may be called, whatever its outcome; the
    environment (database, clock, faults, chat) may change at any time, but
    only the engine writes the session table. *)
Inductive reachable : World -> Prop :=
  | reach_init w : active_sessions w = ∅ -> reachable w
  | reach_call w c : reachable w -> reachable (exec c w)
  | reach_env w w' :
      reachable w -> active_sessions w' = active_sessions w -> reachable w'.

(** The rule of the Difficulty Adapter as the specification states it:
    [n] answers and [c] correct answers at the current level [cur]. *)
Definition adapted_difficulty (cur n c : Z) : Z :=
  if n <? 3 then cur
  else
    let acc := (inject_Z c / inject_Z n)%Q in
    if Qle_bool (8 # 10) acc && (cur <? 3) then cur + 1
    else if Qle_bool acc (4 # 10) && (1 <? cur) then cur - 1
    else cur.

(** The points of an answer: the fixed table on a correct answer, 0 on an
    incorrect one. *)
Definition points_for (q : Question) (correct : bool) (points : Z) : Prop :=
  if correct then QuizSystem.points_map !! difficulty q = Some points
  else points = 0.

(** The session after the answer has been scored and, in mix mode, the
    difficulty adapted. *)
Definition adapted (s1 s2 : Session) : Prop :=
  if String.eqb (difficulty_mode s1) "mix"
  then QuizSystem.adjust_session s1 = (Ok tt, s2)
  else s2 = s1.

Definition w_started : World :=
  Eval vm_compute in snd (QuizSystem.start_quiz 5 7 "mix" 2 w0).

Definition w_not_found : World :=
  snd (QuizSystem.submit_answer "session-0" 99 "A" 3 w_started).

Definition r_first : AnswerResponse :=
  mkAnswerResponse true "B" None 1 1 1 2 1 false None.

Definition w_first : World :=
  snd (QuizSystem.submit_answer "session-0" 1 "b" 3 w_started).

Definition s_started : Session :=
  mkSession 5 7 0 2 0 0 0 "mix" 1 {[1 := 0; 2 := 0; 3 := 0]}
    {[1 := 0; 2 := 0; 3 := 0]} [] 1000000.

(** A mix session of five questions after two correct answers at level 1,
    and after the third. *)
Definition w_five : World := snd (QuizSystem.start_quiz 5 7 "mix" 5 w0).
Definition w_five_1 : World :=
  snd (QuizSystem.submit_answer "session-0" 1 "B" 2 w_five).
Definition w_five_2 : World :=
  snd (QuizSystem.submit_answer "session-0" 1 "b" 2 w_five_1).
Definition w_five_3 : World :=
  snd (QuizSystem.submit_answer "session-0" 1 "B" 2 w_five_2).

Definition s_five_2 : Session :=
  mkSession 5 7 2 5 2 2 0 "mix" 1 {[1 := 2; 2 := 0; 3 := 0]}
    {[1 := 2; 2 := 0; 3 := 0]} [2%Q; 2%Q] 1000000.
Definition s_five_3 : Session :=
  mkSession 5 7 3 5 3 3 0 "mix" 2 {[1 := 3; 2 := 0; 3 := 0]}
    {[1 := 3; 2 := 0; 3 := 0]} [2%Q; 2%Q; 2%Q] 1000000.
Definition r_five_3 : AnswerResponse :=
  mkAnswerResponse true "B" None 1 3 3 5 3 false None.

Definition w_recorder_down : World := failing_from 2 w_started.



Definition final (r : AnswerResponse) : Prop :=
  r_quiz_complete r = true /\ is_Some (r_final_stats r).



Definition stats_first : FinalStats :=
  Eval vm_compute in
    match fst (QuizSystem._calculate_final_stats "session-0" w_first) with
    | Ok st => st
    | Raise _ => mkFinalStats 0 0 0 0 0 0 ∅ 0
    end.

(** A fixed-difficulty session at level 2 on the chapter "Sets", which has
    a single question, of level 1. *)
Definition w_sets : World := snd (QuizSystem.start_quiz 5 8 "2" 3 w0).
Definition s_sets : Session :=
  mkSession 5 8 0 3 0 0 0 "2" 2 {[1 := 0; 2 := 0; 3 := 0]}
    {[1 := 0; 2 := 0; 3 := 0]} [] 1000000.


(** The input the specification calls invalid. *)
Definition invalid_input (mode : string) (total : Z) : Prop :=
  total < 1 \/ 50 < total \/ mode ∉ Bot.valid_difficulties.

(** The message the command sends for it. *)
Definition rejection (mode : string) : BotMessage :=
  if bool_decide (mode ∈ Bot.valid_difficulties)
  then MsgText "Number of questions must be between 1 and 50"
  else MsgText "Difficulty must be 1 (easy), 2 (medium), 3 (hard), or 'mix'".

(** Operations that write neither the live table nor the durable markers. *)
Definition keeps_sessions {A} (m : Eng A) : Prop :=
  forall w r w', m w = (r, w') ->
    active_sessions w' = active_sessions w /\
    active_quizzes (db w') = active_quizzes (db w).

Definition out_rejected : outcome unit * World :=
  Bot.start_quiz 5 "ann" (Some "algebra") "mix" 0 w0.

(** A mix session of ten questions: three correct answers at level 1, then
    three incorrect answers at level 2. *)
Definition run_answers (sid : string) (answers : list (Z * string * Q))
    (w : World) : World :=
  fold_left (fun w a =>
    snd (QuizSystem.submit_answer sid (fst (fst a)) (snd (fst a)) (snd a) w))
    answers w.

Definition w_ten : World := snd (QuizSystem.start_quiz 5 7 "mix" 10 w0).
Definition w_ten_3 : World :=
  run_answers "session-0" [(1, "B", 2%Q); (1, "B", 2%Q); (1, "B", 2%Q)] w_ten.
Definition w_ten_6 : World :=
  run_answers "session-0" [(2, "b", 4%Q); (2, "c", 4%Q); (2, "d", 4%Q)] w_ten_3.

(** The last two answers of the five-question session. *)
Definition w_five_4 : World :=
  snd (QuizSystem.submit_answer "session-0" 2 "A" 12 w_five_3).
Definition out_five_5 : outcome SubmitResult * World :=
  QuizSystem.submit_answer "session-0" 2 "c" 12 w_five_4.

(** * Further definitions: selection policy, tallies, the command, ranks,
    imports, deletions, the leaderboard *)

(** The participant [uid] has never attempted the question [q]. *)
Definition never_attempted (d : Database) (uid : Z) (q : Question) : Prop :=
  user_question_history d !! (uid, question_id q) = None.

(** The candidate set of a selection: the questions of the chapter, at the
    difficulty when one is given. *)
Definition candidate (d : Database) (chapter : Z) (diff : option Z)
    (q : Question) : Prop :=
  In q (questions d) /\ q_chapter_id q = chapter /\
  forall k, diff = Some k -> k <> 0 -> difficulty q = k.


(** The statistics [_calculate_final_stats] computes for a session at time
    [now]. *)
Definition stats_of (session : Session) (now : Z) : FinalStats :=
  let total := current_question session in
  let total_correct := sum_values (correct_by_difficulty session) in
  let accuracy :=
    if 0 <? total then (inject_Z total_correct / inject_Z total * 100)%Q
    else 0%Q in
  let avg_response_time := QuizSystem.avg_response_time_of session in
  let time_bonus := QuizSystem.time_bonus_of avg_response_time in
  mkFinalStats total total_correct (round2 accuracy) (score session + time_bonus)
    time_bonus (round2 avg_response_time) (questions_by_difficulty session)
    ((now - started_at session) # 1000000).

(** The database after the attempt of [uid] on [qid] has been recorded. *)
Definition recorded (d : Database) (uid chapter qid : Z) (ans : string)
    (correct : bool) (rt : Q) (diff points now : Z) : Database :=
  mkDatabase
    (alter (DatabaseManager.update_user_stats points correct rt) uid (users d))
    (chapters d) (questions d)
    (quiz_attempts d ++
       [mkAttempt uid chapter qid ans correct rt diff points now])
    (<[(uid, qid) := now]> (user_question_history d))
    (active_quizzes d).

(** The database after the marker of [sid] has been deleted. *)
Definition unmarked (sid : string) (d : Database) : Database :=
  mkDatabase (users d) (chapters d) (questions d) (quiz_attempts d)
    (user_question_history d) (delete sid (active_quizzes d)).


(** A second sample world: chapter 7 has two questions of level 1. *)
Definition q5 : Question := mkQuestion 5 7 "1+1?" "0" "1" "2" "3" "C" 1 None.

Definition db1 : Database :=
  mkDatabase ∅ [mkChapter 7 "Algebra"; mkChapter 8 "Sets"; mkChapter 9 "Empty"]
    [q1; q2; q3; q4; q5] [] ∅ ∅.

Definition v0 : World :=
  mkWorld ∅ db1 [] ∅ [] 1000000 (fun _ => false) uuid_of 0
    (fun _ qid => qid) (fun n => Z.of_nat n + 100).

Definition v_started : World := snd (QuizSystem.start_quiz 5 7 "mix" 5 v0).
Definition v_first : World :=
  snd (QuizSystem.submit_answer "session-0" 1 "b" 3 v_started).
Definition s_v_first : Session :=
  mkSession 5 7 1 5 1 1 0 "mix" 1 {[1 := 1; 2 := 0; 3 := 0]}
    {[1 := 1; 2 := 0; 3 := 0]} [3%Q] 1000000.
Definition r_v_first : AnswerResponse :=
  mkAnswerResponse true "B" None 1 1 1 5 1 false None.
Definition nq_v : NextQuestion := mkNextQuestion q5 "session-0" 2 5 1.


(** The [questions] table satisfies its CHECK constraint:
    [difficulty IN (1, 2, 3)]. *)
Definition checked (d : Database) : Prop :=
  forall q, In q (questions d) -> 1 <= difficulty q <= 3.

(** The worlds the engine can reach while the [questions] table satisfies
    its CHECK constraint whenever the engine is called. *)
Inductive reachable_checked : World -> Prop :=
  | rc_init w : active_sessions w = ∅ -> reachable_checked w
  | rc_call w c :
      reachable_checked w -> checked (db w) -> reachable_checked (exec c w)
  | rc_env w w' :
      reachable_checked w -> active_sessions w' = active_sessions w ->
      reachable_checked w'.

(** The tallies of a session agree with one another: per level the correct
    answers are among the answers, the answers of the three levels add up
    to the questions answered, there is one response time per question
    answered, and the score is the points of the correct answers. *)
Definition session_tallies (s : Session) : Prop :=
  exists n1 n2 n3 c1 c2 c3,
    questions_by_difficulty s = {[1 := n1; 2 := n2; 3 := n3]} /\
    correct_by_difficulty s = {[1 := c1; 2 := c2; 3 := c3]} /\
    0 <= c1 <= n1 /\ 0 <= c2 <= n2 /\ 0 <= c3 <= n3 /\
    n1 + n2 + n3 = current_question s /\
    Z.of_nat (length (response_times s)) = current_question s /\
    score s = c1 + 2 * c2 + 3 * c3.

(** The difficulty of a session fits its mode: 1, 2 or 3 in mix mode, the
    integer the mode denotes otherwise. *)
Definition difficulty_fits_mode (s : Session) : Prop :=
  if String.eqb (difficulty_mode s) "mix"
  then 1 <= current_difficulty s <= 3
  else int_of_str (difficulty_mode s) = Some (current_difficulty s).

(** One scoring step of a session, whatever its outcome: the update block
    has run on [s], and the adapter may have run after it when the block
    succeeded and the mode is mix. *)
Definition step_session (q : Question) (ans : string) (rt : Q)
    (s s' : Session) : Prop :=
  let correct := String.eqb (lower ans) (lower (correct_option q)) in
  exists points r1 s1,
    points_for q correct points /\
    QuizSystem.update_session_statistics q correct points rt s = (r1, s1) /\
    (s' = s1 \/
     (r1 = Ok tt /\ difficulty_mode s1 = "mix" /\
      exists ra, QuizSystem.adjust_session s1 = (ra, s'))).


Definition stats_five_2 : FinalStats :=
  Eval vm_compute in stats_of s_five_2 1000000.
Definition w_five_2_ended : World := snd (QuizSystem.end_quiz "session-0" w_five_2).

(** The five-question session before and at its last answer. *)
Definition r_five_5 : AnswerResponse :=
  Eval vm_compute in
    match fst out_five_5 with
    | Ok (Answered r) => r
    | _ => r_first
    end.
Definition stats_five_5 : FinalStats :=
  Eval vm_compute in
    match r_final_stats r_five_5 with
    | Some st => st
    | None => mkFinalStats 0 0 0 0 0 0 ∅ 0
    end.


(** The call that closes the session [sid]: [end_quiz] on a live session,
    or the answer that completes the quiz. *)
Definition closes (sid : string) (w w' : World) : Prop :=
  (exists stats, QuizSystem.end_quiz sid w = (Ok (QuizEnded stats), w')) \/
  (exists qid ans rt r,
     QuizSystem.submit_answer sid qid ans rt w = (Ok (Answered r), w') /\
     r_quiz_complete r = true).

(** The row of [quiz_attempts] an answer leaves. *)
Definition attempt_of (s : Session) (q : Question) (ans : string) (rt : Q)
    (r : AnswerResponse) (now : Z) : Attempt :=
  mkAttempt (user_id s) (chapter_id s) (question_id q) ans (r_is_correct r) rt
    (difficulty q) (r_points_earned r) now.


(** A registered participant: the row [add_user] makes, a session, and two
    answers. *)
Definition u_registered : World := snd (DatabaseManager.add_user 5 "ann" v0).
Definition u_started : World := snd (QuizSystem.start_quiz 5 7 "mix" 5 u_registered).
Definition u_first_out : outcome SubmitResult * World :=
  QuizSystem.submit_answer "session-0" 1 "b" 3 u_started.
Definition u_first : World := snd u_first_out.
Definition r_u_first : AnswerResponse :=
  Eval vm_compute in
    match fst u_first_out with
    | Ok (Answered r) => r
    | _ => r_first
    end.
Definition s_u_started : Session :=
  mkSession 5 7 0 5 0 0 0 "mix" 1 {[1 := 0; 2 := 0; 3 := 0]}
    {[1 := 0; 2 := 0; 3 := 0]} [] 1000000.
Definition ann_new : UserRow := mkUserRow "ann" 0 0 0 (Some 0%Q).


(** Operations that leave the chat side of the bot alone: the outbox, the
    tracked messages, the clock and the identifier sources. *)
Definition keeps_chat {A} (m : Eng A) : Prop :=
  forall w r w', m w = (r, w') ->
    outbox w' = outbox w /\
    active_quiz_messages w' = active_quiz_messages w /\
    clock w' = clock w /\
    message_ids w' = message_ids w /\
    uuids w' = uuids w.

Definition no_questions_message : BotMessage :=
  MsgText "No questions available for this chapter!".

(** The command on the sample world: a chapter with questions, and the
    chapter without. *)
Definition out_command : outcome unit * World :=
  Bot.start_quiz 5 "ann" (Some "algebra") "mix" 5 w0.
Definition out_command_empty : outcome unit * World :=
  Bot.start_quiz 5 "ann" (Some "EMPTY") "2" 5 w0.


(** ** config.py: the ranking table; analytics.py: class [RankingSystem] *)

(** [config.RANKING_ROLES], in the order of the dict: rank name, then
    [min_points] and [color]. *)
Definition RANKING_ROLES : list (string * (Z * Z)) :=
  [ ("QA Pleasant", (0, 0xCD7F32));
    ("QA Baron", (100, 0xC0C0C0));
    ("QA Viscount", (300, 0xFFD700));
    ("QA Marquis", (600, 0xE5E4E2));
    ("QA Earl", (1000, 0xB9F2FF));
    ("Quiz Duke", (2000, 0x9932CC));
    ("QA Grand Duke", (5000, 0x6a5acd)) ].

(** The [users] table as the ranking reads and writes it: each row with
    its column [current_rank], and the storage backend, which fails when
    the environment says so. *)
Record UsersDb : Type := mkUsersDb {
  ud_users : gmap Z (UserRow * string);
  ud_ops : nat;                      (* storage operations so far *)
  ud_fails : nat -> bool;            (* does storage operation n fail *)
}.

(** The dict [get_rank_info] returns on success. *)
Record RankInfo : Type := mkRankInfo {
  ri_current_rank : string;
  ri_current_points : Z;
  ri_next_rank : option string;
  ri_points_to_next_rank : option Z;
  ri_rank_color : Z;
}.

(** What [get_rank_info] returns: [{'error': msg}] or the rank dict. *)
Inductive RankResult : Type :=
  | RankError (msg : string)
  | RankOf (info : RankInfo).

Module RankingSystem.

(** One storage operation on the [users] table. *)
Definition users_storage {A}
    (run : gmap Z (UserRow * string) -> A * gmap Z (UserRow * string))
    : M UsersDb A :=
  fun st =>
    if ud_fails st (ud_ops st)
    then (Raise StorageError, mkUsersDb (ud_users st) (S (ud_ops st)) (ud_fails st))
    else let '(a, u) := run (ud_users st) in
         (Ok a, mkUsersDb u (S (ud_ops st)) (ud_fails st)).

(** [self.db.get_user_stats]: SELECT * FROM users WHERE user_id = ?. *)
Definition get_user_stats (uid : Z) : M UsersDb (option (UserRow * string)) :=
  users_storage (fun u => (u !! uid, u)).

(** UPDATE users SET current_rank = ? WHERE user_id = ?. *)
Definition update_current_rank (uid : Z) (new_rank : string) : M UsersDb unit :=
  users_storage (fun u => (tt, alter (fun row => (fst row, new_rank)) uid u)).

(** The loop of [calculate_user_rank] over [config.RANKING_ROLES.items()]. *)
Definition rank_for (points : Z) : string :=
  fold_left (fun new_rank role =>
               let '(rank_name, (min_points, _)) := role in
               if min_points <=? points then rank_name else new_rank)
    RANKING_ROLES "QA Pleasant".

Definition calculate_user_rank (uid : Z) : M UsersDb string :=
  do user_stats <- get_user_stats uid;
  match user_stats with
  | None => ret "QA Pleasant"
  | Some (row, current_rank) =>
      let points := u_total_points row in
      (* Find appropriate rank *)
      let new_rank := rank_for points in
      (* Update rank in database if changed *)
      do_ (if negb (String.eqb new_rank current_rank)
           then update_current_rank uid new_rank else ret tt);
      ret new_rank
  end.

(** [config.RANKING_ROLES[name]]. *)
Definition role {St} (name : string) : M St (Z * Z) :=
  match List.find (fun r => String.eqb (fst r) name) RANKING_ROLES with
  | Some r => ret (snd r)
  | None => raise (KeyErrorStr name)
  end.

(** [l.index(x)], for an [x] that is in [l]. *)
Fixpoint index_of (x : string) (l : list string) : nat :=
  match l with
  | [] => 0
  | y :: l' => if String.eqb y x then 0 else S (index_of x l')
  end.

(** [l[i]]; the [IndexError] of an index out of range is reported as a
    [KeyError] on the index. *)
Definition item {St} (l : list string) (i : nat) : M St string :=
  match l !! i with
  | Some x => ret x
  | None => raise (KeyError (Z.of_nat i))
  end.

Definition get_rank_info (uid : Z) : M UsersDb RankResult :=
  do user_stats <- get_user_stats uid;
  match user_stats with
  | None => ret (RankError "User not found")
  | Some (row, _) =>
      let current_points := u_total_points row in
      do current_rank <- calculate_user_rank uid;
      (* Find next rank *)
      let rank_list := fst <$> RANKING_ROLES in
      let current_rank_index :=
        if bool_decide (current_rank ∈ rank_list)
        then index_of current_rank rank_list else 0%nat in
      do next <-
        (if Z.of_nat current_rank_index <? Z.of_nat (length rank_list) - 1 then
           do next_rank <- item rank_list (current_rank_index + 1);
           do requirements <- role next_rank;
           ret (Some next_rank, Some (fst requirements - current_points))
         else ret (None, None));
      do current <- role current_rank;
      ret (RankOf (mkRankInfo current_rank current_points (fst next) (snd next)
                     (snd current)))
  end.

End RankingSystem.

(** The [min_points] of a rank of the table; 0 for any other name. *)
Definition min_points_of (rank : string) : Z :=
  match List.find (fun r => String.eqb (fst r) rank) RANKING_ROLES with
  | Some r => fst (snd r)
  | None => 0
  end.

(** Two participants of a sample [users] table. *)
Definition users0 : UsersDb :=
  mkUsersDb {[ 5 := (mkUserRow "ann" 250 120 100 None, "QA Pleasant");
               6 := (mkUserRow "bob" 1000 400 350 None, "QA Earl") ]}
    0 (fun _ => false).


(** ** admin_system.py: [import_questions_from_csv]; database.py: [add_question] *)

(** [str.isspace] on an ASCII character. *)
Definition is_whitespace (c : ascii) : bool :=
  let n := N_of_ascii c in
  ((n =? 32) || ((9 <=? n) && (n <=? 13)) || ((28 <=? n) && (n <=? 31)))%N.

Fixpoint strip_left (s : string) : string :=
  match s with
  | String c s' => if is_whitespace c then strip_left s' else s
  | EmptyString => EmptyString
  end.

Fixpoint strip_right (s : string) : string :=
  match s with
  | EmptyString => EmptyString
  | String c s' =>
      match strip_right s' with
      | EmptyString => if is_whitespace c then EmptyString else String c EmptyString
      | r => String c r
      end
  end.

(** [s.strip()]. *)
Definition strip (s : string) : string := strip_right (strip_left s).

Definition upper_ascii (c : ascii) : ascii :=
  let n := N_of_ascii c in
  if ((97 <=? n) && (n <=? 122))%N then ascii_of_N (n - 32) else c.

(** [s.upper()], on the ASCII letters. *)
Fixpoint upper (s : string) : string :=
  match s with
  | EmptyString => EmptyString
  | String c s' => String (upper_ascii c) (upper s')
  end.

(** The database with what an INSERT into [questions] needs besides the
    rows: the AUTOINCREMENT sequence of the table, and the storage
    backend, which fails when the environment says so. *)
Record QuestionStore : Type := mkQuestionStore {
  qs_db : Database;
  qs_sequence : Z;                   (* sqlite_sequence of [questions] *)
  qs_ops : nat;                      (* storage operations so far *)
  qs_fails : nat -> bool;            (* does storage operation n fail *)
}.

(** What went wrong with a row of the import; the text of the message is
    not modelled. *)
Inductive RowError : Type :=
  | MissingOrEmpty (field : string)  (* ValueError: Missing or empty field *)
  | NoSuchKey (field : string)       (* KeyError on row[field] *)
  | NoneValue (field : string)       (* AttributeError: row[field] is None *)
  | NotAnInteger (s : string)        (* ValueError of int() *)
  | BadDifficulty                    (* ValueError: Difficulty must be 1, 2, or 3 *)
  | BadCorrectOption                 (* ValueError: Correct option must be A, B, C, or D *)
  | AddQuestionFailed (e : exn).     (* raised by add_question *)

(** What the import returns: [{'success': True, 'imported_count': n,
    'errors': errors}] with each error as its row number and cause, or
    [{'success': False, 'error': ...}]. *)
Inductive ImportResult : Type :=
  | Imported (imported_count : Z) (errors : list (Z * RowError))
  | ImportFailed.

(** A row as [csv.DictReader] yields it: the columns of the header, with
    [None] for a column the line is too short for. *)
Definition CsvRow : Type := gmap string (option string).

Module AdminSystem.

(** The largest [question_id] of the table. *)
Definition max_question_id (d : Database) : Z :=
  foldr Z.max 0 (question_id <$> questions d).

(** [DatabaseManager.add_question]: INSERT INTO questions (...), with the
    CHECK constraint on [difficulty]; returns [cursor.lastrowid]. *)
Definition add_question (chapter : Z)
    (text a b c d correct : string) (diff : Z) (expl : string)
    : M QuestionStore Z :=
  fun st =>
    let st1 := mkQuestionStore (qs_db st) (qs_sequence st) (S (qs_ops st)) (qs_fails st) in
    if qs_fails st (qs_ops st) then (Raise StorageError, st1)
    else if negb (bool_decide (diff ∈ [1; 2; 3]))
    then (Raise (IntegrityError "CHECK constraint failed: difficulty"), st1)
    else
      let db := qs_db st in
      let qid := Z.max (qs_sequence st) (max_question_id db) + 1 in
      (Ok qid,
       mkQuestionStore
         (mkDatabase (users db) (chapters db)
            (questions db ++ [mkQuestion qid chapter text a b c d correct diff (Some expl)])
            (quiz_attempts db) (user_question_history db) (active_quizzes db))
         qid (S (qs_ops st)) (qs_fails st)).

Definition required_fields : list string :=
  ["question_text"; "option_a"; "option_b"; "option_c"; "option_d";
   "correct_option"; "difficulty"].

(** [row[field]], as a [str] a method is called on. *)
Definition text_of (row : CsvRow) (field : string) : RowError + string :=
  match row !! field with
  | None => inl (NoSuchKey field)
  | Some None => inl (NoneValue field)
  | Some (Some v) => inr v
  end.

(** Validate required fields. *)
Fixpoint check_required (row : CsvRow) (fields : list string) : option RowError :=
  match fields with
  | [] => None
  | field :: fields' =>
      match row !! field with
      | None => Some (MissingOrEmpty field)
      | Some None => Some (NoneValue field)
      | Some (Some v) =>
          match strip v with
          | EmptyString => Some (MissingOrEmpty field)
          | _ => check_required row fields'
          end
      end
  end.

(** The arguments of the [add_question] call for a row: text, the four
    options, the correct option, the difficulty and the explanation. *)
Record QuestionArgs : Type := mkQuestionArgs {
  qa_text : string;
  qa_a : string;
  qa_b : string;
  qa_c : string;
  qa_d : string;
  qa_correct : string;
  qa_difficulty : Z;
  qa_explanation : string;
}.

Definition and_then {A B} (x : RowError + A) (k : A -> RowError + B)
    : RowError + B :=
  match x with
  | inl e => inl e
  | inr a => k a
  end.

(** The body of the [try] of one row, up to the [add_question] call. *)
Definition prepare_row (row : CsvRow) : RowError + QuestionArgs :=
  match check_required row required_fields with
  | Some e => inl e
  | None =>
      (* Validate difficulty *)
      and_then (text_of row "difficulty") (fun difficulty_text =>
      (* int() skips the white space that strip() removes *)
      match int_of_str (strip difficulty_text) with
      | None => inl (NotAnInteger difficulty_text)
      | Some diff =>
          if negb (bool_decide (diff ∈ [1; 2; 3])) then inl BadDifficulty
          else
            (* Validate correct option *)
            and_then (text_of row "correct_option") (fun correct_text =>
            let correct_option := upper correct_text in
            if negb (bool_decide (correct_option ∈ ["A"; "B"; "C"; "D"]))
            then inl BadCorrectOption
            else
              (* Add question *)
              and_then (text_of row "question_text") (fun text =>
              and_then (text_of row "option_a") (fun a =>
              and_then (text_of row "option_b") (fun b =>
              and_then (text_of row "option_c") (fun c =>
              and_then (text_of row "option_d") (fun d =>
              and_then (match row !! "explanation" with
                        | None => inr EmptyString
                        | Some None => inl (NoneValue "explanation")
                        | Some (Some v) => inr v
                        end) (fun expl =>
              inr (mkQuestionArgs (strip text) (strip a) (strip b) (strip c)
                     (strip d) correct_option diff (strip expl)))))))))
      end)
  end.

(** One turn of the loop: the error of the row, if any. *)
Definition import_row (chapter : Z) (row : CsvRow)
    : QuestionStore -> option RowError * QuestionStore :=
  fun st =>
    match prepare_row row with
    | inl e => (Some e, st)
    | inr args =>
        match add_question chapter (qa_text args) (qa_a args) (qa_b args)
                (qa_c args) (qa_d args) (qa_correct args) (qa_difficulty args)
                (qa_explanation args) st with
        | (Ok _, st') => (None, st')
        | (Raise e, st') => (Some (AddQuestionFailed e), st')
        end
    end.

(** [for row_num, row in enumerate(reader, start=2)]. *)
Fixpoint import_rows (chapter : Z) (rows : list CsvRow) (row_num : Z)
    (imported_count : Z) (errors : list (Z * RowError))
    : QuestionStore -> (Z * list (Z * RowError)) * QuestionStore :=
  fun st =>
    match rows with
    | [] => ((imported_count, errors), st)
    | row :: rows' =>
        match import_row chapter row st with
        | (None, st') =>
            import_rows chapter rows' (row_num + 1) (imported_count + 1) errors st'
        | (Some e, st') =>
            import_rows chapter rows' (row_num + 1) imported_count
              (errors ++ [(row_num, e)]) st'
        end
    end.

(** [import_questions_from_csv] on the rows the reader yields; [broken]
    tells whether the reader raises after them. *)
Definition import_questions_from_csv (rows : list CsvRow) (broken : bool)
    (chapter : Z) : QuestionStore -> ImportResult * QuestionStore :=
  fun st =>
    let '((imported_count, errors), st') := import_rows chapter rows 2 0 [] st in
    if broken then (ImportFailed, st')
    else (Imported imported_count errors, st').

End AdminSystem.

(** A sample import: a good row, a row with a bad difficulty, a good row
    with lower-case answer and padded text. *)
Definition csv_row (text a b c d correct diff : string) : CsvRow :=
  {[ "question_text" := Some text; "option_a" := Some a; "option_b" := Some b;
     "option_c" := Some c; "option_d" := Some d; "correct_option" := Some correct;
     "difficulty" := Some diff ]}.

Definition csv_rows : list CsvRow :=
  [ csv_row "5+5?" "10" "11" "12" "13" "A" "1";
    csv_row "6+6?" "10" "11" "12" "13" "C" "4";
    csv_row "  7+7? " "10" "11" "14" "13" "c" " 2 " ].

Definition store0 : QuestionStore := mkQuestionStore db0 4 0 (fun _ => false).

Definition import_out : ImportResult * QuestionStore :=
  AdminSystem.import_questions_from_csv csv_rows false 7 store0.


(** A row of [questions] as the import makes it for the chapter. *)
Definition well_formed (chapter : Z) (q : Question) : Prop :=
  q_chapter_id q = chapter /\
  1 <= difficulty q <= 3 /\
  correct_option q ∈ ["A"; "B"; "C"; "D"] /\
  question_text q <> EmptyString /\
  option_a q <> EmptyString /\ option_b q <> EmptyString /\
  option_c q <> EmptyString /\ option_d q <> EmptyString /\
  is_Some (explanation q).

(** The largest [question_id] the table has ever held. *)
Definition top_question_id (st : QuestionStore) : Z :=
  Z.max (qs_sequence st) (AdminSystem.max_question_id (qs_db st)).

(** The tables an import does not write. *)
Definition same_but_questions (d d' : Database) : Prop :=
  users d' = users d /\ chapters d' = chapters d /\
  quiz_attempts d' = quiz_attempts d /\
  user_question_history d' = user_question_history d /\
  active_quizzes d' = active_quizzes d.


(** ** analytics.py: [AnalyticsSystem._generate_suggestions] *)

(** A row of [get_user_chapter_performance]: [accuracy] is a fraction. *)
Record ChapterPerformance : Type := mkChapterPerformance {
  cp_chapter_name : string;
  cp_total_attempts : Z;
  cp_correct_answers : Z;
  cp_avg_response_time : Q;
  cp_accuracy : Q;
}.

Module AnalyticsSystem.

(** [sep.join(l)]. *)
Fixpoint join (sep : string) (l : list string) : string :=
  match l with
  | [] => EmptyString
  | [x] => x
  | x :: l' => String.append x (String.append sep (join sep l'))
  end.

Definition focus_message : string :=
  "Focus on understanding fundamental concepts before attempting quizzes".
Definition practice_message : string :=
  "Practice quick recall for better response times".
Definition great_message : string :=
  "Great job! Keep practicing to maintain your performance".
Definition review_message (weak_chapters : list ChapterPerformance) : string :=
  String.append "Review these challenging chapters: "
    (join ", " (cp_chapter_name <$> take 3 weak_chapters)).

Definition is_weak (ch : ChapterPerformance) : bool := Qltb (cp_accuracy ch) (1 # 2).
Definition is_slow (ch : ChapterPerformance) : bool :=
  Qltb 20 (cp_avg_response_time ch).

(** [overall_accuracy] is a percentage. *)
Definition _generate_suggestions (chapter_performance : list ChapterPerformance)
    (overall_accuracy : Q) : list string :=
  let suggestions := [] in
  let suggestions :=
    if Qltb overall_accuracy 60 then suggestions ++ [focus_message]
    else suggestions in
  let suggestions :=
    match chapter_performance with
    | [] => suggestions
    | _ =>
        (* Find chapters with low accuracy *)
        let weak_chapters := List.filter is_weak chapter_performance in
        let suggestions :=
          match weak_chapters with
          | [] => suggestions
          | _ => suggestions ++ [review_message weak_chapters]
          end in
        (* Find chapters with slow response times *)
        let slow_chapters := List.filter is_slow chapter_performance in
        match slow_chapters with
        | [] => suggestions
        | _ => suggestions ++ [practice_message]
        end
    end in
  match suggestions with
  | [] => [great_message]
  | _ => suggestions
  end.

End AnalyticsSystem.

Definition performance0 : list ChapterPerformance :=
  [ mkChapterPerformance "Algebra" 4 1 (25 # 1) (1 # 4);
    mkChapterPerformance "Sets" 3 3 (5 # 1) 1 ].


(** The order of [ORDER BY name]. *)
Definition name_le (a b : Chapter) : Prop := String.leb (c_name a) (c_name b) = true.

Definition chapters_listed : list Chapter :=
  Eval vm_compute in
    match fst (DatabaseManager.get_chapters w0) with
    | Ok chs => chs
    | Raise _ => []
    end.


(** ** admin_system.py: [bulk_manage_questions], on SQLite *)

(** What [bulk_manage_questions] returns: success with [affected_count],
    the error for an invalid action, or the error of the [except]. *)
Inductive BulkResult : Type :=
  | BulkDeleted (affected_count : Z)
  | BulkInvalid
  | BulkDatabaseError.

Module AdminSystemBulk.

(** WHERE question_id IN (...) AND chapter_id = ?. *)
Definition listed_in_chapter (chapter : Z) (question_ids : list Z)
    (q : Question) : bool :=
  bool_decide (question_id q ∈ question_ids) && (q_chapter_id q =? chapter).

(** WHERE chapter_id = ?. *)
Definition in_chapter (chapter : Z) (q : Question) : bool :=
  q_chapter_id q =? chapter.

(** DELETE FROM questions WHERE ..., with [db.total_changes]. *)
Definition delete_where (gone : Question -> bool) (st : QuestionStore)
    : BulkResult * QuestionStore :=
  let db := qs_db st in
  (BulkDeleted (Z.of_nat (length (List.filter gone (questions db)))),
   mkQuestionStore
     (mkDatabase (users db) (chapters db)
        (List.filter (fun q => negb (gone q)) (questions db))
        (quiz_attempts db) (user_question_history db) (active_quizzes db))
     (qs_sequence st) (S (qs_ops st)) (qs_fails st)).

(** The SQLite branch; whatever the connection raises is caught. *)
Definition bulk_manage_questions (chapter : Z) (action : string)
    (question_ids : option (list Z))
    : QuestionStore -> BulkResult * QuestionStore :=
  fun st =>
    let st1 := mkQuestionStore (qs_db st) (qs_sequence st) (S (qs_ops st)) (qs_fails st) in
    if qs_fails st (qs_ops st) then (BulkDatabaseError, st1)
    else
      let given := match question_ids with Some (_ :: _) => true | _ => false end in
      if String.eqb action "delete" && given then
        (* Delete specified questions *)
        delete_where (listed_in_chapter chapter (default [] question_ids)) st
      else if String.eqb action "delete_all" then
        (* Delete all questions in chapter *)
        delete_where (in_chapter chapter) st
      else (BulkInvalid, st1).

End AdminSystemBulk.

(** The AUTOINCREMENT sequence has kept up with the table. *)
Definition in_step (st : QuestionStore) : Prop :=
  AdminSystem.max_question_id (qs_db st) <= qs_sequence st.

Definition store_pruned : QuestionStore :=
  snd (AdminSystemBulk.bulk_manage_questions 7 "delete" (Some [3; 4]) store0).


Definition w_pruned : World :=
  mkWorld (active_sessions w_five) (qs_db store_pruned) [] ∅ [] 1000000
    (fun _ => false) uuid_of 1 (fun _ qid => qid) (fun n => Z.of_nat n + 100).

Definition store_refilled : QuestionStore :=
  snd (AdminSystem.import_questions_from_csv csv_rows false 7 store_pruned).


(** ** database.py: [get_leaderboard], all-time *)

(** A row of the all-time leaderboard. *)
Record LeaderboardEntry : Type := mkLeaderboardEntry {
  lb_username : string;
  lb_points : Z;
  lb_questions_answered : Z;
  lb_accuracy : Q;
}.

Module Leaderboard.

(** SQL [ROUND(x, 2)]: to the nearest hundredth, ties away from zero. *)
Definition sql_round2 (x : Q) : Q :=
  let y := (x * 100)%Q in
  let n := if Qle_bool 0 y then Qfloor (y + (1 # 2)) else - Qfloor (- y + (1 # 2)) in
  (inject_Z n / 100)%Q.

(** The SELECT list. *)
Definition entry_of (u : UserRow) : LeaderboardEntry :=
  mkLeaderboardEntry (u_username u) (u_total_points u) (u_total_questions u)
    (sql_round2 (inject_Z (u_correct_answers u) / inject_Z (u_total_questions u) * 100)).

(** ORDER BY total_points DESC, accuracy DESC: [a] may stand before [b]. *)
Definition before (a b : LeaderboardEntry) : bool :=
  (lb_points b <? lb_points a) ||
  ((lb_points a =? lb_points b) && Qle_bool (lb_accuracy b) (lb_accuracy a)).

Fixpoint insert_entry (e : LeaderboardEntry) (l : list LeaderboardEntry)
    : list LeaderboardEntry :=
  match l with
  | [] => [e]
  | e' :: l' => if before e e' then e :: l else e' :: insert_entry e l'
  end.

(** LIMIT ?: a negative limit is no limit. *)
Definition limit_rows {A} (limit : Z) (l : list A) : list A :=
  if limit <? 0 then l else take (Z.to_nat limit) l.

(** The rows WHERE total_questions > 0. *)
Definition eligible (users : gmap Z (UserRow * string)) : list UserRow :=
  List.filter (fun u => 0 <? u_total_questions u)
    ((fun kv => fst (snd kv)) <$> map_to_list users).

(** [get_leaderboard] for a timeframe other than 'daily' and 'monthly'. *)
Definition get_leaderboard (limit : Z) : M UsersDb (list LeaderboardEntry) :=
  RankingSystem.users_storage (fun users =>
    (limit_rows limit (foldr insert_entry [] (entry_of <$> eligible users)), users)).

End Leaderboard.

(** [a] stands before [b] in the order of the leaderboard. *)
Definition ranks_before (a b : LeaderboardEntry) : Prop :=
  lb_points b < lb_points a \/
  (lb_points a = lb_points b /\ (lb_accuracy b <= lb_accuracy a)%Q).

Definition users1 : UsersDb :=
  mkUsersDb {[ 5 := (mkUserRow "ann" 250 120 100 None, "QA Baron");
               6 := (mkUserRow "bob" 1000 400 350 None, "QA Earl");
               7 := (mkUserRow "cy" 0 0 0 (Some 0%Q), "QA Pleasant");
               8 := (mkUserRow "di" 250 100 90 None, "QA Baron") ]}
    0 (fun _ => false).

Definition board1 : list LeaderboardEntry :=
  Eval vm_compute in
    match fst (Leaderboard.get_leaderboard 2 users1) with
    | Ok l => l
    | Raise _ => []
    end.


(** Two chapters whose names differ in case only. *)
Definition db_twins : Database :=
  mkDatabase ∅ [mkChapter 1 "algebra"; mkChapter 2 "Algebra"]
    [mkQuestion 1 1 "x?" "1" "2" "3" "4" "A" 1 None;
     mkQuestion 2 2 "X?" "1" "2" "3" "4" "B" 1 None] [] ∅ ∅.

Definition w_twins : World :=
  mkWorld ∅ db_twins [] ∅ [] 1000000 (fun _ => false) uuid_of 0
    (fun _ qid => qid) (fun n => Z.of_nat n + 100).

Definition out_twins : outcome unit * World :=
  Bot.start_quiz 5 "ann" (Some "algebra") "mix" 5 w_twins.


(** A second participant joins while the first is at question three. *)
Definition w_two : World := snd (QuizSystem.start_quiz 6 8 "2" 3 w_five_2).

(** The session a call is about: the one named, or the one [start_quiz]
    is about to create. *)
Definition target (c : Call) (w : World) : string :=
  match c with
  | CallStart _ _ _ _ => uuids w (uuid_calls w)
  | CallNext sid | CallEnd sid | CallInfo sid => sid
  | CallSubmit sid _ _ _ => sid
  end.

(** * Properties *)

(** ** Case-insensitive equality *)

Lemma is_upper_spec (c : ascii) :
  is_upper c = true <-> (65 <= N_of_ascii c <= 90)%N.
Proof.
  unfold is_upper. cbn zeta.
  rewrite andb_true_iff. rewrite !N.leb_le. done.
Qed.

Lemma N_of_lower_ascii (c : ascii) :
  N_of_ascii (lower_ascii c) =
  (if is_upper c then N_of_ascii c + 32 else N_of_ascii c)%N.
Proof.
  unfold lower_ascii.
  destruct (is_upper c) eqn:E; [|done].
  apply is_upper_spec in E.
  apply N_ascii_embedding. lia.
Qed.

Lemma lower_ascii_eq_iff (a b : ascii) :
  lower_ascii a = lower_ascii b <-> same_letter a b.
Proof.
  unfold same_letter. cbn zeta.
  pose proof (is_upper_spec a) as Ha. pose proof (is_upper_spec b) as Hb.
  split.
  - intros H. apply (f_equal N_of_ascii) in H.
    rewrite !N_of_lower_ascii in H.
    destruct (is_upper a); destruct (is_upper b);
      try (assert (~ (65 <= N_of_ascii a <= 90)%N) by (rewrite <- Ha; done));
      try (assert (~ (65 <= N_of_ascii b <= 90)%N) by (rewrite <- Hb; done));
      try (assert (65 <= N_of_ascii a <= 90)%N by (by apply Ha));
      try (assert (65 <= N_of_ascii b <= 90)%N by (by apply Hb));
      lia.
  - intros H.
    rewrite <- (ascii_N_embedding (lower_ascii a)),
            <- (ascii_N_embedding (lower_ascii b)).
    f_equal. rewrite !N_of_lower_ascii.
    destruct (is_upper a); destruct (is_upper b);
      try (assert (~ (65 <= N_of_ascii a <= 90)%N) by (rewrite <- Ha; done));
      try (assert (~ (65 <= N_of_ascii b <= 90)%N) by (rewrite <- Hb; done));
      try (assert (65 <= N_of_ascii a <= 90)%N by (by apply Ha));
      try (assert (65 <= N_of_ascii b <= 90)%N by (by apply Hb));
      lia.
Qed.

Lemma lower_eq_iff (s t : string) :
  lower s = lower t <-> same_ignoring_case s t.
Proof.
  split.
  - revert t. induction s as [|a s IH]; intros [|b t] H; cbn in H;
      try discriminate; [constructor|].
    injection H as Hc Hs. constructor; [by apply lower_ascii_eq_iff | by apply IH].
  - induction 1 as [|a b s t Hab _ IH]; [done|].
    cbn. f_equal; [by apply lower_ascii_eq_iff | done].
Qed.

(** ** The state changes of one answer *)

(** The update block succeeds exactly when the tallies have the question's
    difficulty as a key, and then produces [answered]. *)
Lemma update_session_statistics_Ok (q : Question) (correct : bool)
    (points : Z) (rt : Q) (s s' : Session) :
  QuizSystem.update_session_statistics q correct points rt s = (Ok tt, s') <->
  is_Some (questions_by_difficulty s !! difficulty q) /\
  (correct = true -> is_Some (correct_by_difficulty s !! difficulty q)) /\
  s' = answered q correct points rt s.
Proof.
  unfold QuizSystem.update_session_statistics, answered, bump, subscript,
    bind, ret, raise, get, modify.
  destruct s; cbn.
  destruct (questions_by_difficulty0 !! difficulty q) eqn:E1; cbn;
    destruct correct; cbn;
    try destruct (correct_by_difficulty0 !! difficulty q) eqn:E2; cbn;
    split; try (intros [[? ?] [? ?]]); try intros ?; simplify_eq;
    try done; try (split_and!; eauto; done).
  all: try (match goal with H : true = true -> is_Some None |- _ =>
              destruct (H eq_refl); discriminate end).
Qed.

(** ** Session invariants *)

Lemma is_Some_insert_keep (d : gmap Z Z) (k j v : Z) :
  is_Some (d !! j) -> is_Some (<[k := v]> d !! j).
Proof.
  intros H. destruct (decide (k = j)) as [->|Hne].
  - rewrite lookup_insert_eq. eauto.
  - by rewrite lookup_insert_ne.
Qed.

Lemma insert_count_le (d : gmap Z Z) (k n bound : Z) :
  d !! k = Some n ->
  (forall j m, d !! j = Some m -> m <= bound) ->
  forall j m, <[k := n + 1]> d !! j = Some m -> m <= bound + 1.
Proof.
  intros Hk Hle j m. destruct (decide (k = j)) as [->|Hne].
  - rewrite lookup_insert_eq. intros [= <-]. specialize (Hle _ _ Hk). lia.
  - rewrite lookup_insert_ne by done. intros Hj. specialize (Hle _ _ Hj). lia.
Qed.

Lemma update_session_statistics_ok (q : Question) (correct : bool)
    (points : Z) (rt : Q) :
  session_op_ok (QuizSystem.update_session_statistics q correct points rt).
Proof.
  intros s r s' [Hk Hc Hle Hmix Hst].
  unfold QuizSystem.update_session_statistics, subscript,
    bind, ret, raise, get, modify.
  destruct s; cbn in *.
  destruct (questions_by_difficulty0 !! difficulty q) eqn:E1; cbn;
    destruct correct; cbn;
    try destruct (correct_by_difficulty0 !! difficulty q) eqn:E2; cbn;
    intros ?; simplify_eq; constructor; cbn;
    eauto using is_Some_insert_keep, insert_count_le.
  all: try (intros k n Hn; specialize (Hle k n Hn); lia).
Qed.

Lemma adjust_session_ok : session_op_ok QuizSystem.adjust_session.
Proof.
  intros s r s' [Hk Hc Hle Hmix Hst].
  unfold QuizSystem.adjust_session, subscript, bind, ret, raise, get, modify.
  destruct s; cbn in *.
  repeat (case_match; cbn); intros ?; simplify_eq; try (by constructor).
  all: constructor; cbn; try done; intros Hm; specialize (Hmix Hm); lia.
Qed.

Lemma preserves_bind {A B} (m : Eng A) (k : A -> Eng B) :
  preserves m -> (forall a, preserves (k a)) -> preserves (bind m k).
Proof.
  intros Hm Hk w r w' HI. unfold bind.
  destruct (m w) as [[a|e] w1] eqn:E.
  - intros H. exact (Hk a w1 r w' (Hm _ _ _ HI E) H).
  - intros [= <- <-]. exact (Hm _ _ _ HI E).
Qed.

Lemma preserves_ret {A} (a : A) : preserves (ret a).
Proof. intros w r w' HI [= <- <-]. done. Qed.

Lemma preserves_raise {A} (e : exn) : preserves (@raise World A e).
Proof. intros w r w' HI [= <- <-]. done. Qed.

Lemma preserves_get : preserves (@get World).
Proof. intros w r w' HI [= <- <-]. done. Qed.

Lemma preserves_storage {A} (op : DbOp)
    (run : World -> Database -> outcome A * Database) :
  preserves (storage op run).
Proof.
  intros w r w' HI. unfold storage.
  destruct (db_fails w (length (db_log w))).
  - intros [= <- <-]. done.
  - destruct (run w (db w)). intros [= <- <-]. done.
Qed.

Lemma preserves_the_session (sid : string) : preserves (the_session sid).
Proof.
  intros w r w' HI. unfold the_session.
  destruct (active_sessions w !! sid); intros [= <- <-]; done.
Qed.

Lemma preserves_with_session {A} (sid : string) (m : M Session A) :
  session_op_ok m -> preserves (with_session sid m).
Proof.
  intros Hm w r w' HI. unfold with_session.
  destruct (active_sessions w !! sid) as [s|] eqn:E.
  - destruct (m s) as [r0 s1] eqn:Em. intros [= <- <-].
    intros sid0 s0. cbn. destruct (decide (sid = sid0)) as [->|Hne].
    + rewrite lookup_insert_eq. intros [= <-]. eapply Hm; eauto.
    + rewrite lookup_insert_ne by done. apply HI.
  - intros [= <- <-]. done.
Qed.

Lemma preserves_delete (sid : string) :
  preserves (modify (fun w => set_active_sessions (delete sid (active_sessions w)) w)).
Proof.
  intros w r w' HI [= <- <-]. intros sid0 s0. cbn.
  intros H. apply lookup_delete_Some in H as [_ H]. by eapply HI.
Qed.

Lemma preserves_subscript (d : gmap Z Z) (k : Z) :
  preserves (@subscript World d k).
Proof.
  unfold subscript. destruct (d !! k); [apply preserves_ret | apply preserves_raise].
Qed.

Create HintDb pres discriminated.
#[local] Hint Resolve preserves_ret preserves_raise preserves_get
  preserves_storage preserves_the_session preserves_delete : pres.

Ltac pres_step :=
  first
    [ apply preserves_bind; [| intro]
    | apply preserves_with_session
    | progress eauto with pres
    | case_match ].

Lemma preserves_cleanup_session (sid : string) :
  preserves (QuizSystem._cleanup_session sid).
Proof. unfold QuizSystem._cleanup_session. repeat pres_step. Qed.

Lemma preserves_calculate_final_stats (sid : string) :
  preserves (QuizSystem._calculate_final_stats sid).
Proof.
  unfold QuizSystem._calculate_final_stats.
  repeat first [ apply preserves_cleanup_session | pres_step ].
Qed.

Lemma preserves_adjust_difficulty (sid : string) :
  preserves (QuizSystem._adjust_difficulty sid).
Proof.
  unfold QuizSystem._adjust_difficulty.
  apply preserves_with_session, adjust_session_ok.
Qed.

Lemma preserves_submit_answer (sid : string) (qid : Z) (ans : string) (rt : Q) :
  preserves (QuizSystem.submit_answer sid qid ans rt).
Proof.
  unfold QuizSystem.submit_answer, DatabaseManager.record_quiz_attempt.
  repeat first
    [ apply preserves_calculate_final_stats
    | apply preserves_adjust_difficulty
    | apply update_session_statistics_ok
    | apply preserves_subscript
    | pres_step ].
Qed.

Lemma preserves_get_next_question (sid : string) :
  preserves (QuizSystem.get_next_question sid).
Proof.
  unfold QuizSystem.get_next_question, DatabaseManager.get_next_question.
  repeat pres_step.
Qed.

Lemma preserves_end_quiz (sid : string) : preserves (QuizSystem.end_quiz sid).
Proof.
  unfold QuizSystem.end_quiz.
  repeat first [ apply preserves_calculate_final_stats | pres_step ].
Qed.

Lemma preserves_get_session_info (sid : string) :
  preserves (QuizSystem.get_session_info sid).
Proof. unfold QuizSystem.get_session_info. repeat pres_step. Qed.

Lemma fresh_session_ok (uid chapter total cur : Z) (mode : string) (now : Z) :
  (mode = "mix" -> cur = 1) ->
  session_ok (mkSession uid chapter 0 total 0 0 0 mode cur
                {[1 := 0; 2 := 0; 3 := 0]} {[1 := 0; 2 := 0; 3 := 0]} [] now).
Proof.
  intros Hcur. constructor; cbn.
  - intros k Hk. assert (k = 1 \/ k = 2 \/ k = 3) as [-> | [-> | ->]] by lia; eauto.
  - intros k Hk. assert (k = 1 \/ k = 2 \/ k = 3) as [-> | [-> | ->]] by lia; eauto.
  - intros k n H.
    destruct (decide (k = 1)) as [->|]; [by simplify_map_eq|].
    destruct (decide (k = 2)) as [->|]; [by simplify_map_eq|].
    destruct (decide (k = 3)) as [->|]; [by simplify_map_eq|].
    by simplify_map_eq.
  - intros Hm. specialize (Hcur Hm). lia.
  - by left.
Qed.

Lemma preserves_start_quiz (uid chapter : Z) (mode : string) (total : Z) :
  preserves (QuizSystem.start_quiz uid chapter mode total).
Proof.
  intros w r w' HI.
  unfold QuizSystem.start_quiz, storage, bind, ret, raise, get, modify. cbn.
  destruct (String.eqb mode "mix") eqn:Em; cbn.
  - apply String.eqb_eq in Em.
    repeat (case_match; cbn); intros ?; simplify_eq; try done.
    intros sid0 s0. cbn. destruct (decide (uuids w (uuid_calls w) = sid0)) as [<-|Hne].
    + rewrite lookup_insert_eq. intros [= <-]. by apply fresh_session_ok.
    + rewrite lookup_insert_ne by done. apply HI.
  - apply String.eqb_neq in Em.
    repeat (case_match; cbn); intros ?; simplify_eq; try done.
    intros sid0 s0. cbn. destruct (decide (uuids w (uuid_calls w) = sid0)) as [<-|Hne].
    + rewrite lookup_insert_eq. intros [= <-]. by apply fresh_session_ok.
    + rewrite lookup_insert_ne by done. apply HI.
Qed.

(** ** Reachable worlds *)

Lemma reachable_Inv (w : World) : reachable w -> Inv w.
Proof.
  induction 1 as [w H | w c _ IH | w w' _ IH Heq].
  - intros sid s. rewrite H. by rewrite lookup_empty.
  - destruct c; cbv beta iota delta [exec].
    + destruct (QuizSystem.start_quiz uid chapter mode total w) eqn:E.
      cbn. exact (preserves_start_quiz _ _ _ _ _ _ _ IH E).
    + destruct (QuizSystem.get_next_question sid w) eqn:E.
      cbn. exact (preserves_get_next_question sid w _ _ IH E).
    + destruct (QuizSystem.submit_answer sid qid answer rt w) eqn:E.
      cbn. exact (preserves_submit_answer sid qid answer rt w _ _ IH E).
    + destruct (QuizSystem.end_quiz sid w) eqn:E.
      cbn. exact (preserves_end_quiz sid w _ _ IH E).
    + destruct (QuizSystem.get_session_info sid w) eqn:E.
      cbn. exact (preserves_get_session_info sid w _ _ IH E).
  - intros sid s. rewrite Heq. apply IH.
Qed.

(** ** The difficulty adapter *)

Lemma adjust_session_spec (s : Session) (n c : Z) :
  questions_by_difficulty s !! current_difficulty s = Some n ->
  correct_by_difficulty s !! current_difficulty s = Some c ->
  n <= current_question s ->
  QuizSystem.adjust_session s =
    (Ok tt, set_current_difficulty
              (adapted_difficulty (current_difficulty s) n c) s).
Proof.
  intros Hn Hc Hle.
  unfold QuizSystem.adjust_session, adapted_difficulty, subscript,
    bind, ret, raise, get, modify,
    DIFFICULTY_THRESHOLD_UP, DIFFICULTY_THRESHOLD_DOWN.
  destruct s; cbn in *. rewrite Hn, Hc. cbn.
  destruct (Z.min 5 current_question0 <? 3) eqn:Ew.
  - apply Z.ltb_lt in Ew.
    assert ((n <? 3) = true) as -> by (apply Z.ltb_lt; lia).
    assert ((3 <=? n) = false) as Hf by (apply Z.leb_gt; lia). done.
  - destruct (3 <=? n) eqn:E3.
    + apply Z.leb_le in E3.
      assert ((n <? 3) = false) as -> by (apply Z.ltb_ge; lia).
      destruct (Qle_bool (8 # 10) (inject_Z c / inject_Z n) &&
                (current_difficulty0 <? 3)) eqn:Eup.
      * apply andb_prop in Eup as [_ Hlt]. apply Z.ltb_lt in Hlt.
        cbn. do 2 f_equal. lia.
      * destruct (Qle_bool (inject_Z c / inject_Z n) (4 # 10) &&
                  (1 <? current_difficulty0)) eqn:Edn; [|done].
        apply andb_prop in Edn as [_ Hlt]. apply Z.ltb_lt in Hlt.
        cbn. do 2 f_equal. lia.
    + apply Z.leb_gt in E3.
      assert ((n <? 3) = true) as -> by (apply Z.ltb_lt; lia). done.
Qed.

(** ** What a call of [submit_answer] does *)

(** Inversion of a successful run, operation by operation. *)
Lemma bind_Ok {St A B} (m : M St A) (k : A -> M St B) (s s' : St) (b : B) :
  bind m k s = (Ok b, s') ->
  exists a s1, m s = (Ok a, s1) /\ k a s1 = (Ok b, s').
Proof.
  unfold bind. destruct (m s) as [[a|e] s1]; [eauto | discriminate].
Qed.

Lemma storage_Ok {A} (op : DbOp) (run : World -> Database -> outcome A * Database)
    (w w' : World) (a : A) :
  storage op run w = (Ok a, w') ->
  db_fails w (length (db_log w)) = false /\
  exists d, run w (db w) = (Ok a, d) /\
            w' = set_db d (set_db_log (db_log w ++ [op]) w).
Proof.
  unfold storage. destruct (db_fails w (length (db_log w))); [discriminate|].
  destruct (run w (db w)) as [r d]. intros [= -> <-]. eauto.
Qed.

Lemma with_session_Ok {A} (sid : string) (m : M Session A) (w w' : World) (a : A) :
  with_session sid m w = (Ok a, w') ->
  exists s s', active_sessions w !! sid = Some s /\ m s = (Ok a, s') /\
               w' = set_active_sessions (<[sid := s']> (active_sessions w)) w.
Proof.
  unfold with_session. destruct (active_sessions w !! sid) as [s|]; [|discriminate].
  destruct (m s) as [r s'] eqn:E. intros [= -> <-].
  exists s, s'. done.
Qed.

Lemma the_session_Ok (sid : string) (w w' : World) (s : Session) :
  the_session sid w = (Ok s, w') ->
  active_sessions w !! sid = Some s /\ w' = w.
Proof.
  unfold the_session. destruct (active_sessions w !! sid); [|discriminate].
  intros [= -> <-]. done.
Qed.

Lemma cleanup_session_Ok (sid : string) (w w' : World) (u : unit) :
  QuizSystem._cleanup_session sid w = (Ok u, w') ->
  active_sessions w' = delete sid (active_sessions w) /\
  active_quizzes (db w') = delete sid (active_quizzes (db w)) /\
  quiz_attempts (db w') = quiz_attempts (db w) /\
  questions (db w') = questions (db w).
Proof.
  unfold QuizSystem._cleanup_session. intros H.
  apply bind_Ok in H as (? & w1 & H1 & H). injection H1 as <- <-.
  apply storage_Ok in H as (_ & d & Hd & ->). destruct u.
  injection Hd as <-. cbn. done.
Qed.

Lemma calculate_final_stats_Ok (sid : string) (w w' : World) (stats : FinalStats) :
  QuizSystem._calculate_final_stats sid w = (Ok stats, w') ->
  exists s,
    active_sessions w !! sid = Some s /\
    fs_time_bonus stats = QuizSystem.time_bonus_of (QuizSystem.avg_response_time_of s) /\
    fs_final_score stats = score s + fs_time_bonus stats /\
    fs_total_questions stats = current_question s /\
    active_sessions w' = delete sid (active_sessions w) /\
    active_quizzes (db w') = delete sid (active_quizzes (db w)) /\
    quiz_attempts (db w') = quiz_attempts (db w) /\
    questions (db w') = questions (db w).
Proof.
  unfold QuizSystem._calculate_final_stats. intros H.
  apply bind_Ok in H as (s & w1 & H1 & H).
  apply the_session_Ok in H1 as [Hs ->].
  apply bind_Ok in H as (w0 & w1 & H1 & H). injection H1 as <- <-.
  apply bind_Ok in H as (u & w1 & H1 & H). injection H as <- <-.
  apply cleanup_session_Ok in H1 as (? & ? & ? & ?).
  exists s. cbn. done.
Qed.

Lemma submit_answer_Answered (sid : string) (qid : Z) (ans : string) (rt : Q)
    (w w' : World) (r : AnswerResponse) :
  QuizSystem.submit_answer sid qid ans rt w = (Ok (Answered r), w') ->
  exists s q points s2,
    let correct := String.eqb (lower ans) (lower (correct_option q)) in
    active_sessions w !! sid = Some s /\
    List.find (fun q => question_id q =? qid) (questions (db w)) = Some q /\
    points_for q correct points /\
    is_Some (questions_by_difficulty s !! difficulty q) /\
    (correct = true -> is_Some (correct_by_difficulty s !! difficulty q)) /\
    adapted (answered q correct points rt s) s2 /\
    r_is_correct r = correct /\
    r_correct_answer r = correct_option q /\
    r_explanation r = explanation q /\
    r_points_earned r = points /\
    r_current_score r = score s2 /\
    r_question_number r = current_question s2 /\
    r_total_questions r = total_questions s2 /\
    r_streak r = correct_streak s2 /\
    quiz_attempts (db w') =
      quiz_attempts (db w) ++
        [mkAttempt (user_id s) (chapter_id s) qid ans correct rt
           (difficulty q) points (clock w)] /\
    if total_questions s2 <=? current_question s2 then
      r_quiz_complete r = true /\ is_Some (r_final_stats r) /\
      active_sessions w' = delete sid (active_sessions w) /\
      active_quizzes (db w') = delete sid (active_quizzes (db w))
    else
      r_quiz_complete r = false /\ r_final_stats r = None /\
      active_sessions w' = <[sid := s2]> (active_sessions w) /\
      active_quizzes (db w') = active_quizzes (db w).
Proof.
  intros H. unfold QuizSystem.submit_answer in H.
  apply bind_Ok in H as (w0 & w1 & H1 & H). injection H1 as <- <-.
  destruct (active_sessions w !! sid) as [s|] eqn:Es; [|discriminate].
  apply bind_Ok in H as (oq & w1 & H1 & H).
  apply storage_Ok in H1 as (Hf1 & d & Hd & ->). injection Hd as <- <-.
  destruct (find (fun q => question_id q =? qid) (questions (db w)))
    as [q|] eqn:Eq; [|discriminate].
  set (correct := String.eqb (lower ans) (lower (correct_option q))) in *.
  apply bind_Ok in H as (points & w1 & Hp & H).
  assert (points_for q correct points /\
          w1 = set_db (db w) (set_db_log (db_log w ++ [OpSelectQuestion qid]) w))
    as [Hpts ->].
  { unfold points_for. destruct correct.
    - unfold subscript in Hp. destruct (QuizSystem.points_map !! difficulty q);
        [|discriminate]. by injection Hp as -> <-.
    - by injection Hp as <- <-. }
  apply bind_Ok in H as (u & w1 & H1 & H).
  apply with_session_Ok in H1 as (s0 & s1 & Hs0 & Hupd & ->).
  cbn in Hs0. rewrite Es in Hs0. injection Hs0 as <-. destruct u.
  apply update_session_statistics_Ok in Hupd as (Hk1 & Hk2 & ->).
  apply bind_Ok in H as (s1 & w1 & H1 & H).
  apply the_session_Ok in H1 as [Hs1 ->]. cbn in Hs1.
  rewrite lookup_insert_eq in Hs1. injection Hs1 as <-.
  apply bind_Ok in H as (u & w1 & H1 & H).
  unfold DatabaseManager.record_quiz_attempt in H1.
  apply storage_Ok in H1 as (Hf2 & d & Hd & ->). injection Hd as <-.
  cbn in H.
  apply bind_Ok in H as (u' & w1 & Hadj & H).
  apply bind_Ok in H as (s2 & w2 & H1 & H).
  apply the_session_Ok in H1 as [Hs2 ->].
  exists s, q, points, s2.
  assert (adapted (answered q correct points rt s) s2 /\
          active_sessions w1 = <[sid := s2]> (active_sessions w) /\
          db w1 = mkDatabase
            (alter (DatabaseManager.update_user_stats points correct rt)
               (user_id s) (users (db w)))
            (chapters (db w)) (questions (db w))
            (quiz_attempts (db w) ++
               [mkAttempt (user_id s) (chapter_id s) qid ans correct rt
                  (difficulty q) points (clock w)])
            (<[(user_id s, qid) := clock w]> (user_question_history (db w)))
            (active_quizzes (db w))) as (Had & Hw1 & Hdb1).
  { unfold adapted. cbn.
    destruct (String.eqb (difficulty_mode s) "mix").
    - unfold QuizSystem._adjust_difficulty in Hadj.
      apply with_session_Ok in Hadj as (s3 & s4 & Hs3 & Hadj & ->).
      cbn in Hs3. rewrite lookup_insert_eq in Hs3. injection Hs3 as <-.
      cbn in Hs2. rewrite lookup_insert_eq in Hs2. injection Hs2 as <-.
      cbn. rewrite insert_insert_eq. destruct u'. done.
    - injection Hadj as <- <-.
      cbn in Hs2. rewrite lookup_insert_eq in Hs2. injection Hs2 as <-. done. }
  cbv zeta. split_and!; try done.
  all: destruct (total_questions s2 <=? current_question s2) eqn:Ec.
  all: try (apply bind_Ok in H as (stats & w3 & Hst & H); injection H as <- <-;
            apply calculate_final_stats_Ok in Hst
              as (s5 & Hs5 & _ & _ & _ & Hd1 & Hd2 & Hd3 & _)).
  all: try (injection H as <- <-).
  all: cbn; rewrite ?Hd3, ?Hdb1; try done.
  split_and!; eauto.
  - rewrite Hd1, Hw1. by rewrite delete_insert_eq.
  - by rewrite Hd2, Hdb1.
Qed.

(** ** Errors and scores of [submit_answer] *)

(** The two errors [submit_answer] returns, and what they leave behind. *)
Lemma submit_answer_SubmitError
    (sid : string) (qid : Z) (ans : string) (rt : Q) (w w' : World) (msg : string) :
  QuizSystem.submit_answer sid qid ans rt w = (Ok (SubmitError msg), w') ->
  active_sessions w' = active_sessions w /\
  db w' = db w /\
  ((msg = "Invalid session" /\ active_sessions w !! sid = None) \/
   (msg = "Question not found" /\ is_Some (active_sessions w !! sid) /\
    List.find (fun q => question_id q =? qid) (questions (db w)) = None)).
Proof.
  intros H. unfold QuizSystem.submit_answer in H.
  apply bind_Ok in H as (w0 & w1 & H1 & H). injection H1 as <- <-.
  destruct (active_sessions w !! sid) as [s|] eqn:Es.
  - apply bind_Ok in H as (oq & w1 & H1 & H).
    apply storage_Ok in H1 as (Hf1 & d & Hd & ->). injection Hd as <- <-.
    destruct (find (fun q => question_id q =? qid) (questions (db w)))
      as [q|] eqn:Eq.
    + exfalso.
      repeat (apply bind_Ok in H as (? & ? & _ & H)).
      destruct (total_questions _ <=? current_question _).
      * apply bind_Ok in H as (? & ? & _ & H). discriminate.
      * discriminate.
    + injection H as <- <-. cbn. split_and!; try done. right. eauto.
  - injection H as <- <-. split_and!; try done. by left.
Qed.

(** C10. Whenever [submit_answer] returns an error -- the session token is
    unknown, or the question id does not resolve in the question store --
    the live session table is unchanged, so no counter, score, streak,
    difficulty or response time of any session is modified, and the
    database is unchanged, so no attempt is recorded. These two are the
    only errors it returns. *)
Theorem submit_answer_error_changes_nothing
    (sid : string) (qid : Z) (ans : string) (rt : Q) (w w' : World) (msg : string) :
  QuizSystem.submit_answer sid qid ans rt w = (Ok (SubmitError msg), w') ->
  active_sessions w' = active_sessions w /\
  db w' = db w /\
  quiz_attempts (db w') = quiz_attempts (db w) /\
  ((msg = "Invalid session" /\ active_sessions w !! sid = None) \/
   (msg = "Question not found" /\
    List.find (fun q => question_id q =? qid) (questions (db w)) = None)).
Proof.
  intros H. apply submit_answer_SubmitError in H as (Hs & Hd & Hmsg).
  split_and!; try done; [by rewrite Hd|].
  destruct Hmsg as [?|(? & _ & ?)]; auto.
Qed.

Lemma submit_answer_error_changes_nothing_witness :
  active_sessions w_not_found = active_sessions w_started /\
  db w_not_found = db w_started /\
  quiz_attempts (db w_not_found) = quiz_attempts (db w_started) /\
  (("Question not found" = "Invalid session" /\
    active_sessions w_started !! "session-0" = None) \/
   ("Question not found" = "Question not found" /\
    List.find (fun q => question_id q =? 99) (questions (db w_started)) = None)).
Proof.
  apply (submit_answer_error_changes_nothing "session-0" 99 "A" 3 w_started
           w_not_found "Question not found").
  vm_compute. reflexivity.
Defined.

(** C4. Correctness of a submitted answer is case-insensitive equality of
    the submitted option with the question's correct option; a correct
    answer earns exactly the point value of the question's difficulty
    (1 -> 1, 2 -> 2, 3 -> 3) and an incorrect answer earns exactly 0,
    whatever the response time. The same flag and points are what the
    response carries and what the recorded attempt carries. *)
Theorem scoring_rule
    (sid : string) (qid : Z) (ans : string) (rt : Q) (w w' : World)
    (r : AnswerResponse) :
  QuizSystem.submit_answer sid qid ans rt w = (Ok (Answered r), w') ->
  exists q,
    List.find (fun q => question_id q =? qid) (questions (db w)) = Some q /\
    (r_is_correct r = true <-> same_ignoring_case ans (correct_option q)) /\
    (r_is_correct r = true ->
       (difficulty q = 1 /\ r_points_earned r = 1) \/
       (difficulty q = 2 /\ r_points_earned r = 2) \/
       (difficulty q = 3 /\ r_points_earned r = 3)) /\
    (r_is_correct r = false -> r_points_earned r = 0) /\
    exists a, last (quiz_attempts (db w')) = Some a /\
              a_is_correct a = r_is_correct r /\
              a_points_earned a = r_points_earned r.
Proof.
  intros H.
  apply submit_answer_Answered in H
    as (s & q & points & s2 & Hs & Hq & Hpts & _ & _ & _ & Hc & _ & _ & Hp &
        _ & _ & _ & _ & Hatt & _).
  exists q. split; [done|]. rewrite Hc, Hp.
  split_and!.
  - rewrite String.eqb_eq. apply lower_eq_iff.
  - intros Heq. unfold points_for in Hpts. rewrite Heq in Hpts.
    unfold QuizSystem.points_map, POINTS_EASY, POINTS_MEDIUM, POINTS_HARD in Hpts.
    destruct (decide (difficulty q = 1)) as [E|N1]; [rewrite E in *; simplify_map_eq; auto|].
    destruct (decide (difficulty q = 2)) as [E|N2]; [rewrite E in *; simplify_map_eq; auto|].
    destruct (decide (difficulty q = 3)) as [E|N3]; [rewrite E in *; simplify_map_eq; auto|].
    by simplify_map_eq.
  - intros Heq. unfold points_for in Hpts. by rewrite Heq in Hpts.
  - eexists. rewrite Hatt. rewrite last_snoc. split; [done|]. cbn. done.
Qed.


Lemma scoring_rule_witness :
  exists q,
    List.find (fun q => question_id q =? 1) (questions (db w_started)) = Some q /\
    (r_is_correct r_first = true <-> same_ignoring_case "b" (correct_option q)) /\
    (r_is_correct r_first = true ->
       (difficulty q = 1 /\ r_points_earned r_first = 1) \/
       (difficulty q = 2 /\ r_points_earned r_first = 2) \/
       (difficulty q = 3 /\ r_points_earned r_first = 3)) /\
    (r_is_correct r_first = false -> r_points_earned r_first = 0) /\
    exists a, last (quiz_attempts (db w_first)) = Some a /\
              a_is_correct a = r_is_correct r_first /\
              a_points_earned a = r_points_earned r_first.
Proof.
  apply (scoring_rule "session-0" 1 "b" 3 w_started w_first r_first).
  vm_compute. reflexivity.
Defined.

(** The adapter changes nothing but [current_difficulty]. *)
Lemma adjust_session_only_difficulty (s s' : Session) (r : outcome unit) :
  QuizSystem.adjust_session s = (r, s') ->
  s' = set_current_difficulty (current_difficulty s') s.
Proof.
  unfold QuizSystem.adjust_session, subscript, bind, ret, raise, get, modify.
  destruct s; cbn.
  repeat (case_match; cbn); intros ?; simplify_eq; done.
Qed.

Lemma adapted_streaks (s1 s2 : Session) :
  adapted s1 s2 ->
  correct_streak s2 = correct_streak s1 /\ wrong_streak s2 = wrong_streak s1 /\
  current_question s2 = current_question s1 /\
  total_questions s2 = total_questions s1 /\
  questions_by_difficulty s2 = questions_by_difficulty s1 /\
  correct_by_difficulty s2 = correct_by_difficulty s1 /\
  score s2 = score s1 /\ difficulty_mode s2 = difficulty_mode s1 /\
  response_times s2 = response_times s1.
Proof.
  unfold adapted. destruct (String.eqb (difficulty_mode s1) "mix").
  - intros H. apply adjust_session_only_difficulty in H. rewrite H. done.
  - intros ->. done.
Qed.

(** C6. After every answered question exactly one of [correct_streak] and
    [wrong_streak] is incremented and the other is reset to 0; so in every
    world the engine can reach, at most one of the two is nonzero in every
    live session. *)
Theorem streaks_exclusive (w : World) (sid : string) (s : Session) :
  reachable w ->
  active_sessions w !! sid = Some s ->
  (correct_streak s = 0 \/ wrong_streak s = 0) /\
  forall qid ans rt r w',
    QuizSystem.submit_answer sid qid ans rt w = (Ok (Answered r), w') ->
    r_streak r = (if r_is_correct r then correct_streak s + 1 else 0) /\
    forall s', active_sessions w' !! sid = Some s' ->
      if r_is_correct r
      then correct_streak s' = correct_streak s + 1 /\ wrong_streak s' = 0
      else correct_streak s' = 0 /\ wrong_streak s' = wrong_streak s + 1.
Proof.
  intros Hr Hs. split.
  - exact (ok_streak s (reachable_Inv w Hr sid s Hs)).
  - intros qid ans rt r w' H.
    apply submit_answer_Answered in H
      as (s0 & q & points & s2 & Hs0 & _ & _ & _ & _ & Had & Hc & _ & _ & _ &
          _ & _ & _ & Hstk & _ & Hfin).
    rewrite Hs in Hs0. injection Hs0 as <-.
    apply adapted_streaks in Had as (Hcs & Hws & _). cbn in Hcs, Hws.
    rewrite Hstk, Hc, Hcs. split.
    + by destruct (String.eqb (lower ans) (lower (correct_option q))).
    + intros s' Hs'.
      destruct (total_questions s2 <=? current_question s2).
      * destruct Hfin as (_ & _ & Hdel & _). rewrite Hdel in Hs'.
        by rewrite lookup_delete_eq in Hs'.
      * destruct Hfin as (_ & _ & Hins & _). rewrite Hins in Hs'.
        rewrite lookup_insert_eq in Hs'. injection Hs' as <-.
        rewrite Hcs, Hws.
        by destruct (String.eqb (lower ans) (lower (correct_option q))).
Qed.

Lemma w_started_reachable : reachable w_started.
Proof.
  exact (reach_call w0 (CallStart 5 7 "mix" 2) (reach_init w0 eq_refl)).
Qed.

Lemma w_started_session : active_sessions w_started !! "session-0" = Some s_started.
Proof. vm_compute. reflexivity. Qed.

Lemma streaks_exclusive_witness :
  (correct_streak s_started = 0 \/ wrong_streak s_started = 0) /\
  forall qid ans rt r w',
    QuizSystem.submit_answer "session-0" qid ans rt w_started = (Ok (Answered r), w') ->
    r_streak r = (if r_is_correct r then correct_streak s_started + 1 else 0) /\
    forall s', active_sessions w' !! "session-0" = Some s' ->
      if r_is_correct r
      then correct_streak s' = correct_streak s_started + 1 /\ wrong_streak s' = 0
      else correct_streak s' = 0 /\ wrong_streak s' = wrong_streak s_started + 1.
Proof.
  apply (streaks_exclusive w_started "session-0" s_started).
  - exact (reach_call w0 (CallStart 5 7 "mix" 2) (reach_init w0 eq_refl)).
  - vm_compute. reflexivity.
Defined.

(** The adapter's rule, case by case. *)
Lemma adapted_difficulty_cases (cur n c : Z) :
  let acc := (inject_Z c / inject_Z n)%Q in
  (n < 3 -> adapted_difficulty cur n c = cur) /\
  (3 <= n -> (8 # 10 <= acc)%Q -> cur < 3 -> adapted_difficulty cur n c = cur + 1) /\
  (3 <= n -> ~ ((8 # 10 <= acc)%Q /\ cur < 3) -> (acc <= 4 # 10)%Q -> 1 < cur ->
     adapted_difficulty cur n c = cur - 1) /\
  (3 <= n -> ~ ((8 # 10 <= acc)%Q /\ cur < 3) -> ~ ((acc <= 4 # 10)%Q /\ 1 < cur) ->
     adapted_difficulty cur n c = cur).
Proof.
  cbv zeta. unfold adapted_difficulty.
  destruct (n <? 3) eqn:En;
    [apply Z.ltb_lt in En | apply Z.ltb_ge in En].
  { split_and!; intros; try lia; done. }
  destruct (Qle_bool (8 # 10) (inject_Z c / inject_Z n)) eqn:Eup;
    destruct (cur <? 3) eqn:E3; cbn;
    destruct (Qle_bool (inject_Z c / inject_Z n) (4 # 10)) eqn:Edn;
    destruct (1 <? cur) eqn:E1; cbn;
    try (apply Z.ltb_lt in E1); try (apply Z.ltb_ge in E1);
    try (apply Z.ltb_lt in E3); try (apply Z.ltb_ge in E3);
    try (apply Qle_bool_iff in Eup); try (apply Qle_bool_iff in Edn);
    try (assert (~ (8 # 10 <= inject_Z c / inject_Z n)%Q)
           by (rewrite <- Qle_bool_iff; congruence));
    try (assert (~ (inject_Z c / inject_Z n <= 4 # 10)%Q)
           by (rewrite <- Qle_bool_iff; congruence));
    split_and!; intros; try lia; try done; try tauto.
Qed.

(** C2. After a scored answer of a session in mix mode, with [n] the
    answers and [c] the correct answers at the current difficulty [cur]
    (this answer included) and [acc = c / n]: fewer than 3 answers at that
    level leave the difficulty unchanged; otherwise [acc >= 0.8] and
    [cur < 3] raise it by exactly 1, else [acc <= 0.4] and [cur > 1] lower
    it by exactly 1, else it is unchanged. In a fixed-difficulty mode the
    adapter is not invoked and the difficulty does not change. *)
Theorem adaptive_difficulty_rule
    (w : World) (sid : string) (s : Session) (qid : Z) (ans : string) (rt : Q)
    (r : AnswerResponse) (w' : World) (s' : Session) :
  reachable w ->
  active_sessions w !! sid = Some s ->
  QuizSystem.submit_answer sid qid ans rt w = (Ok (Answered r), w') ->
  active_sessions w' !! sid = Some s' ->
  (difficulty_mode s <> "mix" -> current_difficulty s' = current_difficulty s) /\
  (difficulty_mode s = "mix" ->
   exists n c,
     questions_by_difficulty s' !! current_difficulty s = Some n /\
     correct_by_difficulty s' !! current_difficulty s = Some c /\
     let cur := current_difficulty s in
     let acc := (inject_Z c / inject_Z n)%Q in
     (n < 3 -> current_difficulty s' = cur) /\
     (3 <= n -> (8 # 10 <= acc)%Q -> cur < 3 -> current_difficulty s' = cur + 1) /\
     (3 <= n -> ~ ((8 # 10 <= acc)%Q /\ cur < 3) -> (acc <= 4 # 10)%Q -> 1 < cur ->
        current_difficulty s' = cur - 1) /\
     (3 <= n -> ~ ((8 # 10 <= acc)%Q /\ cur < 3) -> ~ ((acc <= 4 # 10)%Q /\ 1 < cur) ->
        current_difficulty s' = cur)).
Proof.
  intros Hr Hs H Hs'.
  pose proof (reachable_Inv w Hr sid s Hs) as Hok.
  apply submit_answer_Answered in H
    as (s0 & q & points & s2 & Hs0 & _ & _ & Hk1 & Hk2 & Had & _ & _ & _ & _ &
        _ & _ & _ & _ & _ & Hfin).
  rewrite Hs in Hs0. injection Hs0 as <-.
  set (correct := String.eqb (lower ans) (lower (correct_option q))) in *.
  set (s1 := answered q correct points rt s) in *.
  assert (session_ok s1) as Hok1.
  { eapply (update_session_statistics_ok q correct points rt s (Ok tt)); [done|].
    apply update_session_statistics_Ok. done. }
  assert (s' = s2) as ->.
  { destruct (total_questions s2 <=? current_question s2).
    - destruct Hfin as (_ & _ & Hdel & _). rewrite Hdel in Hs'.
      by rewrite lookup_delete_eq in Hs'.
    - destruct Hfin as (_ & _ & Hins & _). rewrite Hins in Hs'.
      rewrite lookup_insert_eq in Hs'. by injection Hs' as <-. }
  unfold adapted in Had.
  change (difficulty_mode s1) with (difficulty_mode s) in Had.
  change (current_difficulty s) with (current_difficulty s1).
  split.
  - intros Hmode. apply String.eqb_neq in Hmode. rewrite Hmode in Had.
    by rewrite Had.
  - intros Hmode. pose proof Hmode as Hm. apply String.eqb_eq in Hm.
    rewrite Hm in Had.
    destruct Hok1 as [Hkeys Hckeys Hle Hmix _].
    specialize (Hmix Hmode).
    destruct (Hkeys _ Hmix) as [n Hn]. destruct (Hckeys _ Hmix) as [c Hc].
    pose proof (Hle _ _ Hn) as Hnle.
    rewrite (adjust_session_spec s1 n c Hn Hc Hnle) in Had.
    injection Had as <-. cbn [questions_by_difficulty correct_by_difficulty
      current_difficulty set_current_difficulty].
    exists n, c. split; [done|]. split; [done|].
    pose proof (adapted_difficulty_cases (current_difficulty s1) n c) as Hcases.
    exact Hcases.
Qed.

Lemma w_five_2_reachable : reachable w_five_2.
Proof.
  exact (reach_call _ (CallSubmit "session-0" 1 "b" 2)
           (reach_call _ (CallSubmit "session-0" 1 "B" 2)
              (reach_call w0 (CallStart 5 7 "mix" 5) (reach_init w0 eq_refl)))).
Qed.

Lemma adaptive_difficulty_rule_witness :
  (difficulty_mode s_five_2 <> "mix" ->
     current_difficulty s_five_3 = current_difficulty s_five_2) /\
  (difficulty_mode s_five_2 = "mix" ->
   exists n c,
     questions_by_difficulty s_five_3 !! current_difficulty s_five_2 = Some n /\
     correct_by_difficulty s_five_3 !! current_difficulty s_five_2 = Some c /\
     let cur := current_difficulty s_five_2 in
     let acc := (inject_Z c / inject_Z n)%Q in
     (n < 3 -> current_difficulty s_five_3 = cur) /\
     (3 <= n -> (8 # 10 <= acc)%Q -> cur < 3 -> current_difficulty s_five_3 = cur + 1) /\
     (3 <= n -> ~ ((8 # 10 <= acc)%Q /\ cur < 3) -> (acc <= 4 # 10)%Q -> 1 < cur ->
        current_difficulty s_five_3 = cur - 1) /\
     (3 <= n -> ~ ((8 # 10 <= acc)%Q /\ cur < 3) -> ~ ((acc <= 4 # 10)%Q /\ 1 < cur) ->
        current_difficulty s_five_3 = cur)).
Proof.
  apply (adaptive_difficulty_rule w_five_2 "session-0" s_five_2 1 "B" 2
           r_five_3 w_five_3 s_five_3).
  - exact w_five_2_reachable.
  - vm_compute. reflexivity.
  - vm_compute. reflexivity.
  - vm_compute. reflexivity.
Defined.

(** ** Recording failures *)

Lemma bind_run {St A B} (m : M St A) (k : A -> M St B) (s s1 : St) (a : A) :
  m s = (Ok a, s1) -> bind m k s = k a s1.
Proof. unfold bind. by intros ->. Qed.

Lemma bind_stop {St A B} (m : M St A) (k : A -> M St B) (s s1 : St) (e : exn) :
  m s = (Raise e, s1) -> bind m k s = (Raise e, s1).
Proof. unfold bind. by intros ->. Qed.

Lemma with_session_run {A} (sid : string) (m : M Session A) (w : World)
    (s s' : Session) (r : outcome A) :
  active_sessions w !! sid = Some s -> m s = (r, s') ->
  with_session sid m w =
    (r, set_active_sessions (<[sid := s']> (active_sessions w)) w).
Proof. unfold with_session. by intros -> ->. Qed.

Lemma the_session_run (sid : string) (w : World) (s : Session) :
  active_sessions w !! sid = Some s -> the_session sid w = (Ok s, w).
Proof. unfold the_session. by intros ->. Qed.

(** C1, as the code has it. When the question resolves and persisting the
    attempt then fails, [submit_answer] raises the storage error to its
    caller; nothing is written to the database, the difficulty is not
    adapted and the session stays live; but the session's counters, tallies,
    response times, score and streaks have already been advanced, before the
    recording was attempted, and they are not rolled back. *)
Theorem recording_failure_after_update
    (sid : string) (qid : Z) (ans : string) (rt : Q) (w : World)
    (s : Session) (q : Question) (points : Z) :
  let correct := String.eqb (lower ans) (lower (correct_option q)) in
  active_sessions w !! sid = Some s ->
  db_fails w (length (db_log w)) = false ->
  List.find (fun q => question_id q =? qid) (questions (db w)) = Some q ->
  points_for q correct points ->
  is_Some (questions_by_difficulty s !! difficulty q) ->
  (correct = true -> is_Some (correct_by_difficulty s !! difficulty q)) ->
  db_fails w (S (length (db_log w))) = true ->
  exists w',
    QuizSystem.submit_answer sid qid ans rt w = (Raise StorageError, w') /\
    active_sessions w' = <[sid := answered q correct points rt s]> (active_sessions w) /\
    db w' = db w /\
    db_log w' =
      db_log w ++ [OpSelectQuestion qid;
                   OpRecordAttempt (user_id s) (chapter_id s) qid ans correct points].
Proof.
  intros correct Hs Hf1 Hq Hpts Hk1 Hk2 Hf2.
  unfold QuizSystem.submit_answer.
  erewrite bind_run by reflexivity. rewrite Hs.
  erewrite bind_run; cycle 1.
  { unfold storage. rewrite Hf1. reflexivity. }
  rewrite Hq. fold correct.
  set (w1 := set_db (db w) (set_db_log (db_log w ++ [OpSelectQuestion qid]) w)).
  erewrite (bind_run _ _ w1 w1 points); cycle 1.
  { unfold points_for in Hpts. destruct correct.
    - unfold subscript. by rewrite Hpts.
    - by rewrite Hpts. }
  erewrite bind_run; cycle 1.
  { apply (with_session_run sid _ w1 s (answered q correct points rt s)); [done|].
    apply update_session_statistics_Ok. done. }
  erewrite bind_run; cycle 1.
  { apply the_session_run. cbn. apply lookup_insert_eq. }
  erewrite bind_stop; cycle 1.
  { unfold DatabaseManager.record_quiz_attempt, storage. cbn.
    rewrite length_app. cbn. rewrite Nat.add_1_r. rewrite Hf2. reflexivity. }
  eexists. split; [reflexivity|]. cbn.
  split_and!; try done. by rewrite <- app_assoc.
Qed.

Lemma recording_failure_after_update_witness :
  exists w',
    QuizSystem.submit_answer "session-0" 1 "b" 3 w_recorder_down = (Raise StorageError, w') /\
    active_sessions w' =
      <[ "session-0" := answered q1 true 1 3 s_started ]> (active_sessions w_recorder_down) /\
    db w' = db w_recorder_down /\
    db_log w' =
      db_log w_recorder_down ++
        [OpSelectQuestion 1; OpRecordAttempt 5 7 1 "b" true 1].
Proof.
  apply (recording_failure_after_update "session-0" 1 "b" 3 w_recorder_down
           s_started q1 1).
  - vm_compute. reflexivity.
  - vm_compute. reflexivity.
  - vm_compute. reflexivity.
  - vm_compute. reflexivity.
  - vm_compute. eauto.
  - intros _. vm_compute. eauto.
  - vm_compute. reflexivity.
Defined.

(** C1 as stated fails: with the recorder down, the session of
    [w_recorder_down] has answered one question after the failed call, and
    none before. *)
Lemma recording_failure_changes_session :
  ~ (forall sid qid ans rt w w' uid chapter correct points,
       QuizSystem.submit_answer sid qid ans rt w = (Raise StorageError, w') ->
       last (db_log w') = Some (OpRecordAttempt uid chapter qid ans correct points) ->
       active_sessions w' = active_sessions w).
Proof.
  intros H.
  specialize (H "session-0" 1 "b" 3%Q w_recorder_down
                (snd (QuizSystem.submit_answer "session-0" 1 "b" 3 w_recorder_down))
                5 7 true 1).
  assert (current_question <$>
            active_sessions (snd (QuizSystem.submit_answer "session-0" 1 "b" 3
                                    w_recorder_down)) !! "session-0" =
          current_question <$> active_sessions w_recorder_down !! "session-0") as E.
  { rewrite H; [done | by vm_compute | by vm_compute]. }
  vm_compute in E. discriminate.
Qed.

(** ** The life of a session *)








(** ** Final statistics *)

Lemma Qltb_lt (x y : Q) : Qltb x y = true <-> (x < y)%Q.
Proof.
  unfold Qltb. rewrite negb_true_iff. split.
  - intros H. apply Qnot_le_lt. intros Hle. apply Qle_bool_iff in Hle. congruence.
  - intros H. destruct (Qle_bool y x) eqn:E; [|done].
    apply Qle_bool_iff in E. exfalso. exact (Qlt_not_le _ _ H E).
Qed.

Lemma int_of_float_floor (x : Q) : (0 <= x)%Q -> int_of_float x = Qfloor x.
Proof.
  destruct x as [n d]. unfold Qle, int_of_float, Qfloor. cbn.
  intros H. apply Z.quot_div_nonneg; lia.
Qed.

Lemma time_bonus_of_spec (avg : Q) :
  ((10 <= avg)%Q -> QuizSystem.time_bonus_of avg = 0) /\
  ((avg < 10)%Q ->
     QuizSystem.time_bonus_of avg = Z.min 50 (Qfloor ((10 - avg) * 5))) /\
  0 <= QuizSystem.time_bonus_of avg <= 50.
Proof.
  unfold QuizSystem.time_bonus_of.
  destruct (Qltb avg 10) eqn:E.
  - apply Qltb_lt in E.
    assert (0 <= (10 - avg) * 5)%Q as Hpos.
    { apply Qmult_le_0_compat; [|done].
      apply Qlt_le_weak. rewrite <- (Qplus_opp_r avg).
      unfold Qminus. apply Qplus_lt_l. done. }
    rewrite (int_of_float_floor _ Hpos).
    assert (0 <= Qfloor ((10 - avg) * 5)).
    { change 0 with (Qfloor 0). by apply Qfloor_resp_le. }
    split_and!; try lia.
    intros Hge. exfalso. exact (Qlt_not_le _ _ E Hge).
  - split_and!; try lia.
    intros Hlt. apply Qltb_lt in Hlt. congruence.
Qed.



Example time_bonus_of_three_seconds : fs_time_bonus stats_first = 35.
Proof. reflexivity. Qed.

(** ** Question selection *)

Lemma first_by_key_In (key : Question -> Z * Z * Z) (l : list Question) (q : Question) :
  DatabaseManager.first_by_key key l = Some q -> In q l.
Proof.
  destruct l as [|q0 l]; cbn; [discriminate|].
  intros [= <-].
  assert (forall l0 b, In (fold_left (fun best q' =>
            if DatabaseManager.key_ltb (key q') (key best) then q' else best) l0 b)
            (b :: l0)) as Hfold.
  { induction l0 as [|x l0 IH]; intros b; cbn; [by left|].
    destruct (DatabaseManager.key_ltb (key x) (key b)).
    - destruct (IH x) as [<-|?]; auto.
    - destruct (IH b) as [<-|?]; auto. }
  destruct (Hfold l q0) as [<-|?]; [by left | by right].
Qed.

Lemma first_by_key_None (key : Question -> Z * Z * Z) (l : list Question) :
  DatabaseManager.first_by_key key l = None <-> l = [].
Proof. destruct l; cbn; split; intros; done. Qed.

Lemma filter_empty_iff {A} (f : A -> bool) (l : list A) :
  List.filter f l = [] <-> forall x, In x l -> f x = false.
Proof.
  induction l as [|a l IH]; cbn.
  - split; [intros _ x [] | done].
  - destruct (f a) eqn:E; split.
    + discriminate.
    + intros H. specialize (H a (or_introl eq_refl)). congruence.
    + intros H x [<-|Hx]; [done|]. by apply IH.
    + intros H. apply IH. intros x Hx. apply H. by right.
Qed.

Lemma is_candidate_filtered (chapter k : Z) (q : Question) :
  k <> 0 ->
  DatabaseManager.is_candidate chapter (Some k) q = true <->
  q_chapter_id q = chapter /\ difficulty q = k.
Proof.
  intros Hk. unfold DatabaseManager.is_candidate, DatabaseManager.difficulty_given.
  destruct (k =? 0) eqn:E; [apply Z.eqb_eq in E; lia|].
  rewrite andb_true_iff. rewrite !Z.eqb_eq. done.
Qed.

Lemma is_candidate_unfiltered (chapter : Z) (q : Question) :
  DatabaseManager.is_candidate chapter None q = true <-> q_chapter_id q = chapter.
Proof.
  unfold DatabaseManager.is_candidate. cbn.
  rewrite andb_true_r. apply Z.eqb_eq.
Qed.

(** C7. For a live, unfinished session and a working question store, the
    engine first queries the candidates of the chapter at the session's
    current difficulty; when there is one it returns such a question after
    that single query; when there is none it queries once more, without a
    difficulty filter, and returns a question of the chapter if there is
    one; it returns nothing only when the chapter has no question at all,
    and whatever it returns is a question of the store. *)
Theorem next_question_fallback (sid : string) (w : World) (s : Session) :
  let at_level q :=
    q_chapter_id q = chapter_id s /\ difficulty q = current_difficulty s in
  let in_chapter q := q_chapter_id q = chapter_id s in
  let filtered :=
    OpNextQuestion (user_id s) (chapter_id s) (Some (current_difficulty s)) in
  let unfiltered := OpNextQuestion (user_id s) (chapter_id s) None in
  active_sessions w !! sid = Some s ->
  current_question s < total_questions s ->
  current_difficulty s <> 0 ->
  db_fails w (length (db_log w)) = false ->
  db_fails w (S (length (db_log w))) = false ->
  exists r w',
    QuizSystem.get_next_question sid w = (Ok r, w') /\
    active_sessions w' = active_sessions w /\
    db w' = db w /\
    ((exists q, In q (questions (db w)) /\ at_level q) ->
       db_log w' = db_log w ++ [filtered] /\
       exists nq, r = Some nq /\ In (nq_question nq) (questions (db w)) /\
                  at_level (nq_question nq)) /\
    (~ (exists q, In q (questions (db w)) /\ at_level q) ->
       db_log w' = db_log w ++ [filtered; unfiltered] /\
       ((exists q, In q (questions (db w)) /\ in_chapter q) ->
          exists nq, r = Some nq /\ In (nq_question nq) (questions (db w)) /\
                     in_chapter (nq_question nq)) /\
       (~ (exists q, In q (questions (db w)) /\ in_chapter q) -> r = None)).
Proof.
  intros at_level in_chapter filtered unfiltered Hs Hlt Hcd Hf1 Hf2.
  unfold QuizSystem.get_next_question.
  erewrite bind_run by reflexivity. rewrite Hs.
  assert ((total_questions s <=? current_question s) = false) as ->
    by (apply Z.leb_gt; lia).
  unfold DatabaseManager.get_next_question at 1.
  set (key1 := DatabaseManager.order_key (db w) (random w (length (db_log w))) (user_id s)).
  set (rows1 := List.filter
                  (DatabaseManager.is_candidate (chapter_id s) (Some (current_difficulty s)))
                  (questions (db w))).
  set (w1 := set_db (db w) (set_db_log (db_log w ++ [filtered]) w)).
  erewrite (bind_run _ _ w w1 (DatabaseManager.first_by_key key1 rows1)); cycle 1.
  { unfold storage. rewrite Hf1. reflexivity. }
  destruct (DatabaseManager.first_by_key key1 rows1) as [q|] eqn:E1.
  - (* a candidate at the current difficulty *)
    erewrite bind_run by reflexivity. unfold ret.
    apply first_by_key_In in E1. apply filter_In in E1 as [Hin Hc].
    apply is_candidate_filtered in Hc; [|done].
    eexists _, w1. split; [reflexivity|]. cbn.
    split_and!; try done.
    + intros _. split; [done|]. eexists. split; [reflexivity|]. done.
    + intros Hno. exfalso. apply Hno. by exists q.
  - (* none: retry without the filter *)
    apply first_by_key_None in E1.
    assert (~ (exists q, In q (questions (db w)) /\ at_level q)) as Hno.
    { intros (q & Hin & Hq). apply (proj1 (filter_empty_iff _ _) E1) in Hin.
      apply is_candidate_filtered in Hq; [|done]. congruence. }
    unfold DatabaseManager.get_next_question.
    set (key2 := DatabaseManager.order_key (db w1) (random w1 (length (db_log w1))) (user_id s)).
    set (rows2 := List.filter (DatabaseManager.is_candidate (chapter_id s) None)
                    (questions (db w1))).
    set (w2 := set_db (db w1) (set_db_log (db_log w1 ++ [unfiltered]) w1)).
    erewrite (bind_run _ _ w1 w2 (DatabaseManager.first_by_key key2 rows2)); cycle 1.
    { assert (db_fails w1 (length (db_log w1)) = false) as Hf2'.
      { cbn. rewrite length_app. cbn. by rewrite Nat.add_1_r. }
      unfold storage. rewrite Hf2'. reflexivity. }
    assert (db_log w2 = db_log w ++ [filtered; unfiltered]) as Hlog.
    { cbn. by rewrite <- app_assoc. }
    destruct (DatabaseManager.first_by_key key2 rows2) as [q|] eqn:E2.
    + apply first_by_key_In in E2. apply filter_In in E2 as [Hin Hc].
      apply is_candidate_unfiltered in Hc.
      eexists _, w2. split; [reflexivity|].
      split_and!; try done.
      intros _. split; [done|]. split.
      * intros _. eexists. split; [reflexivity|]. done.
      * intros Hnone. exfalso. apply Hnone. by exists q.
    + apply first_by_key_None in E2.
      eexists _, w2. split; [reflexivity|].
      split_and!; try done.
      intros _. split; [done|]. split; [|done].
      intros (q & Hin & Hq). exfalso.
      apply (proj1 (filter_empty_iff _ _) E2) in Hin.
      apply is_candidate_unfiltered in Hq. congruence.
Qed.

Lemma next_question_fallback_witness :
  let at_level q := q_chapter_id q = 8 /\ difficulty q = 2 in
  let in_chapter q := q_chapter_id q = 8 in
  exists r w',
    QuizSystem.get_next_question "session-0" w_sets = (Ok r, w') /\
    active_sessions w' = active_sessions w_sets /\
    db w' = db w_sets /\
    ((exists q, In q (questions (db w_sets)) /\ at_level q) ->
       db_log w' = db_log w_sets ++ [OpNextQuestion 5 8 (Some 2)] /\
       exists nq, r = Some nq /\ In (nq_question nq) (questions (db w_sets)) /\
                  at_level (nq_question nq)) /\
    (~ (exists q, In q (questions (db w_sets)) /\ at_level q) ->
       db_log w' = db_log w_sets ++ [OpNextQuestion 5 8 (Some 2); OpNextQuestion 5 8 None] /\
       ((exists q, In q (questions (db w_sets)) /\ in_chapter q) ->
          exists nq, r = Some nq /\ In (nq_question nq) (questions (db w_sets)) /\
                     in_chapter (nq_question nq)) /\
       (~ (exists q, In q (questions (db w_sets)) /\ in_chapter q) -> r = None)).
Proof.
  apply (next_question_fallback "session-0" w_sets s_sets).
  - vm_compute. reflexivity.
  - vm_compute. reflexivity.
  - vm_compute. discriminate.
  - vm_compute. reflexivity.
  - vm_compute. reflexivity.
Defined.

Example fallback_returns_other_level :
  fst (QuizSystem.get_next_question "session-0" w_sets) =
    Ok (Some (mkNextQuestion q4 "session-0" 1 3 2)).
Proof. vm_compute. reflexivity. Qed.

(** ** Unknown sessions *)





(** ** Starting a session *)

Lemma keeps_bind {A B} (m : Eng A) (k : A -> Eng B) :
  keeps_sessions m -> (forall a, keeps_sessions (k a)) -> keeps_sessions (bind m k).
Proof.
  intros Hm Hk w r w'. unfold bind.
  destruct (m w) as [[a|e] w1] eqn:E; intros H.
  - destruct (Hm _ _ _ E) as [<- <-]. exact (Hk a _ _ _ H).
  - injection H as <- <-. exact (Hm _ _ _ E).
Qed.

Lemma keeps_ret {A} (a : A) : keeps_sessions (ret a).
Proof. intros w r w' [= <- <-]. done. Qed.

Lemma keeps_send (m : BotMessage) : keeps_sessions (Bot.send m).
Proof. intros w r w' [= <- <-]. done. Qed.

Lemma keeps_add_user (uid : Z) (name : string) :
  keeps_sessions (DatabaseManager.add_user uid name).
Proof.
  intros w r w'. unfold DatabaseManager.add_user, storage.
  repeat case_match; intros; simplify_eq; done.
Qed.

Lemma keeps_get_chapters : keeps_sessions DatabaseManager.get_chapters.
Proof.
  intros w r w'. unfold DatabaseManager.get_chapters, storage.
  repeat case_match; intros; simplify_eq; done.
Qed.

(** C9, as the code has it. The [start_quiz] command of the presentation
    adapter rejects a question count outside [1, 50] or a mode outside
    {"1", "2", "3", "mix"} before it calls the engine: whatever the outcome
    of the command, no entry of the live table and no durable marker is
    written; and once the named chapter is found, the command returns
    after sending the error message to the caller. (The engine's own
    [start_quiz] checks neither.) *)
Theorem start_command_rejects_invalid_input
    (author : Z) (author_name : string) (chapter_name : option string)
    (mode : string) (total : Z) (w : World) :
  invalid_input mode total ->
  let out := Bot.start_quiz author author_name chapter_name mode total w in
  active_sessions (snd out) = active_sessions w /\
  active_quizzes (db (snd out)) = active_quizzes (db w) /\
  forall name chapters w1 w2 chapter,
    chapter_name = Some name -> name <> EmptyString ->
    DatabaseManager.add_user author author_name w = (Ok tt, w1) ->
    DatabaseManager.get_chapters w1 = (Ok chapters, w2) ->
    List.find (fun ch => String.eqb (lower (c_name ch)) (lower name)) chapters
      = Some chapter ->
    fst out = Ok tt /\ outbox (snd out) = outbox w ++ [rejection mode].
Proof.
  intros Hinv. cbv zeta.
  assert ((negb (bool_decide (mode ∈ Bot.valid_difficulties)) = false ->
           (total <? 1) || (50 <? total) = true)) as Hcount.
  { intros Hm. apply negb_false_iff in Hm. apply bool_decide_eq_true in Hm.
    destruct Hinv as [H|[H|H]]; [| |done].
    - apply orb_true_iff. left. by apply Z.ltb_lt.
    - apply orb_true_iff. right. by apply Z.ltb_lt. }
  assert (keeps_sessions
            (Bot.start_quiz author author_name chapter_name mode total)) as Hkeep.
  { unfold Bot.start_quiz.
    destruct chapter_name as [[|c name]|];
      repeat first
        [ apply keeps_ret | apply keeps_send | apply keeps_add_user
        | apply keeps_get_chapters | apply keeps_bind; [|intro] ].
    destruct (find _ _);
      repeat first
        [ apply keeps_ret | apply keeps_send | apply keeps_bind; [|intro] ].
    destruct (negb (bool_decide (mode ∈ Bot.valid_difficulties))) eqn:Em.
    - repeat first [ apply keeps_ret | apply keeps_send | apply keeps_bind; [|intro] ].
    - rewrite Hcount by done.
      repeat first [ apply keeps_ret | apply keeps_send | apply keeps_bind; [|intro] ]. }
  destruct (Bot.start_quiz author author_name chapter_name mode total w)
    as [r w'] eqn:E.
  destruct (Hkeep _ _ _ E) as [Hk1 Hk2]. cbn [fst snd].
  split; [done|]. split; [done|]. revert E.
  change (Bot.start_quiz author author_name chapter_name mode total w = (r, w') ->
          forall name chapters w1 w2 chapter,
            chapter_name = Some name -> name <> EmptyString ->
            DatabaseManager.add_user author author_name w = (Ok tt, w1) ->
            DatabaseManager.get_chapters w1 = (Ok chapters, w2) ->
            List.find (fun ch => String.eqb (lower (c_name ch)) (lower name)) chapters
              = Some chapter ->
            r = Ok tt /\ outbox w' = outbox w ++ [rejection mode]).
  intros E.
  intros name chapters w1 w2 chapter -> Hname Hadd Hget Hfind.
  unfold Bot.start_quiz in E. destruct name as [|c name]; [done|].
  rewrite (bind_run _ _ _ _ _ Hadd) in E. rewrite (bind_run _ _ _ _ _ Hget) in E.
  rewrite Hfind in E.
  assert (outbox w2 = outbox w) as Hout.
  { unfold DatabaseManager.add_user, DatabaseManager.get_chapters, storage in Hadd, Hget.
    repeat (case_match; simplify_eq); done. }
  unfold rejection.
  destruct (bool_decide (mode ∈ Bot.valid_difficulties)) eqn:Em; cbn [negb] in E.
  - rewrite Hcount in E by done.
    unfold Bot.send, bind, ret, get, modify in E. cbn in E.
    injection E as <- <-. cbn. by rewrite Hout.
  - unfold Bot.send, bind, ret, get, modify in E. cbn in E.
    injection E as <- <-. cbn. by rewrite Hout.
Qed.

Lemma start_command_rejects_invalid_input_witness :
  active_sessions (snd out_rejected) = active_sessions w0 /\
  active_quizzes (db (snd out_rejected)) = active_quizzes (db w0) /\
  forall name chapters w1 w2 chapter,
    Some "algebra" = Some name -> name <> EmptyString ->
    DatabaseManager.add_user 5 "ann" w0 = (Ok tt, w1) ->
    DatabaseManager.get_chapters w1 = (Ok chapters, w2) ->
    List.find (fun ch => String.eqb (lower (c_name ch)) (lower name)) chapters
      = Some chapter ->
    fst out_rejected = Ok tt /\
    outbox (snd out_rejected) = outbox w0 ++ [rejection "mix"].
Proof.
  apply (start_command_rejects_invalid_input 5 "ann" (Some "algebra") "mix" 0 w0).
  left. lia.
Defined.

Example rejected_count_message :
  fst out_rejected = Ok tt /\
  outbox (snd out_rejected) =
    [MsgText "Number of questions must be between 1 and 50"].
Proof. vm_compute. done. Qed.

(** C9 as stated fails for the engine's own [start_quiz]: called with a
    question count of 0, it writes both the session and its marker. *)
Lemma engine_start_quiz_accepts_invalid_count :
  ~ (forall uid chapter mode total w,
       invalid_input mode total ->
       let w' := snd (QuizSystem.start_quiz uid chapter mode total w) in
       active_sessions w' = active_sessions w /\
       active_quizzes (db w') = active_quizzes (db w)).
Proof.
  intros H.
  destruct (H 5 7 "mix" 0 w0) as [Hs _]; [left; lia|].
  apply (f_equal (fun m => current_question <$> m !! "session-0")) in Hs.
  vm_compute in Hs. discriminate.
Qed.

(** ** Answers do get scored *)

Lemma adjust_step (sid : string) (w : World) (s1 : Session) :
  session_ok s1 ->
  active_sessions w !! sid = Some s1 ->
  exists w3 s2,
    (if String.eqb (difficulty_mode s1) "mix"
     then QuizSystem._adjust_difficulty sid else ret tt) w = (Ok tt, w3) /\
    active_sessions w3 !! sid = Some s2 /\
    db_fails w3 = db_fails w.
Proof.
  intros Hok1 Hs1.
  destruct (String.eqb (difficulty_mode s1) "mix") eqn:Em.
  - apply String.eqb_eq in Em.
    destruct Hok1 as [Hkeys Hckeys Hle Hmix _]. specialize (Hmix Em).
    destruct (Hkeys _ Hmix) as [n Hn]. destruct (Hckeys _ Hmix) as [c Hc].
    eexists _, _. unfold QuizSystem._adjust_difficulty.
    erewrite with_session_run;
      [| exact Hs1 | exact (adjust_session_spec s1 n c Hn Hc (Hle _ _ Hn))].
    split; [reflexivity|]. cbn. by rewrite lookup_insert_eq.
  - exists w, s1. done.
Qed.

(** In a reachable world with a working store, an answer to a question of
    the store whose difficulty is 1, 2 or 3, submitted on a live session,
    is scored: [submit_answer] returns a response. *)
Lemma submit_answer_succeeds
    (sid : string) (qid : Z) (ans : string) (rt : Q) (w : World)
    (s : Session) (q : Question) :
  reachable w ->
  active_sessions w !! sid = Some s ->
  List.find (fun q => question_id q =? qid) (questions (db w)) = Some q ->
  1 <= difficulty q <= 3 ->
  (forall k, db_fails w k = false) ->
  exists r w', QuizSystem.submit_answer sid qid ans rt w = (Ok (Answered r), w').
Proof.
  intros Hr Hs Hq Hd Hf.
  pose proof (reachable_Inv w Hr sid s Hs) as Hok.
  set (correct := String.eqb (lower ans) (lower (correct_option q))).
  assert (exists points, points_for q correct points) as [points Hpts].
  { unfold points_for. destruct correct; [|eauto].
    unfold QuizSystem.points_map.
    assert (difficulty q = 1 \/ difficulty q = 2 \/ difficulty q = 3)
      as [-> | [-> | ->]] by lia; eauto. }
  set (s1 := answered q correct points rt s).
  assert (QuizSystem.update_session_statistics q correct points rt s = (Ok tt, s1))
    as Hupd.
  { apply update_session_statistics_Ok. split_and!; [| |done].
    - by apply (ok_counts_keys s Hok).
    - intros _. by apply (ok_correct_keys s Hok). }
  pose proof (update_session_statistics_ok _ _ _ _ _ _ _ Hok Hupd) as Hok1.
  unfold QuizSystem.submit_answer.
  erewrite bind_run by reflexivity. rewrite Hs.
  erewrite bind_run; cycle 1.
  { unfold storage. rewrite Hf. reflexivity. }
  rewrite Hq. fold correct.
  set (w1 := set_db (db w) (set_db_log (db_log w ++ [OpSelectQuestion qid]) w)).
  erewrite (bind_run _ _ w1 w1 points); cycle 1.
  { unfold points_for in Hpts. destruct correct.
    - unfold subscript. by rewrite Hpts.
    - by rewrite Hpts. }
  erewrite bind_run; cycle 1.
  { apply (with_session_run sid _ w1 s s1); done. }
  erewrite bind_run; cycle 1.
  { apply the_session_run. cbn. apply lookup_insert_eq. }
  erewrite bind_run; cycle 1.
  { unfold DatabaseManager.record_quiz_attempt, storage. cbn.
    rewrite Hf. reflexivity. }
  match goal with
  | |- context [bind (if String.eqb (difficulty_mode s1) "mix" then _ else _) _ ?w2] =>
      set (wr := w2)
  end.
  destruct (adjust_step sid wr s1 Hok1) as (w3 & s2 & Hadj & Hs3 & Hf3).
  { cbn. apply lookup_insert_eq. }
  erewrite bind_run by exact Hadj.
  erewrite bind_run by (apply the_session_run; exact Hs3).
  destruct (total_questions s2 <=? current_question s2).
  - erewrite bind_run; cycle 1.
    { unfold QuizSystem._calculate_final_stats.
      erewrite bind_run by (apply the_session_run; exact Hs3).
      erewrite bind_run by reflexivity.
      erewrite bind_run; cycle 1.
      { unfold QuizSystem._cleanup_session.
        erewrite bind_run by reflexivity.
        unfold storage. cbn. rewrite Hf3. cbn. rewrite Hf. reflexivity. }
      reflexivity. }
    eauto.
  - eauto.
Qed.


(** ** Scenarios of the specification *)

(** Three consecutive correct answers at difficulty 1 in a fresh mix
    session: the difficulty becomes 2. *)
Example promotion_after_three_correct :
  current_difficulty <$> active_sessions w_ten_3 !! "session-0" = Some 2.
Proof. vm_compute. reflexivity. Qed.

(** Three consecutive incorrect answers at difficulty 2: back to 1. *)
Example demotion_after_three_incorrect :
  current_difficulty <$> active_sessions w_ten_6 !! "session-0" = Some 1.
Proof. vm_compute. reflexivity. Qed.

(** A mix session of five questions, the first three answered correctly:
    the fifth answer completes the quiz, five questions are counted and the
    final score is at least the score. *)
Example five_question_session :
  exists r stats,
    fst out_five_5 = Ok (Answered r) /\
    r_quiz_complete r = true /\
    r_final_stats r = Some stats /\
    fs_total_questions stats = 5 /\
    r_current_score r <= fs_final_score stats /\
    active_sessions (snd out_five_5) !! "session-0" = None.
Proof.
  vm_compute. eexists _, _. split_and!; try reflexivity. discriminate.
Qed.

(** * Further properties of the code *)

(** ** The ranking of candidates *)

Lemma key_ltb_spec (a b : Z * Z * Z) :
  DatabaseManager.key_ltb a b = true <->
  a.1.1 < b.1.1 \/ (a.1.1 = b.1.1 /\ (a.1.2 < b.1.2 \/ (a.1.2 = b.1.2 /\ a.2 < b.2))).
Proof.
  destruct a as [[a1 a2] a3], b as [[b1 b2] b3]. cbn.
  rewrite orb_true_iff, andb_true_iff, orb_true_iff, andb_true_iff.
  rewrite !Z.ltb_lt, !Z.eqb_eq. tauto.
Qed.

Lemma key_ltb_trans (a b c : Z * Z * Z) :
  DatabaseManager.key_ltb a b = true -> DatabaseManager.key_ltb b c = true ->
  DatabaseManager.key_ltb a c = true.
Proof. rewrite !key_ltb_spec. lia. Qed.

(** [ORDER BY ... LIMIT 1] returns a row that no other row precedes. *)
Lemma first_by_key_least (key : Question -> Z * Z * Z) (l : list Question)
    (q : Question) :
  DatabaseManager.first_by_key key l = Some q ->
  forall q', In q' l -> DatabaseManager.key_ltb (key q') (key q) = false.
Proof.
  destruct l as [|q0 l]; cbn; [discriminate|].
  intros [= <-].
  set (pick := fun best q' : Question =>
         if DatabaseManager.key_ltb (key q') (key best) then q' else best).
  assert (forall l0 b x, In x (b :: l0) ->
            DatabaseManager.key_ltb (key x) (key (fold_left pick l0 b)) = false)
    as Hfold.
  { induction l0 as [|x l0 IH]; intros b y Hy.
    - cbn. destruct Hy as [<-|[]].
      apply not_true_is_false. rewrite key_ltb_spec. lia.
    - cbn [fold_left]. unfold pick at 2.
      destruct (DatabaseManager.key_ltb (key x) (key b)) eqn:Exb.
      + destruct Hy as [<-|Hy]; [|by apply IH].
        pose proof (IH x x (or_introl eq_refl)) as Hx.
        apply not_true_is_false. intros Hlt.
        apply not_true_iff_false in Hx. apply Hx.
        exact (key_ltb_trans _ _ _ Exb Hlt).
      + destruct Hy as [<-|[<-|Hy]].
        * apply IH. by left.
        * pose proof (IH b b (or_introl eq_refl)) as Hb.
          apply not_true_iff_false in Hb, Exb.
          apply not_true_is_false.
          revert Hb Exb. rewrite !key_ltb_spec. lia.
        * apply IH. by right. }
  intros q' Hin. by apply Hfold.
Qed.

Lemma is_candidate_spec (d : Database) (chapter : Z) (diff : option Z) (q : Question) :
  In q (List.filter (DatabaseManager.is_candidate chapter diff) (questions d)) <->
  candidate d chapter diff q.
Proof.
  rewrite filter_In. unfold candidate, DatabaseManager.is_candidate,
    DatabaseManager.difficulty_given.
  rewrite andb_true_iff, Z.eqb_eq.
  destruct diff as [k|].
  - destruct (k =? 0) eqn:Ek.
    + apply Z.eqb_eq in Ek. split.
      * intros (? & ? & _). split_and!; try done. intros k' [= <-]. done.
      * intros (? & ? & _). done.
    + apply Z.eqb_neq in Ek. rewrite Z.eqb_eq. split.
      * intros (? & ? & ?). split_and!; try done. by intros k' [= <-].
      * intros (? & ? & H). split_and!; try done. by apply H.
  - split.
    + intros (? & ? & _). split_and!; done.
    + intros (? & ? & _). done.
Qed.

Lemma get_next_question_policy
    (uid chapter : Z) (diff : option Z) (w w' : World) (r : option Question) :
  DatabaseManager.get_next_question uid chapter diff w = (Ok r, w') ->
  db w' = db w /\
  match r with
  | None => forall q, ~ candidate (db w) chapter diff q
  | Some q =>
      candidate (db w) chapter diff q /\
      (forall q', candidate (db w) chapter diff q' ->
                  never_attempted (db w) uid q' -> never_attempted (db w) uid q) /\
      (forall q' t t',
         candidate (db w) chapter diff q' ->
         user_question_history (db w) !! (uid, question_id q) = Some t ->
         user_question_history (db w) !! (uid, question_id q') = Some t' ->
         t <= t')
  end.
Proof.
  unfold DatabaseManager.get_next_question. intros H.
  apply storage_Ok in H as (_ & d & Hd & ->). injection Hd as <- <-.
  split; [done|].
  set (key := DatabaseManager.order_key (db w) (random w (length (db_log w))) uid).
  set (rows := List.filter (DatabaseManager.is_candidate chapter diff) (questions (db w))).
  destruct (DatabaseManager.first_by_key key rows) as [q|] eqn:E.
  - pose proof (first_by_key_least key rows q E) as Hleast.
    apply first_by_key_In in E. split; [by apply is_candidate_spec|].
    split.
    + intros q' Hq' Hnew. apply is_candidate_spec in Hq'.
      specialize (Hleast q' Hq'). apply not_true_iff_false in Hleast.
      unfold never_attempted in *.
      destruct (user_question_history (db w) !! (uid, question_id q)) as [t|] eqn:Eh;
        [|done].
      exfalso. apply Hleast. rewrite key_ltb_spec.
      unfold key, DatabaseManager.order_key. rewrite Hnew, Eh. cbn. lia.
    + intros q' t t' Hq' Ht Ht'. apply is_candidate_spec in Hq'.
      specialize (Hleast q' Hq'). apply not_true_iff_false in Hleast.
      destruct (decide (t <= t')) as [|Hgt]; [done|].
      exfalso. apply Hleast. rewrite key_ltb_spec.
      unfold key, DatabaseManager.order_key. rewrite Ht, Ht'. cbn. lia.
  - apply first_by_key_None in E. intros q Hq.
    apply is_candidate_spec in Hq. fold rows in Hq. rewrite E in Hq. done.
Qed.

(** ** The whole effect of the engine's operations *)

Lemma calculate_final_stats_effect (sid : string) (w w' : World) (stats : FinalStats) :
  QuizSystem._calculate_final_stats sid w = (Ok stats, w') ->
  exists s,
    active_sessions w !! sid = Some s /\
    stats = stats_of s (clock w) /\
    active_sessions w' = delete sid (active_sessions w) /\
    db w' = unmarked sid (db w) /\
    db_fails w (length (db_log w)) = false.
Proof.
  unfold QuizSystem._calculate_final_stats. intros H.
  apply bind_Ok in H as (s & w1 & H1 & H).
  apply the_session_Ok in H1 as [Hs ->].
  apply bind_Ok in H as (w0 & w1 & H1 & H). injection H1 as <- <-.
  apply bind_Ok in H as (u & w1 & H1 & H). injection H as <- <-.
  unfold QuizSystem._cleanup_session in H1.
  apply bind_Ok in H1 as (? & w2 & H2 & H1). injection H2 as <- <-.
  apply storage_Ok in H1 as (Hf & d & Hd & ->). destruct u.
  injection Hd as <-. exists s. cbn. done.
Qed.

Lemma submit_answer_effect (sid : string) (qid : Z) (ans : string) (rt : Q)
    (w w' : World) (r : AnswerResponse) :
  QuizSystem.submit_answer sid qid ans rt w = (Ok (Answered r), w') ->
  exists s q s2,
    let correct := r_is_correct r in
    let points := r_points_earned r in
    active_sessions w !! sid = Some s /\
    List.find (fun q => question_id q =? qid) (questions (db w)) = Some q /\
    correct = String.eqb (lower ans) (lower (correct_option q)) /\
    points_for q correct points /\
    is_Some (questions_by_difficulty s !! difficulty q) /\
    (correct = true -> is_Some (correct_by_difficulty s !! difficulty q)) /\
    adapted (answered q correct points rt s) s2 /\
    r_current_score r = score s2 /\
    r_question_number r = current_question s2 /\
    r_total_questions r = total_questions s2 /\
    r_streak r = correct_streak s2 /\
    let d1 := recorded (db w) (user_id s) (chapter_id s) qid ans correct rt
                (difficulty q) points (clock w) in
    if total_questions s2 <=? current_question s2 then
      r_quiz_complete r = true /\
      r_final_stats r = Some (stats_of s2 (clock w)) /\
      active_sessions w' = delete sid (active_sessions w) /\
      db w' = unmarked sid d1
    else
      r_quiz_complete r = false /\ r_final_stats r = None /\
      active_sessions w' = <[sid := s2]> (active_sessions w) /\
      db w' = d1.
Proof.
  intros H. unfold QuizSystem.submit_answer in H.
  apply bind_Ok in H as (w0 & w1 & H1 & H). injection H1 as <- <-.
  destruct (active_sessions w !! sid) as [s|] eqn:Es; [|discriminate].
  apply bind_Ok in H as (oq & w1 & H1 & H).
  apply storage_Ok in H1 as (Hf1 & d & Hd & ->). injection Hd as <- <-.
  destruct (find (fun q => question_id q =? qid) (questions (db w)))
    as [q|] eqn:Eq; [|discriminate].
  set (correct := String.eqb (lower ans) (lower (correct_option q))) in *.
  apply bind_Ok in H as (points & w1 & Hp & H).
  assert (points_for q correct points /\
          w1 = set_db (db w) (set_db_log (db_log w ++ [OpSelectQuestion qid]) w))
    as [Hpts ->].
  { unfold points_for. destruct correct.
    - unfold subscript in Hp. destruct (QuizSystem.points_map !! difficulty q);
        [|discriminate]. by injection Hp as -> <-.
    - by injection Hp as <- <-. }
  apply bind_Ok in H as (u & w1 & H1 & H).
  apply with_session_Ok in H1 as (s0 & s1 & Hs0 & Hupd & ->).
  cbn in Hs0. rewrite Es in Hs0. injection Hs0 as <-. destruct u.
  apply update_session_statistics_Ok in Hupd as (Hk1 & Hk2 & ->).
  apply bind_Ok in H as (s1 & w1 & H1 & H).
  apply the_session_Ok in H1 as [Hs1 ->]. cbn in Hs1.
  rewrite lookup_insert_eq in Hs1. injection Hs1 as <-.
  apply bind_Ok in H as (u & w1 & H1 & H).
  unfold DatabaseManager.record_quiz_attempt in H1.
  apply storage_Ok in H1 as (Hf2 & d & Hd & ->). injection Hd as <-.
  cbn in H.
  apply bind_Ok in H as (u' & w1 & Hadj & H).
  apply bind_Ok in H as (s2 & w2 & H1 & H).
  apply the_session_Ok in H1 as [Hs2 ->].
  exists s, q, s2.
  assert (adapted (answered q correct points rt s) s2 /\
          active_sessions w1 = <[sid := s2]> (active_sessions w) /\
          db w1 = recorded (db w) (user_id s) (chapter_id s) qid ans correct rt
                    (difficulty q) points (clock w) /\
          clock w1 = clock w) as (Had & Hw1 & Hdb1 & Hclk).
  { unfold adapted. cbn.
    destruct (String.eqb (difficulty_mode s) "mix").
    - unfold QuizSystem._adjust_difficulty in Hadj.
      apply with_session_Ok in Hadj as (s3 & s4 & Hs3 & Hadj & ->).
      cbn in Hs3. rewrite lookup_insert_eq in Hs3. injection Hs3 as <-.
      cbn in Hs2. rewrite lookup_insert_eq in Hs2. injection Hs2 as <-.
      cbn. rewrite insert_insert_eq. destruct u'. done.
    - injection Hadj as <- <-.
      cbn in Hs2. rewrite lookup_insert_eq in Hs2. injection Hs2 as <-. done. }
  destruct (total_questions s2 <=? current_question s2) eqn:Ec.
  - apply bind_Ok in H as (stats & w3 & Hst & H). injection H as <- <-.
    apply calculate_final_stats_effect in Hst as (s5 & Hs5 & -> & Hd1 & Hd2 & _).
    rewrite Hs2 in Hs5. injection Hs5 as <-.
    cbn -[Z.leb]. rewrite Hd1, Hd2, Hw1, Hdb1, Hclk.
    split_and!; try done. by rewrite delete_insert_eq.
  - injection H as <- <-. cbn -[Z.leb]. split_and!; done.
Qed.

(** ** Selection and repetition *)

(** X1. The selection of [DatabaseManager.get_next_question]: the question
    returned is a candidate (of the chapter, at the difficulty when one is
    given); it has never been attempted by the participant if some
    candidate has never been; otherwise no candidate was attempted longer
    ago. Nothing is returned only when there is no candidate, and the
    database is not changed. *)
Theorem selection_prefers_unattempted
    (uid chapter : Z) (diff : option Z) (w w' : World) (r : option Question) :
  DatabaseManager.get_next_question uid chapter diff w = (Ok r, w') ->
  db w' = db w /\
  match r with
  | None => forall q, ~ candidate (db w) chapter diff q
  | Some q =>
      candidate (db w) chapter diff q /\
      (forall q', candidate (db w) chapter diff q' ->
                  never_attempted (db w) uid q' -> never_attempted (db w) uid q) /\
      (forall q' t t',
         candidate (db w) chapter diff q' ->
         user_question_history (db w) !! (uid, question_id q) = Some t ->
         user_question_history (db w) !! (uid, question_id q') = Some t' ->
         t <= t')
  end.
Proof. apply get_next_question_policy. Qed.

Lemma selection_prefers_unattempted_witness :
  db (snd (DatabaseManager.get_next_question 5 7 None w_first)) = db w_first /\
  (candidate (db w_first) 7 None q2 /\
   (forall q', candidate (db w_first) 7 None q' ->
               never_attempted (db w_first) 5 q' -> never_attempted (db w_first) 5 q2) /\
   (forall q' t t',
      candidate (db w_first) 7 None q' ->
      user_question_history (db w_first) !! (5, question_id q2) = Some t ->
      user_question_history (db w_first) !! (5, question_id q') = Some t' ->
      t <= t')).
Proof.
  apply (selection_prefers_unattempted 5 7 None w_first
           (snd (DatabaseManager.get_next_question 5 7 None w_first)) (Some q2)).
  vm_compute. reflexivity.
Defined.

Lemma adapted_identity (s1 s2 : Session) :
  adapted s1 s2 ->
  user_id s2 = user_id s1 /\ chapter_id s2 = chapter_id s1 /\
  started_at s2 = started_at s1.
Proof.
  unfold adapted. destruct (String.eqb (difficulty_mode s1) "mix").
  - intros H. apply adjust_session_only_difficulty in H. rewrite H. done.
  - intros ->. done.
Qed.

(** What a question fetch that returns a question has done. *)
Lemma engine_next_question_Some (sid : string) (w w' : World) (nq : NextQuestion) :
  QuizSystem.get_next_question sid w = (Ok (Some nq), w') ->
  exists s,
    active_sessions w !! sid = Some s /\
    current_question s < total_questions s /\
    active_sessions w' = active_sessions w /\
    db w' = db w /\
    nq_session_id nq = sid /\
    nq_question_number nq = current_question s + 1 /\
    nq_total_questions nq = total_questions s /\
    nq_current_difficulty nq = current_difficulty s /\
    (DatabaseManager.get_next_question (user_id s) (chapter_id s)
       (Some (current_difficulty s)) w = (Ok (Some (nq_question nq)), w') \/
     exists w1,
       DatabaseManager.get_next_question (user_id s) (chapter_id s)
         (Some (current_difficulty s)) w = (Ok None, w1) /\
       DatabaseManager.get_next_question (user_id s) (chapter_id s) None w1
         = (Ok (Some (nq_question nq)), w')).
Proof.
  unfold QuizSystem.get_next_question. intros H.
  apply bind_Ok in H as (w0 & w1 & H1 & H). injection H1 as <- <-.
  destruct (active_sessions w !! sid) as [s|] eqn:Es; [|discriminate].
  destruct (total_questions s <=? current_question s) eqn:Ec; [discriminate|].
  apply Z.leb_gt in Ec.
  apply bind_Ok in H as (o1 & w1 & H1 & H).
  pose proof H1 as H1'.
  apply get_next_question_policy in H1' as [Hdb1 _].
  assert (active_sessions w1 = active_sessions w) as Hs1.
  { unfold DatabaseManager.get_next_question in H1.
    apply storage_Ok in H1 as (_ & d & _ & ->). done. }
  destruct o1 as [q|].
  - apply bind_Ok in H as (o2 & w2 & H2 & H). injection H2 as <- <-.
    injection H as <- <-. exists s. cbn. split_and!; try done. by left.
  - apply bind_Ok in H as (o2 & w2 & H2 & H).
    pose proof H2 as H2'.
    apply get_next_question_policy in H2' as [Hdb2 _].
    assert (active_sessions w2 = active_sessions w1) as Hs2.
    { unfold DatabaseManager.get_next_question in H2.
      apply storage_Ok in H2 as (_ & d & _ & ->). done. }
    destruct o2 as [q|]; [|discriminate].
    injection H as <- <-. exists s. cbn.
    split_and!; try done; [congruence | congruence |]. right. eauto.
Qed.

(** X2. The question a participant has just answered is not served to the
    session again while a question of the chapter at the session's
    difficulty remains that the participant has never attempted. *)
Theorem answered_question_not_repeated
    (sid : string) (qid : Z) (ans : string) (rt : Q) (w w1 w2 : World)
    (r : AnswerResponse) (s1 : Session) (nq : NextQuestion) (q' : Question) :
  QuizSystem.submit_answer sid qid ans rt w = (Ok (Answered r), w1) ->
  active_sessions w1 !! sid = Some s1 ->
  candidate (db w1) (chapter_id s1) (Some (current_difficulty s1)) q' ->
  never_attempted (db w1) (user_id s1) q' ->
  QuizSystem.get_next_question sid w1 = (Ok (Some nq), w2) ->
  question_id (nq_question nq) <> qid /\
  never_attempted (db w1) (user_id s1) (nq_question nq) /\
  candidate (db w1) (chapter_id s1) (Some (current_difficulty s1)) (nq_question nq).
Proof.
  intros Hsub Hs1 Hcand Hnew Hnext.
  apply submit_answer_effect in Hsub
    as (s & q & s2 & _ & _ & _ & _ & _ & _ & Had & _ & _ & _ & _ & Hfin).
  apply adapted_identity in Had as (Huid & _ & _). cbn in Huid.
  assert (s1 = s2 /\
          user_question_history (db w1) !! (user_id s, qid) = Some (clock w))
    as [-> Hhist].
  { destruct (total_questions s2 <=? current_question s2).
    - destruct Hfin as (_ & _ & Hdel & _). rewrite Hdel in Hs1.
      by rewrite lookup_delete_eq in Hs1.
    - destruct Hfin as (_ & _ & Hins & ->). rewrite Hins in Hs1.
      rewrite lookup_insert_eq in Hs1. injection Hs1 as <-.
      split; [done|]. cbn. apply lookup_insert_eq. }
  apply engine_next_question_Some in Hnext
    as (s' & Hs' & _ & _ & _ & _ & _ & _ & _ & Hq).
  rewrite Hs1 in Hs'. injection Hs' as <-.
  assert (candidate (db w1) (chapter_id s2) (Some (current_difficulty s2))
            (nq_question nq) /\
          never_attempted (db w1) (user_id s2) (nq_question nq)) as [Hc Hn].
  { destruct Hq as [Hq|(w3 & Hq & _)].
    - apply get_next_question_policy in Hq as (_ & Hc & Hpref & _).
      split; [done|]. by apply (Hpref q').
    - apply get_next_question_policy in Hq as (_ & Hnone).
      exfalso. exact (Hnone q' Hcand). }
  split_and!; try done.
  intros Heq. unfold never_attempted in Hn.
  rewrite Heq, Huid in Hn. congruence.
Qed.

Lemma answered_question_not_repeated_witness :
  question_id (nq_question nq_v) <> 1 /\
  never_attempted (db v_first) (user_id s_v_first) (nq_question nq_v) /\
  candidate (db v_first) (chapter_id s_v_first)
    (Some (current_difficulty s_v_first)) (nq_question nq_v).
Proof.
  apply (answered_question_not_repeated "session-0" 1 "b" 3 v_started v_first
           (snd (QuizSystem.get_next_question "session-0" v_first))
           r_v_first s_v_first nq_v q5).
  - vm_compute. reflexivity.
  - vm_compute. reflexivity.
  - split_and!; [vm_compute; auto 10 | reflexivity | intros k [= <-] _; reflexivity].
  - vm_compute. reflexivity.
  - vm_compute. reflexivity.
Defined.

(** ** What the operations do to the live table, whatever their outcome *)

Lemma bind_any {St A B} (m : M St A) (k : A -> M St B) (s s' : St) (r : outcome B) :
  bind m k s = (r, s') ->
  (exists a s1, m s = (Ok a, s1) /\ k a s1 = (r, s')) \/
  (exists e, m s = (Raise e, s') /\ r = Raise e).
Proof.
  unfold bind. destruct (m s) as [[a|e] s1]; intros H.
  - left. eauto.
  - right. injection H as <- <-. eauto.
Qed.

Lemma storage_any {A} (op : DbOp) (run : World -> Database -> outcome A * Database)
    (w w' : World) (r : outcome A) :
  storage op run w = (r, w') ->
  active_sessions w' = active_sessions w /\
  ((r = Raise StorageError /\ db w' = db w) \/
   (exists d, run w (db w) = (r, d) /\ db w' = d)).
Proof.
  unfold storage. destruct (db_fails w (length (db_log w))).
  - intros [= <- <-]. split; [done|]. by left.
  - destruct (run w (db w)) as [r0 d] eqn:E. intros [= <- <-].
    split; [done|]. right. eauto.
Qed.

Lemma with_session_any {A} (sid : string) (m : M Session A) (w w' : World)
    (r : outcome A) :
  with_session sid m w = (r, w') ->
  (active_sessions w !! sid = None /\ w' = w /\ r = Raise (KeyErrorStr sid)) \/
  (exists s s', active_sessions w !! sid = Some s /\ m s = (r, s') /\
                w' = set_active_sessions (<[sid := s']> (active_sessions w)) w).
Proof.
  unfold with_session. destruct (active_sessions w !! sid) as [s|].
  - destruct (m s) as [r0 s'] eqn:E. intros [= <- <-]. right. eauto.
  - intros [= <- <-]. by left.
Qed.

Lemma the_session_any (sid : string) (w w' : World) (r : outcome Session) :
  the_session sid w = (r, w') -> w' = w.
Proof.
  unfold the_session. destruct (active_sessions w !! sid); by intros [= <- <-].
Qed.

Lemma calculate_final_stats_any (sid : string) (w w' : World) (r : outcome FinalStats) :
  QuizSystem._calculate_final_stats sid w = (r, w') ->
  active_sessions w' = active_sessions w \/
  active_sessions w' = delete sid (active_sessions w).
Proof.
  unfold QuizSystem._calculate_final_stats, QuizSystem._cleanup_session. intros H.
  apply bind_any in H as [(s & w1 & H1 & H)|(e & H1 & _)];
    [|apply the_session_any in H1 as ->; by left].
  apply the_session_any in H1 as ->.
  apply bind_any in H as [(w0 & w1 & H1 & H)|(e & H1 & _)]; [|discriminate].
  injection H1 as <- <-.
  apply bind_any in H as [(u & w1 & H1 & H)|(e & H1 & _)].
  - injection H as <- <-.
    apply bind_any in H1 as [(u' & w2 & H2 & H1)|(e & H2 & _)]; [|discriminate].
    injection H2 as <- <-. apply storage_any in H1 as [Hs _]. right. by rewrite Hs.
  - apply bind_any in H1 as [(u' & w2 & H2 & H1)|(e' & H2 & _)]; [|discriminate].
    injection H2 as <- <-. apply storage_any in H1 as [Hs _]. right. by rewrite Hs.
Qed.

(** The live table after [submit_answer], whatever it returned or raised:
    unchanged, or the session has made one scoring step and is kept or
    removed. *)
Lemma submit_answer_table (sid : string) (qid : Z) (ans : string) (rt : Q)
    (w w' : World) (r : outcome SubmitResult) :
  QuizSystem.submit_answer sid qid ans rt w = (r, w') ->
  active_sessions w' = active_sessions w \/
  exists s q s',
    active_sessions w !! sid = Some s /\
    List.find (fun q => question_id q =? qid) (questions (db w)) = Some q /\
    step_session q ans rt s s' /\
    (active_sessions w' = <[sid := s']> (active_sessions w) \/
     active_sessions w' = delete sid (active_sessions w)).
Proof.
  intros H. unfold QuizSystem.submit_answer in H.
  apply bind_any in H as [(w0 & w1 & H1 & H)|(e & H1 & _)]; [|discriminate].
  injection H1 as <- <-.
  destruct (active_sessions w !! sid) as [s|] eqn:Es;
    [|injection H as <- <-; by left].
  apply bind_any in H as [(oq & w1 & H1 & H)|(e & H1 & _)];
    [|apply storage_any in H1 as [? _]; by left].
  pose proof H1 as H1'. apply storage_any in H1' as [Hs1 _].
  apply storage_Ok in H1 as (_ & d & Hd & Hw1). injection Hd as <- <-.
  destruct (find (fun q => question_id q =? qid) (questions (db w)))
    as [q|] eqn:Eq; [|injection H as <- <-; by left].
  set (correct := String.eqb (lower ans) (lower (correct_option q))) in *.
  apply bind_any in H as [(points & w2 & Hp & H)|(e & Hp & _)]; cycle 1.
  { left. destruct correct; [|discriminate].
    unfold subscript in Hp. destruct (QuizSystem.points_map !! difficulty q);
      [discriminate|]. injection Hp as _ <-. done. }
  assert (points_for q correct points /\ w2 = w1) as [Hpts ->].
  { unfold points_for. destruct correct.
    - unfold subscript in Hp. destruct (QuizSystem.points_map !! difficulty q);
        [|discriminate]. by injection Hp as -> <-.
    - by injection Hp as <- <-. }
  right.
  enough (exists s', step_session q ans rt s s' /\
            (active_sessions w' = <[sid := s']> (active_sessions w) \/
             active_sessions w' = delete sid (active_sessions w)))
    as (s' & ? & ?) by (exists s, q, s'; done).
  apply bind_any in H as [(u & w2 & Hu & H)|(e & Hu & _)]; cycle 1.
  { apply with_session_any in Hu as [(Hn & _)|(s0 & s1 & Hs0 & Hupd & ->)].
    - rewrite Hs1, Es in Hn. discriminate.
    - rewrite Hs1, Es in Hs0. injection Hs0 as <-.
      exists s1. split.
      + exists points, (Raise e), s1. split_and!; try done. by left.
      + left. cbn. by rewrite Hs1. }
  apply with_session_Ok in Hu as (s0 & s1 & Hs0 & Hupd & ->).
  rewrite Hs1, Es in Hs0. injection Hs0 as <-. destruct u.
  assert (forall w3 : World,
            active_sessions w3 = <[sid := s1]> (active_sessions w) ->
            exists s', step_session q ans rt s s' /\
              (active_sessions w3 = <[sid := s']> (active_sessions w) \/
               active_sessions w3 = delete sid (active_sessions w)))
    as Hkeep.
  { intros w3 Hw3. exists s1. split; [|by left].
    exists points, (Ok tt), s1. split_and!; try done. by left. }
  apply bind_any in H as [(s1' & w2 & Hr & H)|(e & Hr & _)]; cycle 1.
  { apply the_session_any in Hr as ->. apply Hkeep. cbn. by rewrite Hs1. }
  apply the_session_Ok in Hr as [Hs1' ->]. cbn in Hs1'.
  rewrite lookup_insert_eq in Hs1'. injection Hs1' as <-.
  apply bind_any in H as [(u & w2 & Hrec & H)|(e & Hrec & _)]; cycle 1.
  { unfold DatabaseManager.record_quiz_attempt in Hrec.
    apply storage_any in Hrec as [Hs2 _].
    apply Hkeep. rewrite Hs2. cbn. by rewrite Hs1. }
  unfold DatabaseManager.record_quiz_attempt in Hrec.
  apply storage_any in Hrec as [Hs2 _]. cbn in Hs2. rewrite Hs1 in Hs2.
  apply bind_any in H as [(u' & w3 & Hadj & H)|(e & Hadj & _)]; cycle 1.
  { destruct (String.eqb (difficulty_mode s1) "mix") eqn:Em; [|discriminate].
    apply String.eqb_eq in Em.
    unfold QuizSystem._adjust_difficulty in Hadj.
    apply with_session_any in Hadj as [(Hn & _)|(s3 & s4 & Hs3 & Ha & ->)].
    - rewrite Hs2, lookup_insert_eq in Hn. discriminate.
    - rewrite Hs2, lookup_insert_eq in Hs3. injection Hs3 as <-.
      exists s4. split.
      + exists points, (Ok tt), s1. split_and!; try done. right. eauto.
      + left. cbn. rewrite Hs2. by rewrite insert_insert_eq. }
  assert (exists s2, step_session q ans rt s s2 /\
                     active_sessions w3 = <[sid := s2]> (active_sessions w))
    as (s2 & Hstep & Hs3).
  { destruct (String.eqb (difficulty_mode s1) "mix") eqn:Em.
    - apply String.eqb_eq in Em.
      unfold QuizSystem._adjust_difficulty in Hadj.
      apply with_session_Ok in Hadj as (s3 & s4 & Hs3 & Ha & ->).
      rewrite Hs2, lookup_insert_eq in Hs3. injection Hs3 as <-.
      exists s4. split.
      + exists points, (Ok tt), s1. split_and!; try done. right. eauto.
      + cbn. rewrite Hs2. by rewrite insert_insert_eq.
    - injection Hadj as _ <-. exists s1. split; [|done].
      exists points, (Ok tt), s1. split_and!; try done. by left. }
  exists s2. split; [done|].
  apply bind_any in H as [(s2' & w4 & Hr & H)|(e & Hr & _)];
    [|apply the_session_any in Hr as ->; by left].
  apply the_session_any in Hr as ->.
  destruct (total_questions s2' <=? current_question s2').
  - apply bind_any in H as [(st & w4 & Hst & H)|(e & Hst & _)].
    + injection H as _ <-.
      apply calculate_final_stats_any in Hst as [->| ->]; rewrite Hs3;
        [by left | right; by rewrite delete_insert_eq].
    + apply calculate_final_stats_any in Hst as [->| ->]; rewrite Hs3;
        [by left | right; by rewrite delete_insert_eq].
  - injection H as _ <-. by left.
Qed.

Lemma start_quiz_any (uid chapter : Z) (mode : string) (total : Z)
    (w w' : World) (r : outcome string) :
  QuizSystem.start_quiz uid chapter mode total w = (r, w') ->
  let sid := uuids w (uuid_calls w) in
  (exists e, r = Raise e /\
             active_sessions w' = active_sessions w /\ db w' = db w /\
             (e = ValueError mode \/ e = StorageError \/
              (e = IntegrityError sid /\ is_Some (active_quizzes (db w) !! sid)))) \/
  (exists cur,
     r = Ok sid /\
     active_quizzes (db w) !! sid = None /\
     active_sessions w' =
       <[sid := mkSession uid chapter 0 total 0 0 0 mode cur
                  {[1 := 0; 2 := 0; 3 := 0]} {[1 := 0; 2 := 0; 3 := 0]} []
                  (clock w)]> (active_sessions w) /\
     db w' = mkDatabase (users (db w)) (chapters (db w)) (questions (db w))
               (quiz_attempts (db w)) (user_question_history (db w))
               (<[sid := mkActiveQuiz uid chapter cur total (clock w)]>
                  (active_quizzes (db w))) /\
     (if String.eqb mode "mix" then cur = 1 else int_of_str mode = Some cur)).
Proof.
  unfold QuizSystem.start_quiz. intros H. cbv zeta.
  apply bind_any in H as [(w0 & w1 & H1 & H)|(e & H1 & _)]; [|discriminate].
  injection H1 as <- <-.
  apply bind_any in H as [(u & w1 & H1 & H)|(e & H1 & _)]; [|discriminate].
  injection H1 as _ <-.
  set (w1 := set_uuid_calls (S (uuid_calls w)) w) in *.
  apply bind_any in H as [(cur & w2 & Hcur & H)|(e & Hcur & Hr)]; cycle 1.
  { subst r. left. exists e. destruct (String.eqb mode "mix"); [discriminate|].
    destruct (int_of_str mode); [discriminate|].
    injection Hcur as <- <-. split_and!; auto. }
  assert (w2 = w1 /\
          (if String.eqb mode "mix" then cur = 1 else int_of_str mode = Some cur))
    as [-> Hmode].
  { destruct (String.eqb mode "mix").
    - by injection Hcur as <- <-.
    - destruct (int_of_str mode); [|discriminate]. by injection Hcur as <- <-. }
  apply bind_any in H as [(u' & w2 & Hins & H)|(e & Hins & Hr)]; cycle 1.
  { subst r. left. exists e. apply storage_any in Hins as [Hs [[He Hd]|(d & Hd & Hd')]].
    - injection He as ->. split_and!; auto.
    - cbn in Hd. destruct (active_quizzes (db w) !! uuids w (uuid_calls w)) eqn:Em;
        [|discriminate].
      injection Hd as <- <-. split_and!; try done. right. right. eauto. }
  apply storage_Ok in Hins as (_ & d & Hd & ->). cbn in Hd.
  destruct (active_quizzes (db w) !! uuids w (uuid_calls w)) eqn:Em; [discriminate|].
  injection Hd as _ <-.
  apply bind_any in H as [(w3 & w4 & H1 & H)|(e & H1 & _)]; [|discriminate].
  injection H1 as <- <-.
  apply bind_any in H as [(u'' & w4 & H1 & H)|(e & H1 & _)]; [|discriminate].
  injection H1 as _ <-. injection H as <- <-.
  right. exists cur. cbn. done.
Qed.

Lemma get_next_question_any (sid : string) (w w' : World)
    (r : outcome (option NextQuestion)) :
  QuizSystem.get_next_question sid w = (r, w') ->
  active_sessions w' = active_sessions w /\ db w' = db w.
Proof.
  unfold QuizSystem.get_next_question, DatabaseManager.get_next_question. intros H.
  apply bind_any in H as [(w0 & w1 & H1 & H)|(e & H1 & _)]; [|discriminate].
  injection H1 as <- <-.
  destruct (active_sessions w !! sid) as [s|]; [|by injection H as _ <-].
  destruct (total_questions s <=? current_question s); [by injection H as _ <-|].
  assert (forall uid ch diff (w1 w2 : World) (o : outcome (option Question)),
            storage (OpNextQuestion uid ch diff) (fun w d =>
              let rows := List.filter (DatabaseManager.is_candidate ch diff) (questions d) in
              (Ok (DatabaseManager.first_by_key
                     (DatabaseManager.order_key d (random w (length (db_log w))) uid)
                     rows), d)) w1 = (o, w2) ->
            active_sessions w2 = active_sessions w1 /\ db w2 = db w1) as Hq.
  { intros uid ch diff w1 w2 o Hst.
    apply storage_any in Hst as [Hs [[_ Hd]|(d & Hd & Hd')]]; [done|].
    injection Hd as _ <-. done. }
  apply bind_any in H as [(o1 & w1 & H1 & H)|(e & H1 & _)]; [|by apply Hq in H1].
  apply Hq in H1 as [Hs1 Hd1].
  apply bind_any in H as [(o2 & w2 & H2 & H)|(e & H2 & _)].
  - assert (active_sessions w2 = active_sessions w1 /\ db w2 = db w1) as [Hs2 Hd2].
    { destruct o1; [by injection H2 as _ <-|]. by apply Hq in H2. }
    destruct o2; injection H as _ <-; split; congruence.
  - destruct o1; [discriminate|]. apply Hq in H2 as [? ?]. split; congruence.
Qed.

Lemma end_quiz_any (sid : string) (w w' : World) (r : outcome EndResult) :
  QuizSystem.end_quiz sid w = (r, w') ->
  active_sessions w' = active_sessions w \/
  active_sessions w' = delete sid (active_sessions w).
Proof.
  unfold QuizSystem.end_quiz. intros H.
  apply bind_any in H as [(w0 & w1 & H1 & H)|(e & H1 & _)]; [|discriminate].
  injection H1 as <- <-.
  destruct (active_sessions w !! sid); [|injection H as _ <-; by left].
  apply bind_any in H as [(st & w1 & H1 & H)|(e & H1 & _)].
  - injection H as _ <-. by apply calculate_final_stats_any in H1.
  - by apply calculate_final_stats_any in H1.
Qed.

(** Every entry of the live table after a call was there before, or is
    the session a successful [start_quiz] has created, or is a session that
    [submit_answer] has taken through one scoring step. *)
Lemma exec_sessions (c : Call) (w : World) (sid0 : string) (s0 : Session) :
  active_sessions (exec c w) !! sid0 = Some s0 ->
  active_sessions w !! sid0 = Some s0 \/
  (exists uid chapter mode total cur,
     c = CallStart uid chapter mode total /\
     s0 = mkSession uid chapter 0 total 0 0 0 mode cur
            {[1 := 0; 2 := 0; 3 := 0]} {[1 := 0; 2 := 0; 3 := 0]} [] (clock w) /\
     (if String.eqb mode "mix" then cur = 1 else int_of_str mode = Some cur)) \/
  (exists qid ans rt s q,
     c = CallSubmit sid0 qid ans rt /\
     active_sessions w !! sid0 = Some s /\
     In q (questions (db w)) /\
     step_session q ans rt s s0).
Proof.
  destruct c as [uid chapter mode total|sid|sid qid ans rt|sid|sid];
    cbv beta iota delta [exec].
  - destruct (QuizSystem.start_quiz uid chapter mode total w) as [r w'] eqn:E.
    cbn [snd]. apply start_quiz_any in E as [(e & _ & Hs & _)|(cur & _ & _ & Hs & _ & Hm)].
    + rewrite Hs. by left.
    + rewrite Hs. destruct (decide (uuids w (uuid_calls w) = sid0)) as [<-|Hne].
      * rewrite lookup_insert_eq. intros [= <-]. right. left. eauto 10.
      * rewrite lookup_insert_ne by done. by left.
  - destruct (QuizSystem.get_next_question sid w) as [r w'] eqn:E. cbn [snd].
    apply get_next_question_any in E as [-> _]. by left.
  - destruct (QuizSystem.submit_answer sid qid ans rt w) as [r w'] eqn:E. cbn [snd].
    apply submit_answer_table in E as [->|(s & q & s' & Hs & Hq & Hstep & [->| ->])].
    + by left.
    + destruct (decide (sid = sid0)) as [<-|Hne].
      * rewrite lookup_insert_eq. intros [= <-]. right. right.
        apply find_some in Hq as [Hin _]. eauto 10.
      * rewrite lookup_insert_ne by done. by left.
    + intros H. apply lookup_delete_Some in H as [_ H]. by left.
  - destruct (QuizSystem.end_quiz sid w) as [r w'] eqn:E. cbn [snd].
    apply end_quiz_any in E as [->| ->]; [by left|].
    intros H. apply lookup_delete_Some in H as [_ H]. by left.
  - cbn. by left.
Qed.

(** ** Invariants of the tallies and of the difficulty *)

Lemma sum_values_three (a b c : Z) :
  sum_values {[1 := a; 2 := b; 3 := c]} = a + b + c.
Proof. vm_compute. destruct a, b, c; reflexivity. Qed.

Lemma update_session_statistics_frame (q : Question) (correct : bool)
    (points : Z) (rt : Q) (s s1 : Session) (r : outcome unit) :
  QuizSystem.update_session_statistics q correct points rt s = (r, s1) ->
  difficulty_mode s1 = difficulty_mode s /\
  current_difficulty s1 = current_difficulty s /\
  user_id s1 = user_id s /\ chapter_id s1 = chapter_id s /\
  total_questions s1 = total_questions s /\ started_at s1 = started_at s.
Proof.
  unfold QuizSystem.update_session_statistics, subscript,
    bind, ret, raise, get, modify.
  destruct s; cbn.
  repeat (case_match; cbn); intros ?; simplify_eq; done.
Qed.

Lemma step_session_fits (q : Question) (ans : string) (rt : Q) (s s' : Session) :
  difficulty_fits_mode s -> step_session q ans rt s s' -> difficulty_fits_mode s'.
Proof.
  intros Hfit (points & r1 & s1 & _ & Hupd & Hs').
  apply update_session_statistics_frame in Hupd as (Hm & Hcd & _).
  assert (difficulty_fits_mode s1) as Hfit1.
  { unfold difficulty_fits_mode in *. by rewrite Hm, Hcd. }
  destruct Hs' as [->|(_ & Hmix & ra & Hadj)]; [done|].
  pose proof (adjust_session_only_difficulty _ _ _ Hadj) as Hs'.
  unfold difficulty_fits_mode in *. rewrite Hs'. cbn. rewrite Hmix in *. cbn in *.
  revert Hadj.
  unfold QuizSystem.adjust_session, subscript, bind, ret, raise, get, modify.
  destruct s1; cbn in *.
  repeat (case_match; cbn); intros ?; simplify_eq; cbn; lia.
Qed.

Lemma bump_three (d n1 n2 n3 : Z) :
  1 <= d <= 3 ->
  bump d {[1 := n1; 2 := n2; 3 := n3]} =
  {[1 := n1 + (if d =? 1 then 1 else 0);
    2 := n2 + (if d =? 2 then 1 else 0);
    3 := n3 + (if d =? 3 then 1 else 0)]}.
Proof.
  intros Hd. assert (d = 1 \/ d = 2 \/ d = 3) as [-> | [-> | ->]] by lia;
    unfold bump; simplify_map_eq; cbn; rewrite ?Z.add_0_r;
    apply map_eq; intros k;
    destruct (decide (k = 1)) as [->|]; try (by simplify_map_eq);
    destruct (decide (k = 2)) as [->|]; try (by simplify_map_eq);
    destruct (decide (k = 3)) as [->|]; by simplify_map_eq.
Qed.

Lemma points_of_level (q : Question) (points : Z) :
  QuizSystem.points_map !! difficulty q = Some points ->
  1 <= difficulty q <= 3 /\ points = difficulty q.
Proof.
  unfold QuizSystem.points_map, POINTS_EASY, POINTS_MEDIUM, POINTS_HARD.
  intros H.
  destruct (decide (difficulty q = 1)) as [E|N1]; [rewrite E in *; by simplify_map_eq|].
  destruct (decide (difficulty q = 2)) as [E|N2]; [rewrite E in *; by simplify_map_eq|].
  destruct (decide (difficulty q = 3)) as [E|N3]; [rewrite E in *; by simplify_map_eq|].
  by simplify_map_eq.
Qed.

Lemma step_session_tallies (q : Question) (ans : string) (rt : Q) (s s' : Session) :
  1 <= difficulty q <= 3 ->
  session_tallies s -> step_session q ans rt s s' -> session_tallies s'.
Proof.
  intros Hd (n1 & n2 & n3 & c1 & c2 & c3 & Hn & Hc & H1 & H2 & H3 & Hsum & Hlen & Hsc)
         (points & r1 & s1 & Hpts & Hupd & Hs').
  set (correct := String.eqb (lower ans) (lower (correct_option q))) in *.
  assert (r1 = Ok tt /\ s1 = answered q correct points rt s) as [-> ->].
  { destruct (QuizSystem.update_session_statistics q correct points rt s)
      as [r0 s0] eqn:E.
    assert (QuizSystem.update_session_statistics q correct points rt s =
              (Ok tt, answered q correct points rt s)) as E'.
    { apply update_session_statistics_Ok. split_and!; [| |done].
      - rewrite Hn.
        assert (difficulty q = 1 \/ difficulty q = 2 \/ difficulty q = 3)
          as [-> | [-> | ->]] by lia; by simplify_map_eq.
      - intros _. rewrite Hc.
        assert (difficulty q = 1 \/ difficulty q = 2 \/ difficulty q = 3)
          as [-> | [-> | ->]] by lia; by simplify_map_eq. }
    rewrite E' in E. injection E as <- <-. by injection Hupd as <- <-. }
  assert (session_tallies (answered q correct points rt s)) as Hans.
  { unfold answered. unfold points_for in Hpts.
    destruct correct.
    - apply points_of_level in Hpts as [_ ->].
      exists (n1 + (if difficulty q =? 1 then 1 else 0)),
             (n2 + (if difficulty q =? 2 then 1 else 0)),
             (n3 + (if difficulty q =? 3 then 1 else 0)),
             (c1 + (if difficulty q =? 1 then 1 else 0)),
             (c2 + (if difficulty q =? 2 then 1 else 0)),
             (c3 + (if difficulty q =? 3 then 1 else 0)).
      cbn. rewrite Hn, Hc, !bump_three by done. rewrite length_app. cbn.
      assert (difficulty q = 1 \/ difficulty q = 2 \/ difficulty q = 3)
        as [-> | [-> | ->]] by lia; cbn; split_and!; try done; lia.
    - subst points.
      exists (n1 + (if difficulty q =? 1 then 1 else 0)),
             (n2 + (if difficulty q =? 2 then 1 else 0)),
             (n3 + (if difficulty q =? 3 then 1 else 0)), c1, c2, c3.
      cbn. rewrite Hn, Hc, !bump_three by done. rewrite length_app. cbn.
      assert (difficulty q = 1 \/ difficulty q = 2 \/ difficulty q = 3)
        as [-> | [-> | ->]] by lia; cbn; split_and!; try done; lia. }
  destruct Hs' as [->|(_ & _ & ra & Hadj)]; [done|].
  apply adjust_session_only_difficulty in Hadj. rewrite Hadj.
  destruct Hans as (m1 & m2 & m3 & d1 & d2 & d3 & ?).
  exists m1, m2, m3, d1, d2, d3. done.
Qed.

Lemma fresh_session_tallies (uid chapter total cur : Z) (mode : string) (now : Z) :
  session_tallies (mkSession uid chapter 0 total 0 0 0 mode cur
                     {[1 := 0; 2 := 0; 3 := 0]} {[1 := 0; 2 := 0; 3 := 0]} [] now).
Proof. exists 0, 0, 0, 0, 0, 0. cbn. split_and!; done. Qed.

Lemma reachable_checked_tallies (w : World) :
  reachable_checked w ->
  forall sid s, active_sessions w !! sid = Some s -> session_tallies s.
Proof.
  induction 1 as [w H | w c _ IH Hchk | w w' _ IH Heq]; intros sid s Hs.
  - rewrite H in Hs. by rewrite lookup_empty in Hs.
  - apply exec_sessions in Hs
      as [Hs|[(uid & ch & mode & total & cur & _ & -> & _)
             |(qid & ans & rt & s0 & q & _ & Hs0 & Hin & Hstep)]].
    + by eapply IH.
    + apply fresh_session_tallies.
    + eapply step_session_tallies; [by apply Hchk | by eapply IH | done].
  - rewrite Heq in Hs. by eapply IH.
Qed.

Lemma reachable_fits (w : World) :
  reachable w ->
  forall sid s, active_sessions w !! sid = Some s -> difficulty_fits_mode s.
Proof.
  induction 1 as [w H | w c _ IH | w w' _ IH Heq]; intros sid s Hs.
  - rewrite H in Hs. by rewrite lookup_empty in Hs.
  - apply exec_sessions in Hs
      as [Hs|[(uid & ch & mode & total & cur & _ & -> & Hm)
             |(qid & ans & rt & s0 & q & _ & Hs0 & Hin & Hstep)]].
    + by eapply IH.
    + unfold difficulty_fits_mode. cbn.
      destruct (String.eqb mode "mix"); [lia | done].
    + eapply step_session_fits; [by eapply IH | done].
  - rewrite Heq in Hs. by eapply IH.
Qed.

Lemma db0_checked (d : Database) : questions d = questions db0 -> checked d.
Proof.
  intros Hq q Hin. rewrite Hq in Hin. cbn in Hin.
  destruct Hin as [<-|[<-|[<-|[<-|[]]]]]; cbn; lia.
Qed.

Lemma w_five_2_reachable_checked : reachable_checked w_five_2.
Proof.
  apply (rc_call _ (CallSubmit "session-0" 1 "b" 2)).
  - apply (rc_call _ (CallSubmit "session-0" 1 "B" 2)).
    + apply (rc_call w0 (CallStart 5 7 "mix" 5)).
      * by apply rc_init.
      * by apply db0_checked.
    + apply db0_checked. vm_compute. reflexivity.
  - apply db0_checked. vm_compute. reflexivity.
Qed.

(** X3. While the question table satisfies its CHECK constraint, the
    tallies of every live session agree: the per-level answer counts add
    up to the questions answered, there is one response time per question
    answered, at each level the correct answers are between 0 and the
    answers, and the score is the points of the correct answers (one, two
    or three per level), hence between 0 and three times the questions
    answered. *)
Theorem session_tallies_agree (w : World) (sid : string) (s : Session) :
  reachable_checked w ->
  active_sessions w !! sid = Some s ->
  sum_values (questions_by_difficulty s) = current_question s /\
  Z.of_nat (length (response_times s)) = current_question s /\
  (forall d, 1 <= d <= 3 ->
     exists n c, questions_by_difficulty s !! d = Some n /\
                 correct_by_difficulty s !! d = Some c /\ 0 <= c <= n) /\
  (exists c1 c2 c3,
     correct_by_difficulty s !! 1 = Some c1 /\
     correct_by_difficulty s !! 2 = Some c2 /\
     correct_by_difficulty s !! 3 = Some c3 /\
     score s = c1 + 2 * c2 + 3 * c3) /\
  0 <= score s <= 3 * current_question s.
Proof.
  intros Hr Hs.
  destruct (reachable_checked_tallies w Hr sid s Hs)
    as (n1 & n2 & n3 & c1 & c2 & c3 & Hn & Hc & H1 & H2 & H3 & Hsum & Hlen & Hsc).
  rewrite Hn, Hc, sum_values_three. split_and!; try done; try lia.
  - intros d Hd.
    assert (d = 1 \/ d = 2 \/ d = 3) as [-> | [-> | ->]] by lia;
      eexists _, _; (split; [by simplify_map_eq|]; split; [by simplify_map_eq|]; lia).
  - exists c1, c2, c3. split_and!; by simplify_map_eq.
Qed.

Lemma session_tallies_agree_witness :
  sum_values (questions_by_difficulty s_five_2) = current_question s_five_2 /\
  Z.of_nat (length (response_times s_five_2)) = current_question s_five_2 /\
  (forall d, 1 <= d <= 3 ->
     exists n c, questions_by_difficulty s_five_2 !! d = Some n /\
                 correct_by_difficulty s_five_2 !! d = Some c /\ 0 <= c <= n) /\
  (exists c1 c2 c3,
     correct_by_difficulty s_five_2 !! 1 = Some c1 /\
     correct_by_difficulty s_five_2 !! 2 = Some c2 /\
     correct_by_difficulty s_five_2 !! 3 = Some c3 /\
     score s_five_2 = c1 + 2 * c2 + 3 * c3) /\
  0 <= score s_five_2 <= 3 * current_question s_five_2.
Proof.
  apply (session_tallies_agree w_five_2 "session-0" s_five_2).
  - exact w_five_2_reachable_checked.
  - vm_compute. reflexivity.
Defined.

(** X4. In every world the engine can reach, the current difficulty of a
    live session fits its mode: it is 1, 2 or 3 in mix mode, and in any
    other mode it is the integer the mode string denotes, whatever has
    been answered since the start. *)
Theorem difficulty_matches_mode (w : World) (sid : string) (s : Session) :
  reachable w ->
  active_sessions w !! sid = Some s ->
  (difficulty_mode s = "mix" -> 1 <= current_difficulty s <= 3) /\
  (difficulty_mode s <> "mix" ->
     int_of_str (difficulty_mode s) = Some (current_difficulty s)).
Proof.
  intros Hr Hs. pose proof (reachable_fits w Hr sid s Hs) as Hfit.
  unfold difficulty_fits_mode in Hfit.
  destruct (String.eqb (difficulty_mode s) "mix") eqn:Em.
  - apply String.eqb_eq in Em. split; [done|]. intros Hne. done.
  - apply String.eqb_neq in Em. split; [intros Heq; done | done].
Qed.

Lemma difficulty_matches_mode_witness :
  (difficulty_mode s_sets = "mix" -> 1 <= current_difficulty s_sets <= 3) /\
  (difficulty_mode s_sets <> "mix" ->
     int_of_str (difficulty_mode s_sets) = Some (current_difficulty s_sets)).
Proof.
  apply (difficulty_matches_mode w_sets "session-0" s_sets).
  - exact (reach_call w0 (CallStart 5 8 "2" 3) (reach_init w0 eq_refl)).
  - vm_compute. reflexivity.
Defined.

(** ** Bounds of the final statistics *)

Lemma round_half_even_bounds (x : Q) (k : Z) :
  (0 <= x)%Q -> (x <= inject_Z k)%Q -> 0 <= round_half_even x <= k.
Proof.
  intros H0 Hk. unfold round_half_even.
  pose proof (Qfloor_le x) as Hfl.
  assert (0 <= Qfloor x) as Hf0.
  { change 0 with (Qfloor 0). by apply Qfloor_resp_le. }
  assert (Qfloor x <= k) as Hfk.
  { rewrite <- (Qfloor_Z k). by apply Qfloor_resp_le. }
  destruct ((x - inject_Z (Qfloor x) ?= 1 # 2)%Q) eqn:E; try lia.
  - destruct (Z.even (Qfloor x)); [lia|].
    destruct (decide (Qfloor x = k)) as [Heq|]; [|lia].
    exfalso. apply Qeq_alt in E. rewrite Heq in *. lra.
  - destruct (decide (Qfloor x = k)) as [Heq|]; [|lia].
    exfalso. apply Qgt_alt in E. rewrite Heq in *. lra.
Qed.

Lemma round2_bounds (x : Q) :
  (0 <= x)%Q -> (x <= 100)%Q -> (0 <= round2 x)%Q /\ (round2 x <= 100)%Q.
Proof.
  intros H0 H1. unfold round2.
  destruct (round_half_even_bounds (x * 100) 10000) as [Ha Hb].
  - lra.
  - change (inject_Z 10000) with (10000 # 1). lra.
  - assert (0 <= inject_Z (round_half_even (x * 100)))%Q as Ha'.
    { change 0%Q with (inject_Z 0). by rewrite <- Zle_Qle. }
    assert (inject_Z (round_half_even (x * 100)) <= inject_Z 10000)%Q as Hb'.
    { by rewrite <- Zle_Qle. }
    change (inject_Z 10000) with (10000 # 1) in Hb'.
    split.
    + apply Qle_shift_div_l; lra.
    + apply Qle_shift_div_r; lra.
Qed.

Lemma accuracy_bounds (c n : Z) :
  0 <= c <= n ->
  let accuracy :=
    if 0 <? n then (inject_Z c / inject_Z n * 100)%Q else 0%Q in
  (0 <= accuracy)%Q /\ (accuracy <= 100)%Q.
Proof.
  intros Hc. cbv zeta. destruct (0 <? n) eqn:En; [|lra].
  apply Z.ltb_lt in En.
  assert (0 < inject_Z n)%Q as Hn.
  { change 0%Q with (inject_Z 0). by rewrite <- Zlt_Qlt. }
  assert (0 <= inject_Z c)%Q as Hc0.
  { change 0%Q with (inject_Z 0). rewrite <- Zle_Qle. lia. }
  assert (inject_Z c <= inject_Z n)%Q as Hcn.
  { rewrite <- Zle_Qle. lia. }
  assert (0 <= inject_Z c / inject_Z n)%Q as Hq0.
  { apply Qle_shift_div_l; lra. }
  assert (inject_Z c / inject_Z n <= 1)%Q as Hq1.
  { apply Qle_shift_div_r; lra. }
  lra.
Qed.

(** The bounds of the statistics of a session with consistent tallies. *)
Lemma stats_of_bounds (s : Session) (now : Z) :
  session_tallies s ->
  let stats := stats_of s now in
  fs_total_questions stats = current_question s /\
  0 <= fs_correct_answers stats <= fs_total_questions stats /\
  (0 <= fs_accuracy stats)%Q /\ (fs_accuracy stats <= 100)%Q /\
  0 <= fs_time_bonus stats <= 50 /\
  fs_final_score stats = score s + fs_time_bonus stats /\
  0 <= fs_final_score stats <= 3 * fs_total_questions stats + 50 /\
  sum_values (fs_difficulty_breakdown stats) = fs_total_questions stats.
Proof.
  intros (n1 & n2 & n3 & c1 & c2 & c3 & Hn & Hc & H1 & H2 & H3 & Hsum & Hlen & Hsc).
  cbv zeta. unfold stats_of. cbn.
  rewrite Hn, Hc, !sum_values_three.
  pose proof (time_bonus_of_spec (QuizSystem.avg_response_time_of s)) as (_ & _ & Hb).
  destruct (accuracy_bounds (c1 + c2 + c3) (current_question s)) as [Ha0 Ha1]; [lia|].
  cbv zeta in Ha0, Ha1.
  destruct (round2_bounds _ Ha0 Ha1) as [Hr0 Hr1].
  split_and!; try done; lia.
Qed.

Lemma end_quiz_Ended (sid : string) (w w' : World) (stats : FinalStats) :
  QuizSystem.end_quiz sid w = (Ok (QuizEnded stats), w') ->
  exists s,
    active_sessions w !! sid = Some s /\
    stats = stats_of s (clock w) /\
    active_sessions w' = delete sid (active_sessions w) /\
    db w' = unmarked sid (db w).
Proof.
  unfold QuizSystem.end_quiz. intros H.
  apply bind_Ok in H as (w0 & w1 & H1 & H). injection H1 as <- <-.
  destruct (active_sessions w !! sid) as [s|] eqn:Es; [|discriminate].
  apply bind_Ok in H as (st & w1 & H1 & H). injection H as <- <-.
  apply calculate_final_stats_effect in H1 as (s' & Hs' & -> & Hd & Hdb & _).
  rewrite Es in Hs'. injection Hs' as <-. exists s. done.
Qed.

(** X5. While the question table satisfies its CHECK constraint, the
    statistics [end_quiz] returns for a session are within bounds: the
    correct answers are between 0 and the questions answered, the accuracy
    is between 0 and 100, the time bonus between 0 and 50, the final score
    is the session's score plus the time bonus and at most three points
    per question answered plus 50, and the difficulty breakdown adds up to
    the questions answered. *)
Theorem ended_quiz_statistics_bounds
    (sid : string) (w w' : World) (stats : FinalStats) :
  reachable_checked w ->
  QuizSystem.end_quiz sid w = (Ok (QuizEnded stats), w') ->
  exists s,
    active_sessions w !! sid = Some s /\
    fs_total_questions stats = current_question s /\
    0 <= fs_correct_answers stats <= fs_total_questions stats /\
    (0 <= fs_accuracy stats)%Q /\ (fs_accuracy stats <= 100)%Q /\
    0 <= fs_time_bonus stats <= 50 /\
    fs_final_score stats = score s + fs_time_bonus stats /\
    0 <= fs_final_score stats <= 3 * fs_total_questions stats + 50 /\
    sum_values (fs_difficulty_breakdown stats) = fs_total_questions stats.
Proof.
  intros Hr H. apply end_quiz_Ended in H as (s & Hs & -> & _).
  exists s. split; [done|].
  apply stats_of_bounds. exact (reachable_checked_tallies w Hr sid s Hs).
Qed.

Lemma ended_quiz_statistics_bounds_witness :
  exists s,
    active_sessions w_five_2 !! "session-0" = Some s /\
    fs_total_questions stats_five_2 = current_question s /\
    0 <= fs_correct_answers stats_five_2 <= fs_total_questions stats_five_2 /\
    (0 <= fs_accuracy stats_five_2)%Q /\ (fs_accuracy stats_five_2 <= 100)%Q /\
    0 <= fs_time_bonus stats_five_2 <= 50 /\
    fs_final_score stats_five_2 = score s + fs_time_bonus stats_five_2 /\
    0 <= fs_final_score stats_five_2 <= 3 * fs_total_questions stats_five_2 + 50 /\
    sum_values (fs_difficulty_breakdown stats_five_2) = fs_total_questions stats_five_2.
Proof.
  apply (ended_quiz_statistics_bounds "session-0" w_five_2 w_five_2_ended stats_five_2).
  - exact w_five_2_reachable_checked.
  - vm_compute. reflexivity.
Defined.

(** X6. While the question table satisfies its CHECK constraint, the
    answer that completes a quiz carries final statistics that agree with
    the response: they count the questions the response counts, which are
    at least the target; the final score is the response's score plus a
    time bonus between 0 and 50; the correct answers do not exceed the
    questions and the accuracy is between 0 and 100. *)
Theorem completing_answer_statistics
    (sid : string) (qid : Z) (ans : string) (rt : Q) (w w' : World)
    (r : AnswerResponse) (stats : FinalStats) :
  reachable_checked w ->
  checked (db w) ->
  QuizSystem.submit_answer sid qid ans rt w = (Ok (Answered r), w') ->
  r_final_stats r = Some stats ->
  r_quiz_complete r = true /\
  r_total_questions r <= r_question_number r /\
  fs_total_questions stats = r_question_number r /\
  0 <= fs_correct_answers stats <= fs_total_questions stats /\
  (0 <= fs_accuracy stats)%Q /\ (fs_accuracy stats <= 100)%Q /\
  0 <= fs_time_bonus stats <= 50 /\
  fs_final_score stats = r_current_score r + fs_time_bonus stats /\
  r_current_score r <= fs_final_score stats.
Proof.
  intros Hr Hchk H Hst.
  pose proof H as Htab.
  apply submit_answer_effect in H
    as (s & q & s2 & Hs & Hq & Hc & Hpts & Hk1 & Hk2 & Had & Hscore & Hnum & Htot &
        _ & Hfin).
  assert (session_tallies s2) as Htal.
  { pose proof (reachable_checked_tallies w Hr sid s Hs) as Hts.
    apply find_some in Hq as [Hin _].
    assert (session_tallies (answered q (r_is_correct r) (r_points_earned r) rt s))
      as Ha.
    { apply (step_session_tallies q ans rt s); [by apply Hchk | done |].
      rewrite Hc in *.
      exists (r_points_earned r), (Ok tt),
        (answered q (String.eqb (lower ans) (lower (correct_option q)))
           (r_points_earned r) rt s).
      split_and!; [done | | by left].
      apply update_session_statistics_Ok. done. }
    unfold adapted in Had.
    destruct (String.eqb
                (difficulty_mode
                   (answered q (r_is_correct r) (r_points_earned r) rt s)) "mix").
    - apply adjust_session_only_difficulty in Had. rewrite Had.
      destruct Ha as (m1 & m2 & m3 & d1 & d2 & d3 & ?).
      exists m1, m2, m3, d1, d2, d3. done.
    - by subst s2. }
  destruct (total_questions s2 <=? current_question s2) eqn:Ec.
  - destruct Hfin as (Hcomplete & Hfs & _). rewrite Hst in Hfs. injection Hfs as ->.
    apply Z.leb_le in Ec.
    pose proof (stats_of_bounds s2 (clock w) Htal)
      as (Ht & Hca & Ha0 & Ha1 & Hb & Hf & _ & _).
    cbv zeta in *. rewrite Hscore, Hnum, Htot.
    split_and!; try done; lia.
  - destruct Hfin as (_ & Hnone & _). rewrite Hst in Hnone. discriminate.
Qed.

Lemma completing_answer_statistics_witness :
  r_quiz_complete r_five_5 = true /\
  r_total_questions r_five_5 <= r_question_number r_five_5 /\
  fs_total_questions stats_five_5 = r_question_number r_five_5 /\
  0 <= fs_correct_answers stats_five_5 <= fs_total_questions stats_five_5 /\
  (0 <= fs_accuracy stats_five_5)%Q /\ (fs_accuracy stats_five_5 <= 100)%Q /\
  0 <= fs_time_bonus stats_five_5 <= 50 /\
  fs_final_score stats_five_5 = r_current_score r_five_5 + fs_time_bonus stats_five_5 /\
  r_current_score r_five_5 <= fs_final_score stats_five_5.
Proof.
  apply (completing_answer_statistics "session-0" 2 "c" 12 w_five_4 (snd out_five_5)
           r_five_5 stats_five_5).
  - apply (rc_call _ (CallSubmit "session-0" 2 "A" 12)).
    + apply (rc_call _ (CallSubmit "session-0" 1 "B" 2)).
      * exact w_five_2_reachable_checked.
      * apply db0_checked. vm_compute. reflexivity.
    + apply db0_checked. vm_compute. reflexivity.
  - apply db0_checked. vm_compute. reflexivity.
  - vm_compute. reflexivity.
  - vm_compute. reflexivity.
Defined.

(** ** Closed sessions *)

Lemma closes_effect (sid : string) (w w' : World) :
  closes sid w w' ->
  is_Some (active_sessions w !! sid) /\
  active_sessions w' = delete sid (active_sessions w) /\
  active_quizzes (db w') = delete sid (active_quizzes (db w)).
Proof.
  intros [(stats & H)|(qid & ans & rt & r & H & Hc)].
  - apply end_quiz_Ended in H as (s & Hs & _ & Hd & ->). eauto.
  - apply submit_answer_effect in H
      as (s & q & s2 & Hs & _ & _ & _ & _ & _ & _ & _ & _ & _ & _ & H).
    destruct (total_questions s2 <=? current_question s2).
    + destruct H as (_ & _ & Hd & ->). eauto.
    + destruct H as (Hn & _). congruence.
Qed.

(** X7. Once a session is closed, by [end_quiz] or by its completing
    answer, its token is unknown: the session has left the live table and
    its marker the database, no other session or marker has changed, and
    on that token a later [submit_answer] and [end_quiz] return
    "Invalid session" and [get_next_question] returns nothing, all three
    without changing anything. *)
Theorem closed_session_is_unknown (sid : string) (w w' : World) :
  closes sid w w' ->
  active_sessions w' !! sid = None /\
  active_quizzes (db w') !! sid = None /\
  (forall sid', sid' <> sid ->
     active_sessions w' !! sid' = active_sessions w !! sid' /\
     active_quizzes (db w') !! sid' = active_quizzes (db w) !! sid') /\
  (forall qid ans rt,
     QuizSystem.submit_answer sid qid ans rt w' =
       (Ok (SubmitError "Invalid session"), w')) /\
  QuizSystem.end_quiz sid w' = (Ok (EndError "Invalid session"), w') /\
  QuizSystem.get_next_question sid w' = (Ok None, w').
Proof.
  intros H. apply closes_effect in H as (_ & Hs & Hm).
  assert (active_sessions w' !! sid = None) as Hnone
    by (rewrite Hs; apply lookup_delete_eq).
  split_and!.
  - done.
  - rewrite Hm. apply lookup_delete_eq.
  - intros sid' Hne. rewrite Hs, Hm. by rewrite !lookup_delete_ne.
  - intros qid ans rt. unfold QuizSystem.submit_answer, bind, get, ret.
    by rewrite Hnone.
  - unfold QuizSystem.end_quiz, bind, get, ret. by rewrite Hnone.
  - unfold QuizSystem.get_next_question, bind, get, ret. by rewrite Hnone.
Qed.

Lemma closed_session_is_unknown_witness :
  active_sessions w_five_2_ended !! "session-0" = None /\
  active_quizzes (db w_five_2_ended) !! "session-0" = None /\
  (forall sid', sid' <> "session-0" ->
     active_sessions w_five_2_ended !! sid' = active_sessions w_five_2 !! sid' /\
     active_quizzes (db w_five_2_ended) !! sid' = active_quizzes (db w_five_2) !! sid') /\
  (forall qid ans rt,
     QuizSystem.submit_answer "session-0" qid ans rt w_five_2_ended =
       (Ok (SubmitError "Invalid session"), w_five_2_ended)) /\
  QuizSystem.end_quiz "session-0" w_five_2_ended =
    (Ok (EndError "Invalid session"), w_five_2_ended) /\
  QuizSystem.get_next_question "session-0" w_five_2_ended = (Ok None, w_five_2_ended).
Proof.
  apply (closed_session_is_unknown "session-0" w_five_2 w_five_2_ended).
  left. exists stats_five_2. vm_compute. reflexivity.
Defined.

(** ** Starting a session: all or nothing *)

(** X8. The engine's [start_quiz] is all or nothing. When it raises, the
    live table and the database are as before; it raises [ValueError]
    exactly when the mode is neither "mix" nor an integer literal. When it
    returns, it returns the fresh token; the token had no marker; the live
    table has gained under that token a session with nothing answered, and
    the database a marker of the same participant, chapter, difficulty and
    target; every other session and marker is as it was, and so is the
    rest of the database. *)
Theorem start_quiz_all_or_nothing
    (uid chapter : Z) (mode : string) (total : Z) (w w' : World)
    (r : outcome string) :
  QuizSystem.start_quiz uid chapter mode total w = (r, w') ->
  let sid := uuids w (uuid_calls w) in
  match r with
  | Raise e =>
      active_sessions w' = active_sessions w /\ db w' = db w /\
      (e = ValueError mode <->
       String.eqb mode "mix" = false /\ int_of_str mode = None)
  | Ok sid' =>
      sid' = sid /\
      active_quizzes (db w) !! sid = None /\
      (exists s m,
         active_sessions w' !! sid = Some s /\
         active_quizzes (db w') !! sid = Some m /\
         user_id s = uid /\ chapter_id s = chapter /\
         difficulty_mode s = mode /\ total_questions s = total /\
         current_question s = 0 /\ score s = 0 /\
         correct_streak s = 0 /\ wrong_streak s = 0 /\
         response_times s = [] /\ started_at s = clock w /\
         aq_user_id m = uid /\ aq_chapter_id m = chapter /\
         aq_current_difficulty m = current_difficulty s /\
         aq_total_questions m = total) /\
      (forall sid0, sid0 <> sid ->
         active_sessions w' !! sid0 = active_sessions w !! sid0 /\
         active_quizzes (db w') !! sid0 = active_quizzes (db w) !! sid0) /\
      users (db w') = users (db w) /\
      questions (db w') = questions (db w) /\
      quiz_attempts (db w') = quiz_attempts (db w) /\
      user_question_history (db w') = user_question_history (db w)
  end.
Proof.
  intros H. pose proof H as H0.
  apply start_quiz_any in H as [(e & -> & Hs & Hd & He)|(cur & -> & Hm & Hs & Hd & Hc)];
    cbv zeta.
  - split_and!; [done | done |]. split.
    + intros ->. unfold QuizSystem.start_quiz in H0.
      unfold bind at 1 in H0. cbn [get] in H0.
      unfold bind at 1 in H0. cbn [modify] in H0.
      destruct (String.eqb mode "mix") eqn:Em.
      * exfalso. unfold bind at 1 in H0. cbn [ret] in H0.
        apply bind_any in H0 as [(u & w1 & H1 & H0)|(e & H1 & He')].
        -- apply bind_any in H0 as [(? & ? & _ & H0)|(? & H0 & _)]; [|discriminate].
           apply bind_any in H0 as [(? & ? & _ & H0)|(? & H0 & _)]; discriminate.
        -- injection He' as <-.
           apply storage_any in H1 as [_ [[? _]|(d & H1 & _)]]; [discriminate|].
           cbn in H1. destruct (active_quizzes _ !! _); discriminate.
      * split; [done|]. destruct (int_of_str mode) eqn:Ei; [|done]. exfalso.
        unfold bind at 1 in H0. cbn [ret] in H0.
        apply bind_any in H0 as [(u & w1 & H1 & H0)|(e & H1 & He')].
        -- apply bind_any in H0 as [(? & ? & _ & H0)|(? & H0 & _)]; [|discriminate].
           apply bind_any in H0 as [(? & ? & _ & H0)|(? & H0 & _)]; discriminate.
        -- injection He' as <-.
           apply storage_any in H1 as [_ [[? _]|(d & H1 & _)]]; [discriminate|].
           cbn in H1. destruct (active_quizzes _ !! _); discriminate.
    + intros [Em Ei]. unfold QuizSystem.start_quiz in H0.
      unfold bind at 1 in H0. cbn [get] in H0.
      unfold bind at 1 in H0. cbn [modify] in H0.
      rewrite Em, Ei in H0. cbn in H0. by injection H0 as <- _.
  - split_and!; try done; [| |by rewrite Hd..].
    + eexists _, _. rewrite Hs, Hd. cbn. rewrite !lookup_insert_eq.
      split_and!; done.
    + intros sid0 Hne. rewrite Hs, Hd. cbn. by rewrite !lookup_insert_ne.
Qed.

Lemma start_quiz_all_or_nothing_witness :
  active_sessions (snd (QuizSystem.start_quiz 5 7 "hard" 5 w0)) = active_sessions w0 /\
  db (snd (QuizSystem.start_quiz 5 7 "hard" 5 w0)) = db w0 /\
  (ValueError "hard" = ValueError "hard" <->
   String.eqb "hard" "mix" = false /\ int_of_str "hard" = None).
Proof.
  apply (start_quiz_all_or_nothing 5 7 "hard" 5 w0
           (snd (QuizSystem.start_quiz 5 7 "hard" 5 w0)) (Raise (ValueError "hard"))).
  vm_compute. reflexivity.
Defined.

(** ** What an answer leaves in the database *)

(** X9. A scored answer is recorded once: [quiz_attempts] gains one row,
    the last, with the session's participant and chapter, the question,
    the answer as given, its verdict, its difficulty and its points; the
    participant's history of the question is set to the time of the
    answer. If the participant has a row in [users], its points grow by
    the points of the response, its questions by one and its correct
    answers by one on a correct answer; if there is none, none is made.
    No other row of [users] changes, and neither do the questions. *)
Theorem answer_is_recorded
    (sid : string) (qid : Z) (ans : string) (rt : Q) (w w' : World)
    (r : AnswerResponse) :
  QuizSystem.submit_answer sid qid ans rt w = (Ok (Answered r), w') ->
  exists s q,
    active_sessions w !! sid = Some s /\
    In q (questions (db w)) /\ question_id q = qid /\
    quiz_attempts (db w') =
      quiz_attempts (db w) ++ [attempt_of s q ans rt r (clock w)] /\
    user_question_history (db w') =
      <[(user_id s, qid) := clock w]> (user_question_history (db w)) /\
    match users (db w) !! user_id s with
    | Some u =>
        exists u',
          users (db w') !! user_id s = Some u' /\
          u_username u' = u_username u /\
          u_total_points u' = u_total_points u + r_points_earned r /\
          u_total_questions u' = u_total_questions u + 1 /\
          u_correct_answers u' =
            u_correct_answers u + (if r_is_correct r then 1 else 0)
    | None => users (db w') !! user_id s = None
    end /\
    (forall uid, uid <> user_id s -> users (db w') !! uid = users (db w) !! uid) /\
    questions (db w') = questions (db w).
Proof.
  intros H.
  apply submit_answer_effect in H
    as (s & q & s2 & Hs & Hq & _ & _ & _ & _ & _ & _ & _ & _ & _ & H).
  cbv zeta in H.
  set (d1 := recorded (db w) (user_id s) (chapter_id s) qid ans (r_is_correct r) rt
               (difficulty q) (r_points_earned r) (clock w)) in *.
  assert (users (db w') = users d1 /\ questions (db w') = questions d1 /\
          quiz_attempts (db w') = quiz_attempts d1 /\
          user_question_history (db w') = user_question_history d1)
    as (Hu & Hqs & Ha & Hh).
  { destruct (total_questions s2 <=? current_question s2).
    - destruct H as (_ & _ & _ & ->). done.
    - destruct H as (_ & _ & _ & ->). done. }
  apply find_some in Hq as [Hin Hid]. apply Z.eqb_eq in Hid.
  exists s, q. rewrite Hu, Hqs, Ha, Hh. subst d1. cbn.
  split_and!; try done.
  - unfold attempt_of. by rewrite Hid.
  - destruct (users (db w) !! user_id s) as [u|] eqn:Eu.
    + eexists. rewrite lookup_alter_eq, Eu. cbn. split_and!; done.
    + by rewrite lookup_alter_eq, Eu.
  - intros uid Hne. by rewrite lookup_alter_ne.
Qed.

Lemma answer_is_recorded_witness :
  exists s q,
    active_sessions v_started !! "session-0" = Some s /\
    In q (questions (db v_started)) /\ question_id q = 1 /\
    quiz_attempts (db v_first) =
      quiz_attempts (db v_started) ++ [attempt_of s q "b" 3 r_v_first (clock v_started)] /\
    user_question_history (db v_first) =
      <[(user_id s, 1) := clock v_started]> (user_question_history (db v_started)) /\
    match users (db v_started) !! user_id s with
    | Some u =>
        exists u',
          users (db v_first) !! user_id s = Some u' /\
          u_username u' = u_username u /\
          u_total_points u' = u_total_points u + r_points_earned r_v_first /\
          u_total_questions u' = u_total_questions u + 1 /\
          u_correct_answers u' =
            u_correct_answers u + (if r_is_correct r_v_first then 1 else 0)
    | None => users (db v_first) !! user_id s = None
    end /\
    (forall uid, uid <> user_id s ->
       users (db v_first) !! uid = users (db v_started) !! uid) /\
    questions (db v_first) = questions (db v_started).
Proof.
  apply (answer_is_recorded "session-0" 1 "b" 3 v_started v_first r_v_first).
  vm_compute. reflexivity.
Defined.

(** ** The stored average response time *)

(** X10. What a scored answer does to the participant's stored
    [average_response_time]: the UPDATE divides by the number of questions
    the row had before the answer. On a row without questions, as
    [add_user] makes it, the division is by zero and the column becomes
    NULL; once NULL it stays NULL; otherwise it becomes
    [(avg * (n - 1) + response_time) / n] for the old average [avg] and
    the old count [n]. *)
Theorem average_response_time_update
    (sid : string) (qid : Z) (ans : string) (rt : Q) (w w' : World)
    (r : AnswerResponse) (s : Session) (u : UserRow) :
  QuizSystem.submit_answer sid qid ans rt w = (Ok (Answered r), w') ->
  active_sessions w !! sid = Some s ->
  users (db w) !! user_id s = Some u ->
  exists u',
    users (db w') !! user_id s = Some u' /\
    (u_total_questions u = 0 \/ u_average_response_time u = None ->
     u_average_response_time u' = None) /\
    (forall avg,
       u_total_questions u <> 0 -> u_average_response_time u = Some avg ->
       u_average_response_time u' =
         Some ((avg * inject_Z (u_total_questions u - 1) + rt)
               / inject_Z (u_total_questions u))%Q).
Proof.
  intros H Hs Hu.
  apply submit_answer_effect in H
    as (s0 & q & s2 & Hs0 & _ & _ & _ & _ & _ & _ & _ & _ & _ & _ & H).
  rewrite Hs in Hs0. injection Hs0 as <-. cbv zeta in H.
  set (d1 := recorded (db w) (user_id s) (chapter_id s) qid ans (r_is_correct r) rt
               (difficulty q) (r_points_earned r) (clock w)) in *.
  assert (users (db w') = users d1) as ->.
  { destruct (total_questions s2 <=? current_question s2);
      destruct H as (_ & _ & _ & ->); done. }
  subst d1. cbn. rewrite lookup_alter_eq, Hu. cbn. eexists. split; [done|].
  cbn. split.
  - intros [Hz|Hn].
    + rewrite Hz. by destruct (u_average_response_time u).
    + by rewrite Hn.
  - intros avg Hnz ->. apply Z.eqb_neq in Hnz. by rewrite Hnz.
Qed.

Lemma average_response_time_update_witness :
  exists u',
    users (db u_first) !! user_id s_u_started = Some u' /\
    (u_total_questions ann_new = 0 \/ u_average_response_time ann_new = None ->
     u_average_response_time u' = None) /\
    (forall avg,
       u_total_questions ann_new <> 0 -> u_average_response_time ann_new = Some avg ->
       u_average_response_time u' =
         Some ((avg * inject_Z (u_total_questions ann_new - 1) + 3)
               / inject_Z (u_total_questions ann_new))%Q).
Proof.
  apply (average_response_time_update "session-0" 1 "b" 3 u_started u_first
           r_u_first s_u_started ann_new).
  - vm_compute. reflexivity.
  - vm_compute. reflexivity.
  - vm_compute. reflexivity.
Defined.

(** ** The [start_quiz] command *)

Lemma keeps_chat_bind {A B} (m : Eng A) (k : A -> Eng B) :
  keeps_chat m -> (forall a, keeps_chat (k a)) -> keeps_chat (bind m k).
Proof.
  intros Hm Hk w r w'. unfold bind.
  destruct (m w) as [[a|e] w1] eqn:E; intros H.
  - destruct (Hm _ _ _ E) as (<- & <- & <- & <- & <-). exact (Hk a _ _ _ H).
  - injection H as <- <-. exact (Hm _ _ _ E).
Qed.

Lemma keeps_chat_ret {A} (a : A) : keeps_chat (ret a).
Proof. intros w r w' [= <- <-]. done. Qed.

Lemma keeps_chat_raise {A} (e : exn) : keeps_chat (@raise World A e).
Proof. intros w r w' [= <- <-]. done. Qed.

Lemma keeps_chat_get : keeps_chat (@get World).
Proof. intros w r w' [= <- <-]. done. Qed.

Lemma keeps_chat_storage {A} (op : DbOp)
    (run : World -> Database -> outcome A * Database) :
  keeps_chat (storage op run).
Proof.
  intros w r w'. unfold storage.
  destruct (db_fails w (length (db_log w))); [by intros [= <- <-]|].
  destruct (run w (db w)). by intros [= <- <-].
Qed.

Lemma keeps_chat_sessions (f : World -> gmap string Session) :
  keeps_chat (modify (fun w => set_active_sessions (f w) w)).
Proof. intros w r w' [= <- <-]. done. Qed.

Lemma keeps_chat_uuid_calls (n : nat) : keeps_chat (modify (set_uuid_calls n)).
Proof. intros w r w' [= <- <-]. done. Qed.

Lemma keeps_chat_start_quiz (uid chapter : Z) (mode : string) (total : Z) :
  keeps_chat (QuizSystem.start_quiz uid chapter mode total).
Proof.
  unfold QuizSystem.start_quiz.
  apply keeps_chat_bind; [apply keeps_chat_get|intros w].
  apply keeps_chat_bind; [apply keeps_chat_uuid_calls|intros _].
  apply keeps_chat_bind.
  { destruct (String.eqb mode "mix"); [apply keeps_chat_ret|].
    destruct (int_of_str mode); [apply keeps_chat_ret|apply keeps_chat_raise]. }
  intros cur.
  apply keeps_chat_bind; [apply keeps_chat_storage|intros _].
  apply keeps_chat_bind; [apply keeps_chat_get|intros w1].
  apply keeps_chat_bind; [|intros _; apply keeps_chat_ret].
  apply (keeps_chat_sessions (fun _ => _)).
Qed.

Lemma keeps_chat_get_next_question (sid : string) :
  keeps_chat (QuizSystem.get_next_question sid).
Proof.
  unfold QuizSystem.get_next_question, DatabaseManager.get_next_question.
  apply keeps_chat_bind; [apply keeps_chat_get|intros w].
  destruct (active_sessions w !! sid) as [s|]; [|apply keeps_chat_ret].
  destruct (total_questions s <=? current_question s); [apply keeps_chat_ret|].
  apply keeps_chat_bind; [apply keeps_chat_storage|intros o1].
  apply keeps_chat_bind.
  { destruct o1; [apply keeps_chat_ret|apply keeps_chat_storage]. }
  intros [q|]; apply keeps_chat_ret.
Qed.

Lemma insert_by_name_In (c x : Chapter) (l : list Chapter) :
  In x (DatabaseManager.insert_by_name c l) <-> x = c \/ In x l.
Proof.
  induction l as [|c' l IH]; cbn.
  - split; intros [H|H]; auto.
  - destruct (String.leb (c_name c) (c_name c')); cbn.
    + split; intros [H|H]; auto.
    + rewrite IH. split; intros H; destruct H as [H|[H|H]]; auto.
Qed.

Lemma sorted_chapters_In (x : Chapter) (l : list Chapter) :
  In x (foldr DatabaseManager.insert_by_name [] l) <-> In x l.
Proof.
  induction l as [|c l IH]; cbn; [done|].
  rewrite insert_by_name_In, IH. split; intros [H|H]; auto.
Qed.

(** A question fetch that returns nothing for a live, unfinished session:
    its chapter has no question. *)
Lemma engine_next_question_None (sid : string) (w w' : World) (s : Session) :
  QuizSystem.get_next_question sid w = (Ok None, w') ->
  active_sessions w !! sid = Some s ->
  current_question s < total_questions s ->
  forall q, In q (questions (db w)) -> q_chapter_id q <> chapter_id s.
Proof.
  unfold QuizSystem.get_next_question. intros H Hs Hlt.
  apply bind_Ok in H as (w0 & w1 & H1 & H). injection H1 as <- <-.
  rewrite Hs in H.
  destruct (total_questions s <=? current_question s) eqn:Ec;
    [apply Z.leb_le in Ec; lia|].
  apply bind_Ok in H as (o1 & w1 & H1 & H).
  apply get_next_question_policy in H1 as [Hdb1 _].
  apply bind_Ok in H as (o2 & w2 & H2 & H).
  destruct o2; [discriminate|].
  destruct o1; [discriminate|].
  apply get_next_question_policy in H2 as [_ Hnone].
  intros q Hin Hch. apply (Hnone q). rewrite Hdb1.
  split_and!; [done | done |]. intros k [=].
Qed.

Lemma valid_difficulty_level (mode : string) (cur : Z) :
  mode ∈ Bot.valid_difficulties ->
  (if String.eqb mode "mix" then cur = 1 else int_of_str mode = Some cur) ->
  1 <= cur <= 3.
Proof.
  unfold Bot.valid_difficulties. intros Hin.
  apply elem_of_cons in Hin as [-> | Hin]; [vm_compute; intros [= <-]; done|].
  apply elem_of_cons in Hin as [-> | Hin]; [vm_compute; intros [= <-]; done|].
  apply elem_of_cons in Hin as [-> | Hin]; [vm_compute; intros [= <-]; done|].
  apply elem_of_cons in Hin as [-> | Hin]; [cbn; lia|].
  by apply elem_of_nil in Hin.
Qed.

(** What the command has done when it returns after calling the engine,
    and what it has done otherwise. *)
Lemma bot_start_quiz_cases
    (author : Z) (author_name : string) (chapter_name : option string)
    (mode : string) (total : Z) (w w' : World) :
  Bot.start_quiz author author_name chapter_name mode total w = (Ok tt, w') ->
  (exists m, outbox w' = outbox w ++ [m] /\
             (forall chn qid n t d, m <> MsgQuestion chn qid n t d) /\
             m <> no_questions_message) \/
  exists name w1 w2 chapter w3 w4 nqo,
    let sid := uuids w (uuid_calls w) in
    chapter_name = Some name /\
    DatabaseManager.add_user author author_name w = (Ok tt, w1) /\
    DatabaseManager.get_chapters w1 =
      (Ok (foldr DatabaseManager.insert_by_name [] (chapters (db w1))), w2) /\
    In chapter (chapters (db w1)) /\
    lower (c_name chapter) = lower name /\
    mode ∈ Bot.valid_difficulties /\ 1 <= total <= 50 /\
    QuizSystem.start_quiz author (c_chapter_id chapter) mode total w2 = (Ok sid, w3) /\
    QuizSystem.get_next_question sid w3 = (Ok nqo, w4) /\
    match nqo with
    | None =>
        outbox w' = outbox w ++ [no_questions_message] /\
        active_quiz_messages w' = active_quiz_messages w
    | Some nq =>
        outbox w' =
          outbox w ++ [MsgQuestion (c_name chapter) (question_id (nq_question nq))
                         (nq_question_number nq) (nq_total_questions nq)
                         (nq_current_difficulty nq)] /\
        active_quiz_messages w' =
          <[message_ids w (length (outbox w)) :=
              mkQuizInfo sid (question_id (nq_question nq)) author (clock w)]>
            (active_quiz_messages w)
    end /\
    active_sessions w' = active_sessions w4 /\ db w' = db w4 /\
    uuids w2 (uuid_calls w2) = sid /\
    List.find (fun ch => String.eqb (lower (c_name ch)) (lower name))
      (foldr DatabaseManager.insert_by_name [] (chapters (db w1))) = Some chapter.
Proof.
  unfold Bot.start_quiz. intros H.
  assert (forall t (w1 w2 : World),
            outbox w1 = outbox w ->
            t <> "No questions available for this chapter!" ->
            (do_ Bot.send (MsgText t); ret tt) w1 = (Ok tt, w2) ->
            exists m, outbox w2 = outbox w ++ [m] /\
              (forall chn qid n t d, m <> MsgQuestion chn qid n t d) /\
              m <> no_questions_message) as Htext.
  { intros t w1 w2 Ho Ht Hsend. unfold Bot.send, bind, get, modify, ret in Hsend.
    cbn in Hsend. injection Hsend as <-. exists (MsgText t). cbn. rewrite Ho.
    split_and!; [done | done |]. unfold no_questions_message. congruence. }
  destruct chapter_name as [name|]; cycle 1.
  { left. apply bind_Ok in H as (chs & w1 & H1 & H).
    apply keeps_chat_storage in H1 as (Ho & _).
    unfold Bot.send, bind, get, modify, ret in H. cbn in H. injection H as <-.
    eexists. cbn. rewrite Ho. split_and!; [done | done |]. done. }
  destruct name as [|c name].
  { left. apply bind_Ok in H as (chs & w1 & H1 & H).
    apply keeps_chat_storage in H1 as (Ho & _).
    unfold Bot.send, bind, get, modify, ret in H. cbn in H. injection H as <-.
    eexists. cbn. rewrite Ho. split_and!; [done | done |]. done. }
  apply bind_Ok in H as (u & w1 & Hadd & H). destruct u.
  apply bind_Ok in H as (chs & w2 & Hget & H).
  pose proof (keeps_chat_storage _ _ _ _ _ Hadd) as (Ho1 & Hm1 & Hc1 & Hi1 & Hu1).
  pose proof (keeps_chat_storage _ _ _ _ _ Hget) as (Ho2 & Hm2 & Hc2 & Hi2 & Hu2).
  assert (uuid_calls w2 = uuid_calls w) as Hcalls.
  { unfold DatabaseManager.add_user, DatabaseManager.get_chapters, storage in Hadd, Hget.
    repeat (case_match; simplify_eq); done. }
  assert (chs = foldr DatabaseManager.insert_by_name [] (chapters (db w1))) as ->.
  { unfold DatabaseManager.get_chapters in Hget.
    apply storage_Ok in Hget as (_ & d & Hd & _). by injection Hd as <- _. }
  destruct (find _ _) as [chapter|] eqn:Hfind; cycle 1.
  { left. apply (fun a b => Htext _ w2 w' a b H);
      [congruence | intros Heq; vm_compute in Heq; discriminate]. }
  pose proof Hfind as Hfound.
  apply find_some in Hfind as [Hin Hname].
  apply (proj1 (sorted_chapters_In _ _)) in Hin. apply String.eqb_eq in Hname.
  destruct (bool_decide (mode ∈ Bot.valid_difficulties)) eqn:Em; cbn [negb] in H; cycle 1.
  { left. apply (fun a b => Htext _ w2 w' a b H);
      [congruence | intros Heq; vm_compute in Heq; discriminate]. }
  apply bool_decide_eq_true in Em.
  destruct ((total <? 1) || (50 <? total)) eqn:Ec.
  { left. apply (fun a b => Htext _ w2 w' a b H);
      [congruence | intros Heq; vm_compute in Heq; discriminate]. }
  apply orb_false_iff in Ec as [Ec1 Ec2].
  apply Z.ltb_ge in Ec1, Ec2.
  apply bind_Ok in H as (sid & w3 & Hstart & H).
  apply bind_Ok in H as (nqo & w4 & Hnext & H).
  pose proof (keeps_chat_start_quiz _ _ _ _ _ _ _ Hstart) as (Ho3 & Hm3 & Hc3 & Hi3 & Hu3).
  pose proof (keeps_chat_get_next_question _ _ _ _ Hnext) as (Ho4 & Hm4 & Hc4 & Hi4 & Hu4).
  assert (sid = uuids w (uuid_calls w)) as ->.
  { apply start_quiz_any in Hstart as [(e & He & _)|(cur & He & _)]; [discriminate|].
    injection He as ->. congruence. }
  right. exists (String c name), w1, w2, chapter, w3, w4, nqo. cbv zeta.
  split_and!; try done; try lia.
  - destruct nqo as [nq|].
    + unfold Bot.send, bind, get, modify, ret in H. cbn in H. injection H as <-.
      cbn. split; congruence.
    + unfold Bot.send, bind, get, modify, ret in H. cbn in H. injection H as <-.
      cbn. unfold no_questions_message. split; congruence.
  - destruct nqo as [nq|];
      unfold Bot.send, bind, get, modify, ret in H; cbn in H; by injection H as <-.
  - destruct nqo as [nq|];
      unfold Bot.send, bind, get, modify, ret in H; cbn in H; by injection H as <-.
  - congruence.
Qed.

Lemma add_user_Ok (uid : Z) (name : string) (w w1 : World) :
  DatabaseManager.add_user uid name w = (Ok tt, w1) ->
  is_Some (users (db w1) !! uid) /\
  (forall uid', uid' <> uid -> users (db w1) !! uid' = users (db w) !! uid') /\
  (forall u, users (db w) !! uid = Some u -> users (db w1) !! uid = Some u) /\
  chapters (db w1) = chapters (db w) /\
  questions (db w1) = questions (db w) /\
  active_quizzes (db w1) = active_quizzes (db w) /\
  active_sessions w1 = active_sessions w.
Proof.
  unfold DatabaseManager.add_user. intros H.
  apply storage_Ok in H as (_ & d & Hd & ->).
  destruct (users (db w) !! uid) as [u|] eqn:Eu.
  - injection Hd as <-. cbn. rewrite Eu. split_and!; eauto.
  - injection Hd as <-. cbn. rewrite lookup_insert_eq. split_and!; try done.
    intros uid' Hne. by rewrite lookup_insert_ne.
Qed.

(** What the command has done by the time it has called the engine and
    fetched the first question. *)
Lemma bot_start_quiz_session
    (author : Z) (author_name : string) (chapter : Chapter)
    (mode : string) (total : Z) (w w1 w2 w3 w4 : World)
    (nqo : option NextQuestion) (sid : string) :
  uuids w2 (uuid_calls w2) = sid ->
  DatabaseManager.add_user author author_name w = (Ok tt, w1) ->
  DatabaseManager.get_chapters w1 =
    (Ok (foldr DatabaseManager.insert_by_name [] (chapters (db w1))), w2) ->
  mode ∈ Bot.valid_difficulties ->
  QuizSystem.start_quiz author (c_chapter_id chapter) mode total w2 = (Ok sid, w3) ->
  QuizSystem.get_next_question sid w3 = (Ok nqo, w4) ->
  exists s,
    active_sessions w3 !! sid = Some s /\
    active_sessions w4 = <[sid := s]> (active_sessions w) /\
    user_id s = author /\ chapter_id s = c_chapter_id chapter /\
    current_question s = 0 /\ total_questions s = total /\
    difficulty_mode s = mode /\ 1 <= current_difficulty s <= 3 /\
    is_Some (users (db w4) !! author) /\
    is_Some (active_quizzes (db w4) !! sid) /\
    chapters (db w1) = chapters (db w) /\
    questions (db w3) = questions (db w).
Proof.
  intros Hsid Hadd Hget Hmode Hstart Hnext.
  apply add_user_Ok in Hadd as (Hu & _ & _ & Hch & Hq & _ & Hs1).
  assert (db w2 = db w1 /\ active_sessions w2 = active_sessions w1) as [Hd2 Hs2].
  { unfold DatabaseManager.get_chapters in Hget.
    apply storage_Ok in Hget as (_ & d & Hd & ->). by injection Hd as <-. }
  apply start_quiz_any in Hstart as [(e & He & _)|(cur & _ & _ & Hs3 & Hd3 & Hcur)];
    [discriminate|].
  rewrite Hsid in Hs3, Hd3.
  apply get_next_question_any in Hnext as [Hs4 Hd4].
  eexists. rewrite Hs4, Hd4, Hs3, Hd3, Hs2, Hs1, Hd2. cbn.
  rewrite !lookup_insert_eq.
  split_and!; try done.
  - by apply (valid_difficulty_level mode).
  - by apply (valid_difficulty_level mode).
Qed.

(** X11. When the [start_quiz] command answers with a question, the
    input was valid (a mode among "1", "2", "3", "mix" and a count from 1
    to 50) and the named chapter exists, compared without case; the engine
    holds one new session, of the author, on that chapter, with nothing
    answered, whose difficulty is on the scale; the question sent is the
    first of the count asked for, belongs to that chapter, and is shown at
    the session's difficulty; the message sent is tracked with the
    session, the question and the author; and the author is registered. *)
Theorem start_command_tracks_question
    (author : Z) (author_name : string) (chapter_name : option string)
    (mode : string) (total : Z) (w w' : World)
    (chn : string) (qid number tot diff : Z) :
  Bot.start_quiz author author_name chapter_name mode total w = (Ok tt, w') ->
  outbox w' = outbox w ++ [MsgQuestion chn qid number tot diff] ->
  let sid := uuids w (uuid_calls w) in
  let mid := message_ids w (length (outbox w)) in
  mode ∈ Bot.valid_difficulties /\ 1 <= total <= 50 /\
  number = 1 /\ tot = total /\ 1 <= diff <= 3 /\
  (exists name s ch q,
     chapter_name = Some name /\
     active_sessions w' = <[sid := s]> (active_sessions w) /\
     user_id s = author /\ chapter_id s = c_chapter_id ch /\
     current_question s = 0 /\ total_questions s = total /\
     difficulty_mode s = mode /\ current_difficulty s = diff /\
     In ch (chapters (db w)) /\ lower (c_name ch) = lower name /\
     c_name ch = chn /\
     In q (questions (db w)) /\ question_id q = qid /\
     q_chapter_id q = c_chapter_id ch) /\
  active_quiz_messages w' =
    <[mid := mkQuizInfo sid qid author (clock w)]> (active_quiz_messages w) /\
  is_Some (users (db w') !! author) /\
  is_Some (active_quizzes (db w') !! sid).
Proof.
  intros H Hout. cbv zeta.
  apply bot_start_quiz_cases in H
    as [(m & Hm & Hnq & _)|
        (name & w1 & w2 & ch & w3 & w4 & nqo & -> & Hadd & Hget & Hin & Hname &
         Hmode & Htotal & Hstart & Hnext & Hmsg & Hs' & Hd' & Hsid & _)].
  { rewrite Hm in Hout. apply app_inj_tail in Hout as [_ ->]. by destruct (Hnq chn qid number tot diff). }
  cbv zeta in *.
  destruct (bot_start_quiz_session _ _ _ _ _ _ _ _ _ _ _ _ Hsid Hadd Hget Hmode Hstart Hnext)
    as (s & Hs3 & Hs4 & Hu & Hc & Hcq & Htq & Hdm & Hcd & Husr & Hmk & Hchs & Hqs).
  destruct nqo as [nq|]; cycle 1.
  { destruct Hmsg as [Hm _]. rewrite Hm in Hout.
    apply app_inj_tail in Hout as [_ Hout]. discriminate. }
  destruct Hmsg as [Hm Htrack]. rewrite Hm in Hout.
  apply app_inj_tail in Hout as [_ Hout].
  injection Hout as <- <- <- <- <-.
  apply engine_next_question_Some in Hnext
    as (s' & Hs3' & _ & _ & _ & _ & Hn & Ht & Hdf & Hsel).
  rewrite Hs3 in Hs3'. injection Hs3' as <-.
  assert (candidate (db w3) (chapter_id s) None (nq_question nq)) as (Hq1 & Hq2 & _).
  { destruct Hsel as [Hsel|(w5 & Hsel0 & Hsel)];
      apply get_next_question_policy in Hsel as [Hdb Hsel].
    - destruct Hsel as ((? & ? & _) & _). split_and!; [done | done |]. intros k [=].
    - apply get_next_question_policy in Hsel0 as [Hdb0 _].
      destruct Hsel as (Hc5 & _). by rewrite Hdb0 in Hc5. }
  split_and!; try done; try lia.
  - exists name, s, ch, (nq_question nq).
    rewrite Hs', Hs4. rewrite <- Hchs, <- Hqs.
    split_and!; try done. congruence.
  - rewrite Hd'. done.
  - rewrite Hd'. done.
Qed.

Lemma start_command_tracks_question_witness :
  "mix" ∈ Bot.valid_difficulties /\ 1 <= 5 <= 50 /\
  1 = 1 /\ 5 = 5 /\ 1 <= 1 <= 3 /\
  (exists name s ch q,
     Some "algebra" = Some name /\
     active_sessions (snd out_command) = <["session-0" := s]> (active_sessions w0) /\
     user_id s = 5 /\ chapter_id s = c_chapter_id ch /\
     current_question s = 0 /\ total_questions s = 5 /\
     difficulty_mode s = "mix" /\ current_difficulty s = 1 /\
     In ch (chapters (db w0)) /\ lower (c_name ch) = lower name /\
     c_name ch = "Algebra" /\
     In q (questions (db w0)) /\ question_id q = 1 /\
     q_chapter_id q = c_chapter_id ch) /\
  active_quiz_messages (snd out_command) =
    <[100 := mkQuizInfo "session-0" 1 5 1000000]> (active_quiz_messages w0) /\
  is_Some (users (db (snd out_command)) !! 5) /\
  is_Some (active_quizzes (db (snd out_command)) !! "session-0").
Proof.
  apply (start_command_tracks_question 5 "ann" (Some "algebra") "mix" 5 w0
           (snd out_command) "Algebra" 1 1 5 1).
  - vm_compute. reflexivity.
  - vm_compute. reflexivity.
Defined.

(** X12. When the [start_quiz] command answers "No questions available
    for this chapter!", the chapter of the session it has just started has
    no question, yet the session stays: the live table holds it, with
    nothing answered, its marker is in the database, and no tracked
    message refers to it, the tracking table being as it was. *)
Theorem start_command_without_questions
    (author : Z) (author_name : string) (chapter_name : option string)
    (mode : string) (total : Z) (w w' : World) :
  Bot.start_quiz author author_name chapter_name mode total w = (Ok tt, w') ->
  outbox w' = outbox w ++ [no_questions_message] ->
  let sid := uuids w (uuid_calls w) in
  exists s,
    active_sessions w' = <[sid := s]> (active_sessions w) /\
    user_id s = author /\ current_question s = 0 /\
    total_questions s = total /\ 1 <= total <= 50 /\
    is_Some (active_quizzes (db w') !! sid) /\
    active_quiz_messages w' = active_quiz_messages w /\
    (forall q, In q (questions (db w)) -> q_chapter_id q <> chapter_id s).
Proof.
  intros H Hout. cbv zeta.
  apply bot_start_quiz_cases in H
    as [(m & Hm & _ & Hnq)|
        (name & w1 & w2 & ch & w3 & w4 & nqo & -> & Hadd & Hget & Hin & Hname &
         Hmode & Htotal & Hstart & Hnext & Hmsg & Hs' & Hd' & Hsid & _)].
  { rewrite Hm in Hout. by apply app_inj_tail in Hout as [_ ->]. }
  cbv zeta in *.
  destruct (bot_start_quiz_session _ _ _ _ _ _ _ _ _ _ _ _ Hsid Hadd Hget Hmode Hstart Hnext)
    as (s & Hs3 & Hs4 & Hu & Hc & Hcq & Htq & Hdm & Hcd & Husr & Hmk & Hchs & Hqs).
  destruct nqo as [nq|].
  { destruct Hmsg as [Hm _]. rewrite Hm in Hout.
    apply app_inj_tail in Hout as [_ Hout]. discriminate. }
  destruct Hmsg as [_ Htrack].
  exists s. rewrite Hs', Hd'. split_and!; try done; try lia.
  rewrite <- Hqs.
  apply (engine_next_question_None _ _ _ _ Hnext Hs3). lia.
Qed.

Lemma start_command_without_questions_witness :
  exists s,
    active_sessions (snd out_command_empty) = <["session-0" := s]> (active_sessions w0) /\
    user_id s = 5 /\ current_question s = 0 /\
    total_questions s = 5 /\ 1 <= 5 <= 50 /\
    is_Some (active_quizzes (db (snd out_command_empty)) !! "session-0") /\
    active_quiz_messages (snd out_command_empty) = active_quiz_messages w0 /\
    (forall q, In q (questions (db w0)) -> q_chapter_id q <> chapter_id s).
Proof.
  apply (start_command_without_questions 5 "ann" (Some "EMPTY") "2" 5 w0
           (snd out_command_empty)).
  - vm_compute. reflexivity.
  - vm_compute. reflexivity.
Defined.

(** ** Ranks *)

Lemma rank_for_cases (p : Z) :
  (p < 100 /\ RankingSystem.rank_for p = "QA Pleasant") \/
  (100 <= p < 300 /\ RankingSystem.rank_for p = "QA Baron") \/
  (300 <= p < 600 /\ RankingSystem.rank_for p = "QA Viscount") \/
  (600 <= p < 1000 /\ RankingSystem.rank_for p = "QA Marquis") \/
  (1000 <= p < 2000 /\ RankingSystem.rank_for p = "QA Earl") \/
  (2000 <= p < 5000 /\ RankingSystem.rank_for p = "Quiz Duke") \/
  (5000 <= p /\ RankingSystem.rank_for p = "QA Grand Duke").
Proof.
  unfold RankingSystem.rank_for, RANKING_ROLES. cbn [fold_left].
  repeat match goal with
         | |- context [?a <=? p] => destruct (Z.leb_spec a p)
         end; try lia; auto 10.
Qed.

Lemma users_storage_any {A}
    (run : gmap Z (UserRow * string) -> A * gmap Z (UserRow * string))
    (st st' : UsersDb) (r : outcome A) :
  RankingSystem.users_storage run st = (r, st') ->
  ud_fails st' = ud_fails st /\
  ((r = Raise StorageError /\ ud_users st' = ud_users st) \/
   (r = Ok (fst (run (ud_users st))) /\ ud_users st' = snd (run (ud_users st)))).
Proof.
  unfold RankingSystem.users_storage.
  destruct (ud_fails st (ud_ops st)).
  - intros [= <- <-]. split; [done|]. by left.
  - destruct (run (ud_users st)) as [a u]. intros [= <- <-]. split; [done|]. by right.
Qed.

(** What [calculate_user_rank] does, whatever its outcome. *)
Lemma calculate_user_rank_any (uid : Z) (st st' : UsersDb) (r : outcome string) :
  RankingSystem.calculate_user_rank uid st = (r, st') ->
  (r = Raise StorageError /\ ud_users st' = ud_users st) \/
  match ud_users st !! uid with
  | None => r = Ok "QA Pleasant" /\ ud_users st' = ud_users st
  | Some (row, old) =>
      r = Ok (RankingSystem.rank_for (u_total_points row)) /\
      ud_users st' =
        <[uid := (row, RankingSystem.rank_for (u_total_points row))]> (ud_users st)
  end.
Proof.
  unfold RankingSystem.calculate_user_rank, RankingSystem.get_user_stats,
    RankingSystem.update_current_rank. intros H.
  apply bind_any in H as [(o & st1 & H1 & H)|(e & H1 & ->)]; cycle 1.
  { apply users_storage_any in H1 as [_ [[He Hu]|[He _]]]; [|discriminate].
    injection He as ->. by left. }
  apply users_storage_any in H1 as [_ [[He _]|[He Hu1]]]; [discriminate|].
  cbn in He, Hu1. injection He as ->.
  destruct (ud_users st !! uid) as [[row old]|] eqn:Eu.
  - destruct (String.eqb (RankingSystem.rank_for (u_total_points row)) old) eqn:Er;
      cbn [negb] in H.
    + apply String.eqb_eq in Er. injection H as <- <-. right. split; [done|].
      rewrite Hu1. by rewrite insert_id by (by rewrite Er).
    + apply bind_any in H as [(u & st2 & H2 & H)|(e & H2 & ->)].
      * injection H as <- <-.
        apply users_storage_any in H2 as [_ [[He _]|[_ Hu2]]]; [discriminate|].
        cbn in Hu2. right. split; [done|]. rewrite Hu2, Hu1.
        apply map_eq. intros k. destruct (decide (k = uid)) as [->|Hne].
        -- by rewrite lookup_alter_eq, lookup_insert_eq, Eu.
        -- by rewrite lookup_alter_ne, lookup_insert_ne.
      * apply users_storage_any in H2 as [_ [[He Hu2]|[He _]]]; [|discriminate].
        injection He as ->. left. split; [done|]. congruence.
  - injection H as <- <-. right. done.
Qed.

(** X13. The rank [calculate_user_rank] returns for a participant with a
    [users] row is the highest rank of the table whose [min_points] the
    participant's points have reached ("QA Pleasant", whose threshold is 0,
    when they are negative); it is then the [current_rank] stored in the
    row, whose other columns are unchanged, as are the other rows. For a
    participant without a row it returns "QA Pleasant" and writes
    nothing. *)
Theorem rank_is_highest_reached (uid : Z) (st st' : UsersDb) (rank : string) :
  RankingSystem.calculate_user_rank uid st = (Ok rank, st') ->
  match ud_users st !! uid with
  | None => rank = "QA Pleasant" /\ ud_users st' = ud_users st
  | Some (row, old) =>
      ud_users st' = <[uid := (row, rank)]> (ud_users st) /\
      exists color,
        In (rank, (min_points_of rank, color)) RANKING_ROLES /\
        (0 <= u_total_points row -> min_points_of rank <= u_total_points row) /\
        (forall name min_points color',
           In (name, (min_points, color')) RANKING_ROLES ->
           min_points <= u_total_points row -> min_points <= min_points_of rank)
  end.
Proof.
  intros H. apply calculate_user_rank_any in H as [[? _]|H]; [discriminate|].
  destruct (ud_users st !! uid) as [[row old]|].
  - destruct H as [[= ->] Hu]. split; [done|].
    assert (forall name min_points color' (P : Prop),
              In (name, (min_points, color')) RANKING_ROLES ->
              (min_points = 0 -> P) -> (min_points = 100 -> P) ->
              (min_points = 300 -> P) -> (min_points = 600 -> P) ->
              (min_points = 1000 -> P) -> (min_points = 2000 -> P) ->
              (min_points = 5000 -> P) -> P) as Hroles.
    { intros name m c P Hin. unfold RANKING_ROLES in Hin. cbn in Hin.
      destruct Hin as [[= _ <- _]|[[= _ <- _]|[[= _ <- _]|[[= _ <- _]|
                       [[= _ <- _]|[[= _ <- _]|[[= _ <- _]|[]]]]]]]]; auto. }
    destruct (rank_for_cases (u_total_points row))
      as [[Hp ->]|[[Hp ->]|[[Hp ->]|[[Hp ->]|[[Hp ->]|[[Hp ->]|[Hp ->]]]]]]];
      eexists; (split; [unfold RANKING_ROLES; cbn; auto 10|]);
      (split; [vm_compute min_points_of; lia|]);
      intros name m c Hin Hle; vm_compute min_points_of;
      apply (Hroles name m c); try done; lia.
  - destruct H as [[= ->] Hu]. done.
Qed.

Lemma rank_is_highest_reached_witness :
  ud_users (snd (RankingSystem.calculate_user_rank 5 users0)) =
    <[5 := (mkUserRow "ann" 250 120 100 None, "QA Baron")]> (ud_users users0) /\
  exists color,
    In ("QA Baron", (min_points_of "QA Baron", color)) RANKING_ROLES /\
    (0 <= 250 -> min_points_of "QA Baron" <= 250) /\
    (forall name min_points color',
       In (name, (min_points, color')) RANKING_ROLES ->
       min_points <= 250 -> min_points <= min_points_of "QA Baron").
Proof.
  apply (rank_is_highest_reached 5 users0
           (snd (RankingSystem.calculate_user_rank 5 users0)) "QA Baron").
  vm_compute. reflexivity.
Defined.

(** X14. More points never give a lower rank: of two successful calls of
    [calculate_user_rank], on any two rows, the one on the row with at
    least as many points returns a rank whose threshold is at least as
    high. *)
Theorem rank_is_monotone
    (uid1 uid2 : Z) (st1 st1' st2 st2' : UsersDb) (rank1 rank2 : string)
    (row1 row2 : UserRow) (old1 old2 : string) :
  RankingSystem.calculate_user_rank uid1 st1 = (Ok rank1, st1') ->
  RankingSystem.calculate_user_rank uid2 st2 = (Ok rank2, st2') ->
  ud_users st1 !! uid1 = Some (row1, old1) ->
  ud_users st2 !! uid2 = Some (row2, old2) ->
  u_total_points row1 <= u_total_points row2 ->
  min_points_of rank1 <= min_points_of rank2.
Proof.
  intros H1 H2 Hu1 Hu2 Hle.
  apply calculate_user_rank_any in H1 as [[? _]|H1]; [discriminate|].
  apply calculate_user_rank_any in H2 as [[? _]|H2]; [discriminate|].
  rewrite Hu1 in H1. rewrite Hu2 in H2.
  destruct H1 as [[= ->] _]. destruct H2 as [[= ->] _].
  destruct (rank_for_cases (u_total_points row1))
    as [[Hp ->]|[[Hp ->]|[[Hp ->]|[[Hp ->]|[[Hp ->]|[[Hp ->]|[Hp ->]]]]]]];
    destruct (rank_for_cases (u_total_points row2))
      as [[Hq ->]|[[Hq ->]|[[Hq ->]|[[Hq ->]|[[Hq ->]|[[Hq ->]|[Hq ->]]]]]]];
    vm_compute min_points_of; lia.
Qed.

Lemma rank_is_monotone_witness :
  min_points_of "QA Baron" <= min_points_of "QA Earl".
Proof.
  apply (rank_is_monotone 5 6 users0
           (snd (RankingSystem.calculate_user_rank 5 users0)) users0
           (snd (RankingSystem.calculate_user_rank 6 users0))
           "QA Baron" "QA Earl"
           (mkUserRow "ann" 250 120 100 None) (mkUserRow "bob" 1000 400 350 None)
           "QA Pleasant" "QA Earl").
  - vm_compute. reflexivity.
  - vm_compute. reflexivity.
  - vm_compute. reflexivity.
  - vm_compute. reflexivity.
  - cbn. lia.
Defined.

Lemma get_user_stats_any (uid : Z) (st st' : UsersDb)
    (r : outcome (option (UserRow * string))) :
  RankingSystem.get_user_stats uid st = (r, st') ->
  ud_users st' = ud_users st /\
  (r = Raise StorageError \/ r = Ok (ud_users st !! uid)).
Proof.
  unfold RankingSystem.get_user_stats. intros H.
  apply users_storage_any in H as [_ [[-> Hu]|[-> Hu]]]; cbn in *; auto.
Qed.

(** X15. [get_rank_info] raises nothing but a storage failure and
    reports "User not found" exactly for a participant without a row.
    Otherwise it reports the participant's points and the rank those
    points earn, which is then the stored rank, with the colour of that
    rank. At 5000 points or more there is no next rank. Below, the next
    rank is reported together with a positive number of points: with
    that many more points the participant's rank is the next rank, and
    with fewer it is still the current one. *)
Theorem rank_info_next_rank (uid : Z) (st : UsersDb) :
  match RankingSystem.get_rank_info uid st with
  | (Raise e, _) => e = StorageError
  | (Ok (RankError msg), st') =>
      msg = "User not found" /\ ud_users st !! uid = None /\
      ud_users st' = ud_users st
  | (Ok (RankOf info), st') =>
      exists row old,
        ud_users st !! uid = Some (row, old) /\
        ri_current_points info = u_total_points row /\
        ri_current_rank info = RankingSystem.rank_for (u_total_points row) /\
        ud_users st' = <[uid := (row, ri_current_rank info)]> (ud_users st) /\
        In (ri_current_rank info,
            (min_points_of (ri_current_rank info), ri_rank_color info))
           RANKING_ROLES /\
        match ri_next_rank info with
        | None => 5000 <= u_total_points row /\ ri_points_to_next_rank info = None
        | Some next =>
            exists k,
              ri_points_to_next_rank info = Some k /\ 0 < k /\
              RankingSystem.rank_for (u_total_points row + k) = next /\
              forall j, 0 <= j < k ->
                RankingSystem.rank_for (u_total_points row + j) = ri_current_rank info
        end
  end.
Proof.
  destruct (RankingSystem.get_rank_info uid st) as [r st'] eqn:H.
  unfold RankingSystem.get_rank_info in H.
  apply bind_any in H as [(o & st1 & H1 & H)|(e & H1 & ->)]; cycle 1.
  { apply get_user_stats_any in H1 as [_ [[= ->]|?]]; done. }
  apply get_user_stats_any in H1 as [Hu1 [?|[= ->]]]; [done|].
  destruct (ud_users st !! uid) as [[row old]|] eqn:Eu; cycle 1.
  { injection H as <- <-. done. }
  apply bind_any in H as [(rank & st2 & H2 & H)|(e & H2 & ->)]; cycle 1.
  { apply calculate_user_rank_any in H2 as [[[= ->] _]|H2]; [done|].
    rewrite Hu1, Eu in H2. by destruct H2. }
  apply calculate_user_rank_any in H2 as [[? _]|H2]; [done|].
  rewrite Hu1, Eu in H2. destruct H2 as [[= ->] Hu2].
  remember (u_total_points row) as p eqn:Ep.
  destruct (rank_for_cases p)
    as [[Hp Hr]|[[Hp Hr]|[[Hp Hr]|[[Hp Hr]|[[Hp Hr]|[[Hp Hr]|[Hp Hr]]]]]]];
    rewrite Hr in H, Hu2; cbn in H; injection H as <- <-;
    exists row, old; rewrite <- Ep;
    cbn [ri_current_points ri_current_rank ri_next_rank
         ri_points_to_next_rank ri_rank_color];
    (split; [done|]); (split; [done|]); (split; [symmetry; exact Hr|]);
    (split; [done|]); (split; [vm_compute; auto 10|]).
  7: { split; [done|]. reflexivity. }
  all: eexists; (split; [reflexivity|]); (split; [lia|]); split.
  all: try match goal with
           | |- RankingSystem.rank_for (?q + (?a - ?q)) = _ =>
               replace (q + (a - q)) with a by lia; vm_compute; reflexivity
           end.
  all: intros j Hj;
    destruct (rank_for_cases (p + j))
      as [[Hq ->]|[[Hq ->]|[[Hq ->]|[[Hq ->]|[[Hq ->]|[[Hq ->]|[Hq ->]]]]]]];
    first [reflexivity | lia].
Qed.

(** ** Importing questions *)

Lemma max_question_id_nonneg (l : list Z) : 0 <= foldr Z.max 0 l.
Proof. induction l; cbn; lia. Qed.

Lemma foldr_max_app (l : list Z) (x : Z) :
  foldr Z.max 0 (l ++ [x]) = Z.max (foldr Z.max 0 l) x.
Proof.
  induction l as [|y l IH]; cbn.
  - lia.
  - rewrite IH. lia.
Qed.

Lemma max_question_id_In (d : Database) (q : Question) :
  In q (questions d) -> question_id q <= AdminSystem.max_question_id d.
Proof.
  unfold AdminSystem.max_question_id.
  induction (questions d) as [|q' l IH]; cbn; [done|].
  intros [->|H]; [lia|]. specialize (IH H). lia.
Qed.

Lemma check_required_None (row : CsvRow) (fields : list string) :
  AdminSystem.check_required row fields = None ->
  forall f, In f fields -> exists v, row !! f = Some (Some v) /\ strip v <> EmptyString.
Proof.
  induction fields as [|f0 fields IH]; cbn; [done|].
  destruct (row !! f0) as [[v|]|] eqn:E; [|done..].
  destruct (strip v) eqn:Es; [done|].
  intros H f [<-|Hin]; [|by apply IH].
  exists v. split; [done|]. by rewrite Es.
Qed.

Lemma prepare_row_inr (row : CsvRow) (args : AdminSystem.QuestionArgs) :
  AdminSystem.prepare_row row = inr args ->
  1 <= AdminSystem.qa_difficulty args <= 3 /\
  AdminSystem.qa_correct args ∈ ["A"; "B"; "C"; "D"] /\
  AdminSystem.qa_text args <> EmptyString /\
  AdminSystem.qa_a args <> EmptyString /\ AdminSystem.qa_b args <> EmptyString /\
  AdminSystem.qa_c args <> EmptyString /\ AdminSystem.qa_d args <> EmptyString.
Proof.
  unfold AdminSystem.prepare_row.
  destruct (AdminSystem.check_required row AdminSystem.required_fields) eqn:Ec;
    [done|].
  pose proof (check_required_None _ _ Ec) as Hreq.
  assert (forall f, In f AdminSystem.required_fields ->
            exists v, AdminSystem.text_of row f = inr v /\ strip v <> EmptyString)
    as Htext.
  { intros f Hin. destruct (Hreq f Hin) as (v & Hv & Hne).
    exists v. unfold AdminSystem.text_of. by rewrite Hv. }
  destruct (Htext "difficulty") as (vd & -> & _); [cbn; auto 10|].
  destruct (Htext "correct_option") as (vc & -> & _); [cbn; auto 10|].
  destruct (Htext "question_text") as (vt & -> & Ht); [cbn; auto 10|].
  destruct (Htext "option_a") as (va & -> & Ha); [cbn; auto 10|].
  destruct (Htext "option_b") as (vb & -> & Hb); [cbn; auto 10|].
  destruct (Htext "option_c") as (vc' & -> & Hc); [cbn; auto 10|].
  destruct (Htext "option_d") as (vd' & -> & Hd); [cbn; auto 10|].
  cbn [AdminSystem.and_then].
  destruct (int_of_str (strip vd)) as [diff|]; [|done].
  destruct (bool_decide (diff ∈ [1; 2; 3])) eqn:Ed; cbn [negb]; [|done].
  destruct (bool_decide (upper vc ∈ ["A"; "B"; "C"; "D"])) eqn:Eo; cbn [negb]; [|done].
  apply bool_decide_eq_true in Ed, Eo.
  destruct (row !! "explanation") as [[ve|]|]; cbn [AdminSystem.and_then];
    [|done|]; intros [= <-]; cbn; split_and!; try done.
  all: try (set_unfold in Ed; lia).
Qed.

(** One call of [add_question], whatever its outcome. *)
Lemma add_question_any (chapter : Z) (text a b c d correct : string) (diff : Z)
    (expl : string) (st st' : QuestionStore) (r : outcome Z) :
  AdminSystem.add_question chapter text a b c d correct diff expl st = (r, st') ->
  qs_fails st' = qs_fails st /\
  same_but_questions (qs_db st) (qs_db st') /\
  match r with
  | Raise e =>
      questions (qs_db st') = questions (qs_db st) /\
      top_question_id st' = top_question_id st /\
      (e = StorageError \/ ~ 1 <= diff <= 3)
  | Ok qid =>
      1 <= diff <= 3 /\
      qid = top_question_id st + 1 /\
      top_question_id st' = qid /\
      questions (qs_db st') =
        questions (qs_db st) ++
          [mkQuestion qid chapter text a b c d correct diff (Some expl)]
  end.
Proof.
  unfold AdminSystem.add_question, top_question_id, same_but_questions.
  destruct (qs_fails st (qs_ops st)); [intros [= <- <-]; cbn; auto 10|].
  destruct (bool_decide (diff ∈ [1; 2; 3])) eqn:Ed; cbn [negb].
  - apply bool_decide_eq_true in Ed. intros [= <- <-]. cbn.
    split_and!; try done.
    + set_unfold in Ed. lia.
    + set_unfold in Ed. lia.
    + unfold AdminSystem.max_question_id. cbn. rewrite fmap_app. cbn.
      rewrite foldr_max_app. lia.
  - apply bool_decide_eq_false in Ed. intros [= <- <-]. cbn.
    split_and!; try done. right. intros H. apply Ed. set_unfold. lia.
Qed.

(** One turn of the loop. *)
Lemma import_row_any (chapter : Z) (row : CsvRow) (st st' : QuestionStore)
    (o : option RowError) :
  AdminSystem.import_row chapter row st = (o, st') ->
  qs_fails st' = qs_fails st /\
  same_but_questions (qs_db st) (qs_db st') /\
  match o with
  | Some e =>
      questions (qs_db st') = questions (qs_db st) /\
      top_question_id st' = top_question_id st /\
      (forall e', e = AddQuestionFailed e' -> e' = StorageError)
  | None =>
      exists q,
        questions (qs_db st') = questions (qs_db st) ++ [q] /\
        well_formed chapter q /\
        question_id q = top_question_id st + 1 /\
        top_question_id st' = top_question_id st + 1
  end.
Proof.
  unfold AdminSystem.import_row.
  destruct (AdminSystem.prepare_row row) as [e|args] eqn:Ep.
  - intros [= <- <-]. unfold same_but_questions. split_and!; try done.
    intros e' ->. exfalso. revert Ep. unfold AdminSystem.prepare_row.
    destruct (AdminSystem.check_required row AdminSystem.required_fields) as [e|] eqn:Ec.
    + intros [= ->]. revert Ec. generalize AdminSystem.required_fields.
      intros l. induction l as [|f l IH]; cbn; [done|].
      repeat case_match; try done; by intros [=].
    + unfold AdminSystem.and_then, AdminSystem.text_of.
      intros Heq. repeat (case_match; simplify_eq).
  - apply prepare_row_inr in Ep as (Hd & Hc & Ht & Ha & Hb & Hc' & Hd').
    destruct (AdminSystem.add_question _ _ _ _ _ _ _ _ _ st) as [[qid|e] st1] eqn:Ea;
      intros [= <- <-]; apply add_question_any in Ea as (Hf & Hsame & Ha').
    + destruct Ha' as (_ & -> & Htop & Hq). split_and!; try done.
      eexists. split; [exact Hq|]. unfold well_formed. cbn.
      split_and!; eauto; lia.
    + destruct Ha' as (Hq & Htop & He). split_and!; try done.
      intros e' [= <-]. destruct He as [->|Hn]; [done|lia].
Qed.

(** The loop of the import, from any point of it. *)
Lemma import_rows_spec (chapter : Z) (rows : list CsvRow) :
  forall (n i : Z) (errs : list (Z * RowError)) (st st' : QuestionStore)
         (i' : Z) (errs' : list (Z * RowError)),
    AdminSystem.import_rows chapter rows n i errs st = ((i', errs'), st') ->
    exists new errs_new,
      questions (qs_db st') = questions (qs_db st) ++ new /\
      errs' = errs ++ errs_new /\
      i' = i + Z.of_nat (length new) /\
      (length new + length errs_new = length rows)%nat /\
      Forall (well_formed chapter) new /\
      (forall (k : nat) q, new !! k = Some q ->
         question_id q = top_question_id st + 1 + Z.of_nat k) /\
      top_question_id st' = top_question_id st + Z.of_nat (length new) /\
      Forall (fun k => n <= k < n + Z.of_nat (length rows)) (errs_new.*1) /\
      StronglySorted Z.lt (errs_new.*1) /\
      Forall (fun e => forall e', e.2 = AddQuestionFailed e' -> e' = StorageError)
        errs_new /\
      same_but_questions (qs_db st) (qs_db st') /\
      qs_fails st' = qs_fails st.
Proof.
  induction rows as [|row rows IH]; intros n i errs st st' i' errs' H.
  - cbn in H. injection H as <- <- <-. exists [], [].
    rewrite !app_nil_r. cbn. unfold same_but_questions.
    split_and!; try done; try lia; constructor.
  - cbn [AdminSystem.import_rows] in H.
    destruct (AdminSystem.import_row chapter row st) as [[e|] st1] eqn:Er;
      apply import_row_any in Er as (Hf1 & Hsame1 & Hrow);
      apply IH in H
        as (new & errs_new & Hq & -> & -> & Hlen & Hwf & Hids & Htop & Hnum & Hsort &
            Hadd & Hsame & Hf).
    + destruct Hrow as (Hq1 & Htop1 & He).
      exists new, ((n, e) :: errs_new). rewrite <- app_assoc. cbn.
      rewrite Hq, Hq1, Htop, Htop1, Hf, Hf1.
      split_and!; try done.
      * lia.
      * intros k q Hk. rewrite (Hids k q Hk). lia.
      * constructor; [lia|]. eapply Forall_impl; [exact Hnum|]. cbn. lia.
      * constructor; [done|].
        eapply Forall_impl; [exact Hnum|]. cbn. lia.
      * constructor; done.
      * destruct Hsame1 as (? & ? & ? & ? & ?), Hsame as (? & ? & ? & ? & ?).
        unfold same_but_questions. split_and!; congruence.
    + destruct Hrow as (q1 & Hq1 & Hwf1 & Hid1 & Htop1).
      exists (q1 :: new), errs_new. cbn [length].
      rewrite Hq, Hq1, Htop, Htop1, Hf, Hf1, <- app_assoc. cbn.
      split_and!; try done.
      * lia.
      * lia.
      * by constructor.
      * intros [|k] q Hk; cbn in Hk.
        -- injection Hk as <-. lia.
        -- rewrite (Hids k q Hk). lia.
      * lia.
      * eapply Forall_impl; [exact Hnum|]. cbn. lia.
      * destruct Hsame1 as (? & ? & ? & ? & ?), Hsame as (? & ? & ? & ? & ?).
        unfold same_but_questions. split_and!; congruence.
Qed.

Lemma find_app_Some {A} (f : A -> bool) (l l' : list A) :
  is_Some (List.find f l) -> List.find f (l ++ l') = List.find f l.
Proof.
  induction l as [|x l IH]; cbn.
  - by intros [? ?].
  - destruct (f x); [done|]. exact IH.
Qed.


(** X17. The questions a CSV import adds are well formed and new: each is
    of the chapter of the import, has a difficulty of 1, 2 or 3, one of
    "A", "B", "C", "D" as correct option, a question text and four options
    that are not empty, and an explanation that is not NULL; their ids
    follow the largest id the table has ever held, one by one. Hence the
    table keeps satisfying its CHECK constraint, and a look-up by id of a
    question that was there finds the same row. *)
Theorem imported_questions_well_formed
    (rows : list CsvRow) (broken : bool) (chapter : Z) (st : QuestionStore) :
  let st' := snd (AdminSystem.import_questions_from_csv rows broken chapter st) in
  exists new,
    questions (qs_db st') = questions (qs_db st) ++ new /\
    Forall (well_formed chapter) new /\
    (forall (k : nat) q, new !! k = Some q ->
       question_id q = top_question_id st + 1 + Z.of_nat k) /\
    (forall q q', In q (questions (qs_db st)) -> In q' new ->
       question_id q < question_id q') /\
    (checked (qs_db st) -> checked (qs_db st')) /\
    (forall qid,
       is_Some (List.find (fun q => question_id q =? qid) (questions (qs_db st))) ->
       List.find (fun q => question_id q =? qid) (questions (qs_db st')) =
       List.find (fun q => question_id q =? qid) (questions (qs_db st))).
Proof.
  cbv zeta. unfold AdminSystem.import_questions_from_csv.
  destruct (AdminSystem.import_rows chapter rows 2 0 [] st) as [[i errs] st'] eqn:E.
  apply import_rows_spec in E
    as (new & errs_new & Hq & _ & _ & _ & Hwf & Hids & _).
  assert (snd (if broken then (ImportFailed, st') else (Imported i errs, st')) = st')
    as -> by (by destruct broken).
  exists new. split_and!; try done.
  - intros q q' Hin Hin'. apply max_question_id_In in Hin.
    apply list_elem_of_In, list_elem_of_lookup_1 in Hin' as [k Hk].
    rewrite (Hids k q' Hk). unfold top_question_id. lia.
  - intros Hchk q Hin. rewrite Hq in Hin. apply in_app_or in Hin as [Hin|Hin].
    + by apply Hchk.
    + apply list_elem_of_In in Hin.
      rewrite Forall_forall in Hwf. by destruct (Hwf q Hin) as (_ & ? & _).
  - intros qid Hsome. rewrite Hq. by apply find_app_Some.
Qed.

Example import_sample :
  fst import_out = Imported 2 [(3, BadDifficulty)] /\
  (question_id <$> questions (qs_db (snd import_out))) = [1; 2; 3; 4; 5; 6] /\
  (correct_option <$> questions (qs_db (snd import_out))) =
    ["B"; "a"; "C"; "A"; "A"; "C"] /\
  (question_text <$> questions (qs_db (snd import_out))) =
    ["2+2?"; "3*3?"; "2^5?"; "1-1?"; "5+5?"; "7+7?"].
Proof. vm_compute. done. Qed.

(** ** Suggestions *)

Lemma filter_nil_iff {A} (f : A -> bool) (l : list A) :
  List.filter f l = [] <-> Forall (fun x => f x = false) l.
Proof.
  induction l as [|x l IH]; cbn.
  - split; [constructor|done].
  - destruct (f x) eqn:E.
    + split; [done|]. intros H. apply Forall_cons in H as [? _]. congruence.
    + rewrite IH. split; [by constructor|]. intros H. by apply Forall_cons in H as [_ ?].
Qed.

Lemma filter_cons_iff {A} (f : A -> bool) (l : list A) :
  List.filter f l <> [] <-> Exists (fun x => f x = true) l.
Proof.
  induction l as [|x l IH]; cbn.
  - split; [done|]. intros H. by apply Exists_nil in H.
  - destruct (f x) eqn:E.
    + split; [|done]. intros _. by apply Exists_cons_hd.
    + rewrite IH. split; [by apply Exists_cons_tl|].
      intros H. apply Exists_cons in H as [?|?]; [congruence|done].
Qed.

(** The suggestions without the guard on an empty performance list. *)
Lemma generate_suggestions_parts
    (chapter_performance : list ChapterPerformance) (overall_accuracy : Q) :
  let weak := List.filter AnalyticsSystem.is_weak chapter_performance in
  let slow := List.filter AnalyticsSystem.is_slow chapter_performance in
  let parts :=
    (if Qltb overall_accuracy 60 then [AnalyticsSystem.focus_message] else []) ++
    (match weak with [] => [] | _ => [AnalyticsSystem.review_message weak] end) ++
    (match slow with [] => [] | _ => [AnalyticsSystem.practice_message] end) in
  AnalyticsSystem._generate_suggestions chapter_performance overall_accuracy =
    match parts with [] => [AnalyticsSystem.great_message] | _ => parts end.
Proof.
  cbv zeta. unfold AnalyticsSystem._generate_suggestions.
  destruct chapter_performance as [|ch l].
  - cbn. by destruct (Qltb overall_accuracy 60).
  - destruct (Qltb overall_accuracy 60);
      destruct (List.filter AnalyticsSystem.is_weak (ch :: l));
      destruct (List.filter AnalyticsSystem.is_slow (ch :: l)); done.
Qed.

Lemma review_message_distinct (weak : list ChapterPerformance) :
  AnalyticsSystem.review_message weak <> AnalyticsSystem.focus_message /\
  AnalyticsSystem.review_message weak <> AnalyticsSystem.practice_message /\
  AnalyticsSystem.review_message weak <> AnalyticsSystem.great_message.
Proof.
  split_and!; intros H; vm_compute in H; discriminate.
Qed.

(** X18. [_generate_suggestions] returns one to three messages. The focus
    message is among them exactly when the overall accuracy is below 60;
    the review message exactly when some chapter has an accuracy below
    0.5, and it names the first three such chapters at most, in the order
    given; the practice message exactly when some chapter has an average
    response time above 20. The "Great job" message is among them exactly
    when none of these holds, and then it is the only one. *)
Theorem suggestions_cover_weaknesses
    (chapter_performance : list ChapterPerformance) (overall_accuracy : Q) :
  let weak := List.filter AnalyticsSystem.is_weak chapter_performance in
  let r := AnalyticsSystem._generate_suggestions chapter_performance overall_accuracy in
  (1 <= length r <= 3)%nat /\
  (In AnalyticsSystem.focus_message r <-> (overall_accuracy < 60)%Q) /\
  (In (AnalyticsSystem.review_message weak) r <->
   Exists (fun ch => (cp_accuracy ch < 1 # 2)%Q) chapter_performance) /\
  (forall m, In m r ->
     m = AnalyticsSystem.focus_message \/ m = AnalyticsSystem.practice_message \/
     m = AnalyticsSystem.great_message \/ m = AnalyticsSystem.review_message weak) /\
  (In AnalyticsSystem.practice_message r <->
   Exists (fun ch => (20 < cp_avg_response_time ch)%Q) chapter_performance) /\
  (In AnalyticsSystem.great_message r <->
   (60 <= overall_accuracy)%Q /\
   Forall (fun ch => (1 # 2 <= cp_accuracy ch)%Q /\
                     (cp_avg_response_time ch <= 20)%Q) chapter_performance) /\
  (In AnalyticsSystem.great_message r -> r = [AnalyticsSystem.great_message]).
Proof.
  cbv zeta. rewrite generate_suggestions_parts.
  pose proof (review_message_distinct
                (List.filter AnalyticsSystem.is_weak chapter_performance))
    as (Hrf & Hrp & Hrg).
  assert (AnalyticsSystem.focus_message <> AnalyticsSystem.practice_message /\
          AnalyticsSystem.focus_message <> AnalyticsSystem.great_message /\
          AnalyticsSystem.practice_message <> AnalyticsSystem.great_message)
    as (Hfp & Hfg & Hpg) by (split_and!; intros H; vm_compute in H; discriminate).
  assert (Qltb overall_accuracy 60 = false <-> (60 <= overall_accuracy)%Q) as Hacc.
  { rewrite <- not_true_iff_false, Qltb_lt. split; [apply Qnot_lt_le|apply Qle_not_lt]. }
  assert (List.filter AnalyticsSystem.is_weak chapter_performance <> [] <->
          Exists (fun ch => (cp_accuracy ch < 1 # 2)%Q) chapter_performance) as Hweak.
  { rewrite filter_cons_iff. unfold AnalyticsSystem.is_weak.
    split; intros H; (eapply Exists_impl; [exact H|]); intros ch; apply Qltb_lt. }
  assert (List.filter AnalyticsSystem.is_slow chapter_performance <> [] <->
          Exists (fun ch => (20 < cp_avg_response_time ch)%Q) chapter_performance)
    as Hslow.
  { rewrite filter_cons_iff. unfold AnalyticsSystem.is_slow.
    split; intros H; (eapply Exists_impl; [exact H|]); intros ch; apply Qltb_lt. }
  assert ((List.filter AnalyticsSystem.is_weak chapter_performance = [] /\
           List.filter AnalyticsSystem.is_slow chapter_performance = []) <->
          Forall (fun ch => (1 # 2 <= cp_accuracy ch)%Q /\
                            (cp_avg_response_time ch <= 20)%Q) chapter_performance)
    as Hnone.
  { rewrite !filter_nil_iff, <- Forall_and. apply Forall_iff. intros ch.
    unfold AnalyticsSystem.is_weak, AnalyticsSystem.is_slow.
    rewrite <- !not_true_iff_false, !Qltb_lt.
    split; intros [? ?]; split;
      first [by apply Qnot_lt_le | by apply Qle_not_lt]. }
  rewrite <- Hweak, <- Hslow, <- Hnone.
  assert ((overall_accuracy < 60)%Q <-> Qltb overall_accuracy 60 = true) as ->
    by (symmetry; apply Qltb_lt).
  rewrite <- Hacc. clear Hacc Hweak Hslow Hnone.
  destruct (Qltb overall_accuracy 60);
    destruct (List.filter AnalyticsSystem.is_weak chapter_performance) as [|w ws];
    destruct (List.filter AnalyticsSystem.is_slow chapter_performance) as [|s ss];
    cbn; split_and!; try lia; intuition (try congruence; try discriminate).
Qed.

Example suggestions_sample :
  AnalyticsSystem._generate_suggestions performance0 50 =
    [ AnalyticsSystem.focus_message;
      "Review these challenging chapters: Algebra";
      AnalyticsSystem.practice_message ].
Proof. vm_compute. reflexivity. Qed.

(** ** The chapter list *)

Lemma insert_by_name_perm (c : Chapter) (l : list Chapter) :
  DatabaseManager.insert_by_name c l ≡ₚ c :: l.
Proof.
  induction l as [|c' l IH]; cbn; [done|].
  destruct (String.leb (c_name c) (c_name c')); [done|].
  rewrite IH. apply Permutation_swap.
Qed.

Lemma insert_by_name_sorted (c : Chapter) (l : list Chapter) :
  Sorted name_le l -> Sorted name_le (DatabaseManager.insert_by_name c l).
Proof.
  induction l as [|c' l IH]; cbn; intros Hs.
  - by repeat constructor.
  - destruct (String.leb (c_name c) (c_name c')) eqn:E.
    + constructor; [done|]. by constructor.
    + apply Sorted_inv in Hs as [Hs Hhd]. constructor; [by apply IH|].
      assert (name_le c' c) as Hc.
      { destruct (String.leb_total (c_name c) (c_name c')) as [H|H]; [congruence|done]. }
      destruct l as [|c'' l]; cbn.
      * by constructor.
      * destruct (String.leb (c_name c) (c_name c'')); constructor; [done|].
        by apply HdRel_inv in Hhd.
Qed.

(** X19. [get_chapters] returns every chapter of the table, each as often
    as the table has it, in ascending order of the names, and changes
    neither the database nor the live sessions. *)
Theorem chapters_listed_in_name_order (w w' : World) (chs : list Chapter) :
  DatabaseManager.get_chapters w = (Ok chs, w') ->
  chs ≡ₚ chapters (db w) /\
  Sorted name_le chs /\
  db w' = db w /\
  active_sessions w' = active_sessions w.
Proof.
  unfold DatabaseManager.get_chapters. intros H.
  apply storage_Ok in H as (_ & d & Hd & ->). injection Hd as <- <-.
  split_and!; try done.
  - induction (chapters (db w)) as [|c l IH]; cbn; [done|].
    by rewrite insert_by_name_perm, IH.
  - induction (chapters (db w)) as [|c l IH]; cbn; [constructor|].
    by apply insert_by_name_sorted.
Qed.

Lemma chapters_listed_in_name_order_witness :
  chapters_listed ≡ₚ chapters (db w0) /\
  Sorted name_le chapters_listed /\
  db (snd (DatabaseManager.get_chapters w0)) = db w0 /\
  active_sessions (snd (DatabaseManager.get_chapters w0)) = active_sessions w0.
Proof.
  apply (chapters_listed_in_name_order w0 (snd (DatabaseManager.get_chapters w0))
           chapters_listed).
  vm_compute. reflexivity.
Defined.

(** ** Deleting questions *)

Lemma filter_length_split {A} (f : A -> bool) (l : list A) :
  (length (List.filter f l) + length (List.filter (fun x => negb (f x)) l) =
   length l)%nat.
Proof.
  induction l as [|x l IH]; cbn; [done|].
  destruct (f x); cbn; lia.
Qed.

Lemma bulk_manage_questions_cases (chapter : Z) (action : string)
    (question_ids : option (list Z)) (st st' : QuestionStore) (res : BulkResult) :
  AdminSystemBulk.bulk_manage_questions chapter action question_ids st = (res, st') ->
  qs_sequence st' = qs_sequence st /\
  qs_fails st' = qs_fails st /\
  same_but_questions (qs_db st) (qs_db st') /\
  match res with
  | BulkDeleted n =>
      exists gone,
        ((action = "delete" /\
          exists ids, question_ids = Some ids /\ ids <> [] /\
                      gone = AdminSystemBulk.listed_in_chapter chapter ids) \/
         (action = "delete_all" /\ gone = AdminSystemBulk.in_chapter chapter)) /\
        questions (qs_db st') =
          List.filter (fun q => negb (gone q)) (questions (qs_db st)) /\
        n = Z.of_nat (length (List.filter gone (questions (qs_db st))))
  | _ => questions (qs_db st') = questions (qs_db st)
  end.
Proof.
  unfold AdminSystemBulk.bulk_manage_questions, AdminSystemBulk.delete_where,
    same_but_questions.
  destruct (qs_fails st (qs_ops st)); [by intros [= <- <-]|].
  destruct (String.eqb action "delete") eqn:Ed; cbn [andb].
  - apply String.eqb_eq in Ed.
    destruct question_ids as [[|qid ids]|].
    + subst action. cbn. by intros [= <- <-].
    + intros [= <- <-]. cbn. split_and!; try done.
      eexists. split; [|done]. left. split; [done|]. eauto.
    + subst action. cbn. by intros [= <- <-].
  - destruct (String.eqb action "delete_all") eqn:Ea.
    + apply String.eqb_eq in Ea. intros [= <- <-]. cbn. split_and!; try done.
      eexists. split; [|done]. by right.
    + by intros [= <- <-].
Qed.

(** X20. What [bulk_manage_questions] deletes, on SQLite. Whatever it
    returns, every question left was there before, the questions of other
    chapters are all left, and no other table nor the AUTOINCREMENT
    sequence is written. When it reports success, [affected_count] is the
    number of questions gone; after "delete_all" no question of the
    chapter is left; after "delete" a question is gone exactly if it is
    of the chapter and its id is among those given. When it reports an
    error, nothing is deleted. *)
Theorem bulk_delete_stays_in_chapter
    (chapter : Z) (action : string) (question_ids : option (list Z))
    (st st' : QuestionStore) (res : BulkResult) :
  AdminSystemBulk.bulk_manage_questions chapter action question_ids st = (res, st') ->
  (forall q, In q (questions (qs_db st')) -> In q (questions (qs_db st))) /\
  (forall q, In q (questions (qs_db st)) -> q_chapter_id q <> chapter ->
     In q (questions (qs_db st'))) /\
  same_but_questions (qs_db st) (qs_db st') /\
  qs_sequence st' = qs_sequence st /\
  match res with
  | BulkDeleted n =>
      (Z.of_nat (length (questions (qs_db st'))) + n =
       Z.of_nat (length (questions (qs_db st)))) /\
      (action = "delete_all" ->
       forall q, In q (questions (qs_db st')) -> q_chapter_id q <> chapter) /\
      (action = "delete" ->
       exists ids, question_ids = Some ids /\
         forall q, In q (questions (qs_db st)) ->
           (In q (questions (qs_db st')) <->
            ~ (In (question_id q) ids /\ q_chapter_id q = chapter)))
  | _ => questions (qs_db st') = questions (qs_db st)
  end.
Proof.
  intros H. apply bulk_manage_questions_cases in H as (Hseq & _ & Hsame & H).
  destruct res as [n| |]; cycle 1.
  { rewrite H. split_and!; done. }
  { rewrite H. split_and!; done. }
  destruct H as (gone & Hgone & Hq & ->). rewrite Hq.
  assert (forall q, gone q = true -> q_chapter_id q = chapter) as Hscope.
  { intros q. destruct Hgone as [(_ & ids & _ & _ & ->)|(_ & ->)].
    - unfold AdminSystemBulk.listed_in_chapter. rewrite andb_true_iff, Z.eqb_eq. tauto.
    - unfold AdminSystemBulk.in_chapter. by rewrite Z.eqb_eq. }
  split_and!; try done.
  - intros q Hin. by apply filter_In in Hin as [? _].
  - intros q Hin Hne. apply filter_In. split; [done|].
    apply negb_true_iff, not_true_iff_false. intros Hg. by apply Hscope in Hg.
  - pose proof (filter_length_split gone (questions (qs_db st))). lia.
  - intros ->. destruct Hgone as [(Ha & _)|(_ & ->)]; [discriminate|].
    intros q Hin. apply filter_In in Hin as [_ Hin].
    unfold AdminSystemBulk.in_chapter in Hin.
    apply negb_true_iff, Z.eqb_neq in Hin. done.
  - intros ->. destruct Hgone as [(_ & ids & Hids & _ & ->)|(Ha & _)]; [|discriminate].
    exists ids. split; [done|]. intros q Hin.
    rewrite filter_In. unfold AdminSystemBulk.listed_in_chapter.
    rewrite negb_true_iff, <- not_true_iff_false, andb_true_iff,
      bool_decide_eq_true, Z.eqb_eq, list_elem_of_In.
    tauto.
Qed.

Lemma bulk_delete_stays_in_chapter_witness :
  (forall q, In q (questions (qs_db store_pruned)) -> In q (questions (qs_db store0))) /\
  (forall q, In q (questions (qs_db store0)) -> q_chapter_id q <> 7 ->
     In q (questions (qs_db store_pruned))) /\
  same_but_questions (qs_db store0) (qs_db store_pruned) /\
  qs_sequence store_pruned = qs_sequence store0 /\
  (Z.of_nat (length (questions (qs_db store_pruned))) + 1 =
   Z.of_nat (length (questions (qs_db store0)))) /\
  ("delete" = "delete_all" ->
   forall q, In q (questions (qs_db store_pruned)) -> q_chapter_id q <> 7) /\
  ("delete" = "delete" ->
   exists ids, Some [3; 4] = Some ids /\
     forall q, In q (questions (qs_db store0)) ->
       (In q (questions (qs_db store_pruned)) <->
        ~ (In (question_id q) ids /\ q_chapter_id q = 7))).
Proof.
  apply (bulk_delete_stays_in_chapter 7 "delete" (Some [3; 4]) store0 store_pruned
           (BulkDeleted 1)).
  vm_compute. reflexivity.
Defined.

(** X21. Question ids are not used twice: while the AUTOINCREMENT
    sequence has kept up with the table, a question found in the table
    after a bulk deletion followed by a CSV import is either a question
    that was in the table before the deletion, or a question whose id is
    larger than every id the table had then, those of the deleted
    questions included. *)
Theorem question_ids_are_not_reused
    (chapter : Z) (action : string) (question_ids : option (list Z))
    (rows : list CsvRow) (broken : bool) (chapter' : Z)
    (st st1 : QuestionStore) (res : BulkResult) :
  in_step st ->
  AdminSystemBulk.bulk_manage_questions chapter action question_ids st = (res, st1) ->
  let st2 := snd (AdminSystem.import_questions_from_csv rows broken chapter' st1) in
  forall q, In q (questions (qs_db st2)) ->
    In q (questions (qs_db st)) \/
    forall q0, In q0 (questions (qs_db st)) -> question_id q0 < question_id q.
Proof.
  intros Hstep H. cbv zeta.
  apply bulk_manage_questions_cases in H as (Hseq & _ & _ & H).
  assert (forall q, In q (questions (qs_db st1)) -> In q (questions (qs_db st)))
    as Hsub.
  { destruct res as [n| |]; [|by rewrite H..].
    destruct H as (gone & _ & -> & _). intros q Hin.
    by apply filter_In in Hin as [? _]. }
  unfold AdminSystem.import_questions_from_csv.
  destruct (AdminSystem.import_rows chapter' rows 2 0 [] st1) as [[i errs] st2] eqn:E.
  apply import_rows_spec in E as (new & errs_new & Hq & _ & _ & _ & _ & Hids & _).
  assert (snd (if broken then (ImportFailed, st2) else (Imported i errs, st2)) = st2)
    as -> by (by destruct broken).
  intros q Hin. rewrite Hq in Hin. apply in_app_or in Hin as [Hin|Hin].
  - left. by apply Hsub.
  - right. intros q0 Hin0. apply max_question_id_In in Hin0.
    apply list_elem_of_In, list_elem_of_lookup_1 in Hin as [k Hk].
    rewrite (Hids k q Hk). unfold top_question_id, in_step in *. lia.
Qed.

Lemma question_ids_are_not_reused_witness :
  in_step store0 /\
  (forall q, In q (questions (qs_db store_refilled)) ->
     In q (questions (qs_db store0)) \/
     forall q0, In q0 (questions (qs_db store0)) -> question_id q0 < question_id q).
Proof.
  split.
  - vm_compute. discriminate.
  - apply (question_ids_are_not_reused 7 "delete" (Some [3; 4]) csv_rows false 7
             store0 store_pruned (BulkDeleted 1)).
    + vm_compute. discriminate.
    + vm_compute. reflexivity.
Defined.

(** X22. A deleted question cannot be answered. With unique question ids,
    once a bulk deletion has removed a question, [submit_answer] on its id
    returns no scored answer and leaves the live sessions as they are,
    whatever the session, and [get_next_question] does not select it. *)
Theorem deleted_question_cannot_be_answered
    (chapter : Z) (action : string) (question_ids : option (list Z))
    (st st' : QuestionStore) (n : Z) (q0 : Question) (w : World)
    (sid : string) (ans : string) (rt : Q) :
  AdminSystemBulk.bulk_manage_questions chapter action question_ids st =
    (BulkDeleted n, st') ->
  NoDup (question_id <$> questions (qs_db st)) ->
  In q0 (questions (qs_db st)) ->
  ~ In q0 (questions (qs_db st')) ->
  questions (db w) = questions (qs_db st') ->
  let out := QuizSystem.submit_answer sid (question_id q0) ans rt w in
  active_sessions (snd out) = active_sessions w /\
  (forall r, fst out <> Ok (Answered r)) /\
  (forall sid' nq w',
     QuizSystem.get_next_question sid' w = (Ok (Some nq), w') ->
     nq_question nq <> q0).
Proof.
  intros H Hnd Hin Hout Hw. cbv zeta.
  apply bulk_manage_questions_cases in H as (_ & _ & _ & gone & _ & Hq & _).
  assert (List.find (fun q => question_id q =? question_id q0) (questions (db w)) = None)
    as Hfind.
  { destruct (find _ _) as [q|] eqn:E; [|done]. exfalso.
    apply find_some in E as [Hq1 Hid]. apply Z.eqb_eq in Hid.
    rewrite Hw in Hq1. assert (In q (questions (qs_db st))) as Hq0.
    { rewrite Hq in Hq1. by apply filter_In in Hq1 as [? _]. }
    assert (q = q0) as ->; [|done].
    apply list_elem_of_In, list_elem_of_lookup_1 in Hq0 as [i Hi].
    apply list_elem_of_In, list_elem_of_lookup_1 in Hin as [j Hj].
    assert (i = j) as ->.
    { apply (NoDup_lookup _ i j (question_id q) Hnd);
        rewrite list_lookup_fmap; [by rewrite Hi | by rewrite Hj, Hid]. }
    congruence. }
  destruct (QuizSystem.submit_answer sid (question_id q0) ans rt w) as [r w'] eqn:E.
  cbn [fst snd]. split_and!.
  - apply submit_answer_table in E as [?|(s & q & s' & _ & Hf & _)]; [done|].
    congruence.
  - intros r' ->. apply submit_answer_effect in E as (s & q & s2 & _ & Hf & _).
    congruence.
  - intros sid' nq w1 Hnext Heq. rewrite <- Hw in Hout. apply Hout. rewrite <- Heq.
    apply engine_next_question_Some in Hnext as (s & _ & _ & _ & _ & _ & _ & _ & _ & Hsel).
    destruct Hsel as [Hsel|(w2 & Hsel0 & Hsel)].
    + apply get_next_question_policy in Hsel as [_ ((? & _) & _)]. done.
    + apply get_next_question_policy in Hsel0 as [Hdb0 _].
      apply get_next_question_policy in Hsel as [_ ((? & _) & _)]. by rewrite <- Hdb0.
Qed.

Lemma deleted_question_cannot_be_answered_witness :
  active_sessions (snd (QuizSystem.submit_answer "session-0" (question_id q3) "C" 4 w_pruned))
    = active_sessions w_pruned /\
  (forall r, fst (QuizSystem.submit_answer "session-0" (question_id q3) "C" 4 w_pruned)
             <> Ok (Answered r)) /\
  (forall sid' nq w',
     QuizSystem.get_next_question sid' w_pruned = (Ok (Some nq), w') ->
     nq_question nq <> q3).
Proof.
  apply (deleted_question_cannot_be_answered 7 "delete" (Some [3; 4]) store0
           store_pruned 1 q3 w_pruned "session-0" "C" 4).
  - vm_compute. reflexivity.
  - apply (bool_decide_unpack _). vm_compute. exact I.
  - cbn. auto.
  - vm_compute. intros [H|[H|[H|[]]]]; discriminate.
  - vm_compute. reflexivity.
Defined.

(** ** The leaderboard *)

Lemma before_spec (a b : LeaderboardEntry) :
  Leaderboard.before a b = true <-> ranks_before a b.
Proof.
  unfold Leaderboard.before, ranks_before.
  rewrite orb_true_iff, andb_true_iff, Z.ltb_lt, Z.eqb_eq, Qle_bool_iff. done.
Qed.

Lemma ranks_before_total (a b : LeaderboardEntry) :
  Leaderboard.before a b = false -> ranks_before b a.
Proof.
  rewrite <- not_true_iff_false, before_spec. unfold ranks_before. intros H.
  destruct (Z.lt_trichotomy (lb_points a) (lb_points b)) as [?|[?|?]].
  - by left.
  - right. split; [done|]. apply Qnot_lt_le. intros Hlt.
    apply H. right. split; [done|]. by apply Qlt_le_weak.
  - exfalso. apply H. by left.
Qed.

Lemma ranks_before_trans (a b c : LeaderboardEntry) :
  ranks_before a b -> ranks_before b c -> ranks_before a c.
Proof.
  unfold ranks_before. intros [?|[? ?]] [?|[? ?]].
  - left. lia.
  - left. lia.
  - left. lia.
  - right. split; [lia|]. by eapply Qle_trans.
Qed.

Lemma insert_entry_perm (e : LeaderboardEntry) (l : list LeaderboardEntry) :
  Leaderboard.insert_entry e l ≡ₚ e :: l.
Proof.
  induction l as [|e' l IH]; cbn; [done|].
  destruct (Leaderboard.before e e'); [done|].
  rewrite IH. apply Permutation_swap.
Qed.

Lemma insert_entry_sorted (e : LeaderboardEntry) (l : list LeaderboardEntry) :
  StronglySorted ranks_before l ->
  StronglySorted ranks_before (Leaderboard.insert_entry e l).
Proof.
  induction l as [|e' l IH]; cbn; intros Hs.
  - repeat constructor.
  - apply StronglySorted_inv in Hs as [Hs Hall].
    destruct (Leaderboard.before e e') eqn:E.
    + apply before_spec in E. constructor; [by constructor|].
      constructor; [done|].
      eapply Forall_impl; [exact Hall|]. intros x Hx. by eapply ranks_before_trans.
    + apply ranks_before_total in E. constructor; [by apply IH|].
      rewrite insert_entry_perm. by constructor.
Qed.

Lemma sorted_entries (l : list LeaderboardEntry) :
  foldr Leaderboard.insert_entry [] l ≡ₚ l /\
  StronglySorted ranks_before (foldr Leaderboard.insert_entry [] l).
Proof.
  induction l as [|e l [IHp IHs]]; cbn.
  - split; [done|constructor].
  - split; [by rewrite insert_entry_perm, IHp|by apply insert_entry_sorted].
Qed.

Lemma sorted_take_drop (l : list LeaderboardEntry) (k : nat) :
  StronglySorted ranks_before l ->
  StronglySorted ranks_before (take k l) /\
  forall e e', e ∈ take k l -> e' ∈ drop k l -> ranks_before e e'.
Proof.
  revert k. induction l as [|x l IH]; intros k Hs.
  - rewrite take_nil, drop_nil. split; [constructor|]. intros e e' H. by apply elem_of_nil in H.
  - apply StronglySorted_inv in Hs as [Hs Hall].
    destruct k as [|k]; cbn.
    + split; [constructor|]. intros e e' H. by apply elem_of_nil in H.
    + destruct (IH k Hs) as [IH1 IH2]. split.
      * constructor; [done|]. rewrite Forall_forall in Hall. apply Forall_forall.
        intros y Hy. apply Hall. by apply (subseteq_take k l).
      * intros e e' He He'. apply elem_of_cons in He as [->|He]; [|by apply IH2].
        rewrite Forall_forall in Hall. apply Hall. by apply (subseteq_drop k l).
Qed.

(** X23. The all-time leaderboard lists participants who have answered at
    least one question, at most [limit] of them when the limit is not
    negative and all of them otherwise, by descending points and, among
    equal points, by descending accuracy; nobody left out stands before
    anybody listed. The table is not changed. *)
Theorem leaderboard_lists_the_best
    (limit : Z) (st st' : UsersDb) (entries : list LeaderboardEntry) :
  Leaderboard.get_leaderboard limit st = (Ok entries, st') ->
  let candidates := Leaderboard.entry_of <$> Leaderboard.eligible (ud_users st) in
  exists rest,
    entries ++ rest ≡ₚ candidates /\
    (limit < 0 -> rest = []) /\
    (0 <= limit -> length entries = Nat.min (Z.to_nat limit) (length candidates)) /\
    StronglySorted ranks_before entries /\
    (forall e e', e ∈ entries -> e' ∈ rest -> ranks_before e e') /\
    Forall (fun e => 0 < lb_questions_answered e) entries /\
    ud_users st' = ud_users st.
Proof.
  unfold Leaderboard.get_leaderboard. intros H. cbv zeta.
  apply users_storage_any in H as [_ [[? _]|[He Hu]]]; [discriminate|].
  cbn [fst snd] in He, Hu. injection He as ->.
  set (candidates := Leaderboard.entry_of <$> Leaderboard.eligible (ud_users st)).
  destruct (sorted_entries candidates) as [Hperm Hsorted].
  set (sorted := foldr Leaderboard.insert_entry [] candidates) in *.
  assert (Forall (fun e => 0 < lb_questions_answered e) sorted) as Hpos.
  { rewrite Hperm. unfold candidates, Leaderboard.eligible.
    apply Forall_forall. intros e He.
    apply list_elem_of_fmap in He as (u & -> & Hu').
    apply list_elem_of_In, filter_In in Hu' as [_ Hu']. cbn. by apply Z.ltb_lt. }
  unfold Leaderboard.limit_rows. destruct (limit <? 0) eqn:El.
  - apply Z.ltb_lt in El. exists []. rewrite app_nil_r.
    split_and!; try done; try lia.
    intros e e' _ H. by apply elem_of_nil in H.
  - apply Z.ltb_ge in El. exists (drop (Z.to_nat limit) sorted).
    rewrite take_drop. destruct (sorted_take_drop sorted (Z.to_nat limit) Hsorted)
      as [Hs1 Hs2].
    split_and!; try done; try lia.
    + intros _. rewrite length_take. by rewrite Hperm.
    + rewrite Forall_forall in Hpos. apply Forall_forall.
      intros e He. apply Hpos. by apply (subseteq_take (Z.to_nat limit) sorted).
Qed.

Lemma leaderboard_lists_the_best_witness :
  exists rest,
    board1 ++ rest ≡ₚ Leaderboard.entry_of <$> Leaderboard.eligible (ud_users users1) /\
    (2 < 0 -> rest = []) /\
    (0 <= 2 ->
     length board1 =
       Nat.min (Z.to_nat 2)
         (length (Leaderboard.entry_of <$> Leaderboard.eligible (ud_users users1)))) /\
    StronglySorted ranks_before board1 /\
    (forall e e', e ∈ board1 -> e' ∈ rest -> ranks_before e e') /\
    Forall (fun e => 0 < lb_questions_answered e) board1 /\
    ud_users (snd (Leaderboard.get_leaderboard 2 users1)) = ud_users users1.
Proof.
  apply (leaderboard_lists_the_best 2 users1 (snd (Leaderboard.get_leaderboard 2 users1))
           board1).
  vm_compute. reflexivity.
Defined.

Example leaderboard_sample :
  (fun e => (lb_username e, lb_points e)) <$> board1 = [("bob", 1000); ("di", 250)].
Proof. vm_compute. reflexivity. Qed.

(** ** Which chapter a name resolves to *)

Lemma string_leb_refl (a : string) : String.leb a a = true.
Proof. destruct (String.leb_total a a); done. Qed.

Lemma string_leb_trans (a b c : string) :
  String.leb a b = true -> String.leb b c = true -> String.leb a c = true.
Proof.
  unfold String.leb. revert b c.
  induction a as [|x a IH]; intros [|y b] [|z c]; cbn; try done.
  unfold Ascii.compare.
  destruct (N.compare_spec (N_of_ascii x) (N_of_ascii y)) as [Hxy|Hxy|Hxy];
    destruct (N.compare_spec (N_of_ascii y) (N_of_ascii z)) as [Hyz|Hyz|Hyz];
    destruct (N.compare_spec (N_of_ascii x) (N_of_ascii z)) as [Hxz|Hxz|Hxz];
    try done; try lia.
  apply IH.
Qed.

Lemma sorted_chapters_strongly (l : list Chapter) :
  StronglySorted name_le (foldr DatabaseManager.insert_by_name [] l).
Proof.
  apply Sorted_StronglySorted.
  - intros a b c. apply string_leb_trans.
  - induction l as [|c l IH]; cbn; [constructor|]. by apply insert_by_name_sorted.
Qed.

Lemma find_first_sorted (f : Chapter -> bool) (l : list Chapter) (x : Chapter) :
  StronglySorted name_le l ->
  List.find f l = Some x ->
  forall y, In y l -> f y = true -> name_le x y.
Proof.
  induction l as [|a l IH]; cbn; [done|]. intros Hs Hf y Hy Hfy.
  apply StronglySorted_inv in Hs as [Hs Hall].
  destruct (f a) eqn:Ea.
  - injection Hf as <-. destruct Hy as [<-|Hy]; [apply string_leb_refl|].
    rewrite Forall_forall in Hall. by apply Hall, list_elem_of_In.
  - destruct Hy as [<-|Hy]; [congruence|]. by apply IH.
Qed.

(** X24. The [start_quiz] command resolves a chapter name without regard
    to case, and among the chapters whose names match takes the first in
    the order of the names: whenever it answers with a question, the
    chapter in the title precedes or equals, in that order, every chapter
    whose lower-cased name is the lower-cased name asked for. *)
Theorem start_command_takes_first_match
    (author : Z) (author_name : string) (name : string)
    (mode : string) (total : Z) (w w' : World)
    (chn : string) (qid number tot diff : Z) :
  Bot.start_quiz author author_name (Some name) mode total w = (Ok tt, w') ->
  outbox w' = outbox w ++ [MsgQuestion chn qid number tot diff] ->
  lower chn = lower name /\
  forall ch, In ch (chapters (db w)) -> lower (c_name ch) = lower name ->
    String.leb chn (c_name ch) = true.
Proof.
  intros H Hout.
  apply bot_start_quiz_cases in H
    as [(m & Hm & Hnq & _)|
        (name' & w1 & w2 & ch0 & w3 & w4 & nqo & [= <-] & Hadd & Hget & Hin & Hname &
         Hmode & Htotal & Hstart & Hnext & Hmsg & Hs' & Hd' & Hsid & Hfind)].
  { rewrite Hm in Hout. apply app_inj_tail in Hout as [_ ->].
    by destruct (Hnq chn qid number tot diff). }
  apply add_user_Ok in Hadd as (_ & _ & _ & Hch & _).
  destruct nqo as [nq|]; destruct Hmsg as [Hm _]; rewrite Hm in Hout;
    apply app_inj_tail in Hout as [_ Hout]; [|discriminate].
  injection Hout as <- _ _ _ _. split; [done|].
  intros ch Hc Hl.
  apply (find_first_sorted _ _ _ (sorted_chapters_strongly _) Hfind).
  - apply sorted_chapters_In. by rewrite Hch.
  - apply String.eqb_eq. done.
Qed.

Lemma start_command_takes_first_match_witness :
  lower "Algebra" = lower "algebra" /\
  forall ch, In ch (chapters (db w_twins)) -> lower (c_name ch) = lower "algebra" ->
    String.leb "Algebra" (c_name ch) = true.
Proof.
  apply (start_command_takes_first_match 5 "ann" "algebra" "mix" 5 w_twins
           (snd out_twins) "Algebra" 2 1 5 1).
  - vm_compute. reflexivity.
  - vm_compute. reflexivity.
Defined.

(** ** Sessions do not interfere *)

(** X25. A call of the engine touches no session but its own: whatever
    the call returns or raises, every entry of the live table under
    another token than the one named (for [start_quiz], the fresh one) is
    as it was; [get_next_question] and [get_session_info] change no entry
    at all. *)
Theorem calls_touch_one_session (c : Call) (w : World) (sid' : string) :
  sid' <> target c w ->
  active_sessions (exec c w) !! sid' = active_sessions w !! sid' /\
  match c with
  | CallNext _ | CallInfo _ => active_sessions (exec c w) = active_sessions w
  | _ => True
  end.
Proof.
  intros Hne.
  destruct c as [uid chapter mode total|sid|sid qid ans rt|sid|sid];
    cbv beta iota delta [exec target] in *.
  - destruct (QuizSystem.start_quiz uid chapter mode total w) as [r w'] eqn:E.
    cbn [snd]. split; [|done].
    apply start_quiz_any in E as [(e & _ & -> & _)|(cur & _ & _ & -> & _)]; [done|].
    by rewrite lookup_insert_ne.
  - destruct (QuizSystem.get_next_question sid w) as [r w'] eqn:E. cbn [snd].
    apply get_next_question_any in E as [-> _]. done.
  - destruct (QuizSystem.submit_answer sid qid ans rt w) as [r w'] eqn:E. cbn [snd].
    split; [|done].
    apply submit_answer_table in E as [->|(s & q & s' & _ & _ & _ & [->| ->])].
    + done.
    + by rewrite lookup_insert_ne.
    + by rewrite lookup_delete_ne.
  - destruct (QuizSystem.end_quiz sid w) as [r w'] eqn:E. cbn [snd].
    split; [|done]. apply end_quiz_any in E as [->| ->]; [done|].
    by rewrite lookup_delete_ne.
  - cbn. done.
Qed.

Lemma calls_touch_one_session_witness :
  active_sessions (exec (CallSubmit "session-0" 1 "B" 2) w_two) !! "session-1" =
    active_sessions w_two !! "session-1" /\
  True.
Proof.
  apply (calls_touch_one_session (CallSubmit "session-0" 1 "B" 2) w_two "session-1").
  vm_compute. discriminate.
Defined.

Example two_sessions :
  current_question <$> active_sessions w_two !! "session-0" = Some 2 /\
  current_question <$>
    active_sessions (exec (CallSubmit "session-0" 1 "B" 2) w_two) !! "session-0" = Some 3 /\
  user_id <$>
    active_sessions (exec (CallSubmit "session-0" 1 "B" 2) w_two) !! "session-1" = Some 6.
Proof. vm_compute. done. Qed.
